(** * Trinnov integration: device session, state cache, command dispatch
      and entity adapters

    A shallow embedding of the Python sources under [intg-trinnov/]
    ([device.py], [registry.py], [media_player.py], [remote.py],
    [sensor.py]) and the properties checked against it.

    Conventions of the embedding:
    - a Python value travelling in an event payload or an attribute
      dictionary is a [PyVal]; [py_eqb] is Python's [==] on it;
    - a Python [float] is an IEEE-754 binary64, i.e. Rocq's primitive
      [float]; the operations are the primitive ones;
    - attribute dictionaries (string keys) are [gmap string PyVal];
      the label tables, where the iteration order decides the result of
      a reverse lookup, are association lists in insertion order;
    - a coroutine of the device is a function from the device record to
      a [Step]: the new record, the effects it performed in order and
      the exception that left it, if any;
    - facts about all floats go through the specification of the
      primitive operations ([SpecFloat]), to which the axioms of
      [FloatAxioms] relate them. *)

From Stdlib Require Import ZArith Floats Ascii String List Bool Lia.
From stdpp Require Import base option gmap strings.
Import ListNotations.

Local Open Scope string_scope.
Local Open Scope Z_scope.

(* ================================================================== *)
(** ** Python values *)
(* ================================================================== *)

Module Py.

(** The exceptions that the modelled code can meet. *)
Inductive Exn : Type :=
| ValueError
| TypeError
| OverflowError
| AttributeError
| UnboundLocalError
| IndexError
| KeyError.

(** A computation that returns or raises. *)
Inductive result (A : Type) : Type :=
| Ok (a : A)
| Raise (e : Exn).
Arguments Ok {A} a.
Arguments Raise {A} e.

#[warnings="-register-all"]
Inductive PyVal : Type :=
| VNone
| VBool (b : bool)
| VInt (z : Z)
| VFloat (f : float)
| VStr (s : string)
| VList (l : list PyVal)
| VDict (d : list (PyVal * PyVal)).

(** The integer a float denotes, when it denotes one exactly:
    [f == z] for a Python [int] [z] compares the exact values. *)
Definition float_eqb_Z (f : float) (z : Z) : bool :=
  match Prim2SF f with
  | S754_zero _ => z =? 0
  | S754_finite s m e =>
      if 0 <=? e then z =? cond_Zopp s (Z.pos m) * 2 ^ e
      else z * 2 ^ (- e) =? cond_Zopp s (Z.pos m)
  | _ => false
  end.

Definition Z_of_bool (b : bool) : Z := if b then 1 else 0.

(** Python's [a == b]: numbers compare by value across [bool], [int]
    and [float]; strings, lists and dictionaries compare structurally
    (a dictionary irrespective of the insertion order); values of
    unrelated types are unequal. *)
Fixpoint py_eqb (a b : PyVal) {struct a} : bool :=
  match a, b with
  | VNone, VNone => true
  | VBool x, VBool y => Bool.eqb x y
  | VBool x, VInt y => Z_of_bool x =? y
  | VInt x, VBool y => x =? Z_of_bool y
  | VInt x, VInt y => x =? y
  | VBool x, VFloat y => float_eqb_Z y (Z_of_bool x)
  | VFloat x, VBool y => float_eqb_Z x (Z_of_bool y)
  | VInt x, VFloat y => float_eqb_Z y x
  | VFloat x, VInt y => float_eqb_Z x y
  | VFloat x, VFloat y => PrimFloat.eqb x y
  | VStr x, VStr y => String.eqb x y
  | VList xs, VList ys =>
      (fix go (xs ys : list PyVal) {struct xs} : bool :=
         match xs, ys with
         | [], [] => true
         | x :: xs', y :: ys' => py_eqb x y && go xs' ys'
         | _, _ => false
         end) xs ys
  | VDict d1, VDict d2 =>
      (length d1 =? length d2)%nat &&
      (fix all (d : list (PyVal * PyVal)) {struct d} : bool :=
         match d with
         | [] => true
         | (k, v) :: d' =>
             (fix find (d2 : list (PyVal * PyVal)) : bool :=
                match d2 with
                | [] => false
                | (k2, v2) :: d2' =>
                    if py_eqb k k2 then py_eqb v v2 else find d2'
                end) d2 && all d'
         end) d1
  | _, _ => false
  end.

(** Python's [a != b]. *)
Definition py_neb (a b : PyVal) : bool := negb (py_eqb a b).

(** Python's truth value, [bool(v)]. *)
Definition py_truthy (v : PyVal) : bool :=
  match v with
  | VNone => false
  | VBool b => b
  | VInt z => negb (z =? 0)
  | VFloat f => negb (PrimFloat.eqb f 0%float)
  | VStr s => negb (String.eqb s "")
  | VList l => match l with [] => false | _ => true end
  | VDict d => match d with [] => false | _ => true end
  end.

(** [d.get(k)] on an attribute dictionary: [None] when absent. *)
Definition dict_get (d : gmap string PyVal) (k : string) : PyVal :=
  match d !! k with
  | Some v => v
  | None => VNone
  end.

(** [float(z)] for a Python [int]: the nearest binary64. *)
Definition float_of_Z (z : Z) : float :=
  SF2Prim (binary_normalize prec emax z 0 false).

(** [int(f)] for a Python [float]: truncation toward zero;
    [OverflowError] on an infinity, [ValueError] on a NaN. *)
Definition int_of_float (f : float) : result Z :=
  match Prim2SF f with
  | S754_zero _ => Ok 0
  | S754_finite s m e =>
      Ok (if 0 <=? e then cond_Zopp s (Z.pos m * 2 ^ e)
          else cond_Zopp s (Z.pos m / 2 ^ (- e)))
  | S754_infinity _ => Raise OverflowError
  | S754_nan => Raise ValueError
  end.

(** The two-argument builtins [min(a, b)] and [max(a, b)] on floats:
    the first argument is kept unless the second compares strictly
    below (resp. above) it. *)
Definition py_min (a b : float) : float := if PrimFloat.ltb b a then b else a.
Definition py_max (a b : float) : float := if PrimFloat.ltb a b then b else a.

End Py.
Export Py.

(* ================================================================== *)
(** ** Rounding of binary64, spelled out *)
(* ================================================================== *)

(** The specification of the primitive operations rounds with
    [binary_round_aux]: a right shift to the format's exponent, the
    rounding to nearest even, and a second shift when the rounding
    carried.  The definitions below name the parts of that computation
    for the format at hand ([prec] = 53, [emax] = 1024). *)

(** The size of the right shift for mantissa [m] at exponent [e]. *)
Definition shift_amount (m e : Z) : Z := fexp prec emax (Zdigits2 m + e) - e.

(** Mantissa and exponent after that shift. *)
Definition shifted_m (m e : Z) : Z :=
  if 0 <? shift_amount m e then m / 2 ^ shift_amount m e else m.

Definition shifted_e (m e : Z) : Z :=
  if 0 <? shift_amount m e then e + shift_amount m e else e.

(** The float built from the final mantissa and exponent. *)
Definition finish (s : bool) (m e : Z) : spec_float :=
  match m with
  | Z0 => S754_zero s
  | Zpos p => if e <=? emax - prec then S754_finite s p e else S754_infinity s
  | Zneg _ => S754_nan
  end.

(** [r] is a zero, an infinity or a finite float of sign [s]. *)
Definition signed_as (s : bool) (r : spec_float) : Prop :=
  match r with
  | S754_zero s' | S754_infinity s' | S754_finite s' _ _ => s' = s
  | S754_nan => False
  end.

(** The value [m * 2^e] is at least [mT * 2^eT]. *)
Definition val_ge (mT eT m e : Z) : Prop :=
  mT * 2 ^ (eT - Z.min e eT) <= m * 2 ^ (e - Z.min e eT).

(** [r] is positive and at least the normal float of mantissa [mT] and
    exponent [eT], in the order of [SFcompare]. *)
Definition ge_T (mT eT : Z) (r : spec_float) : Prop :=
  match r with
  | S754_infinity false => True
  | S754_finite false m e => eT < e \/ (e = eT /\ mT <= Z.pos m)
  | _ => False
  end.

(** The mantissa of 100.0, which is [m100 * 2^-46]. *)
Definition m100 : positive := 7036874417766400.

(* ================================================================== *)
(** ** Constants of the integration ([const.py]) and of the host API *)
(* ================================================================== *)

(** [const.EntityPrefix]: the values of the string enumeration. *)
Module EntityPrefix.
Definition MEDIA_PLAYER : string := "media_player".
Definition REMOTE : string := "remote".
Definition SAMPLE_RATE : string := "sample_rate".
Definition AUDIO_SYNC : string := "audio_sync".
Definition VOLUME : string := "volume".
Definition MUTED : string := "muted".
End EntityPrefix.

(** The string enumerations of the host API ([ucapi]) that the sources
    import.  A member of a [str]-based enumeration is equal to, and
    hashes as, its value, so a member is modelled as that string. *)
Module MediaAttr.
Definition MUTED : string := "muted".
Definition SOUND_MODE : string := "sound_mode".
Definition SOUND_MODE_LIST : string := "sound_mode_list".
Definition SOURCE : string := "source".
Definition SOURCE_LIST : string := "source_list".
Definition STATE : string := "state".
Definition VOLUME : string := "volume".
End MediaAttr.

Module MediaStates.
Definition UNAVAILABLE : string := "UNAVAILABLE".
Definition UNKNOWN : string := "UNKNOWN".
Definition ON : string := "ON".
Definition OFF : string := "OFF".
Definition PLAYING : string := "PLAYING".
Definition PAUSED : string := "PAUSED".
Definition STANDBY : string := "STANDBY".
Definition BUFFERING : string := "BUFFERING".
End MediaStates.

Module RemoteAttr.
Definition STATE : string := "state".
End RemoteAttr.

Module RemoteStates.
Definition UNAVAILABLE : string := "UNAVAILABLE".
Definition UNKNOWN : string := "UNKNOWN".
Definition ON : string := "ON".
Definition OFF : string := "OFF".
End RemoteStates.

Module SensorAttr.
Definition STATE : string := "state".
Definition VALUE : string := "value".
Definition UNIT : string := "unit".
End SensorAttr.

Module SensorStates.
Definition UNAVAILABLE : string := "UNAVAILABLE".
Definition UNKNOWN : string := "UNKNOWN".
Definition ON : string := "ON".
End SensorStates.

(** [ucapi.StatusCodes], as far as the sources return them. *)
Inductive StatusCodes : Type :=
| OK
| BAD_REQUEST
| NOT_IMPLEMENTED
| SERVICE_UNAVAILABLE.

(** The connection state a [CONNECTION_STATE] event of the device
    library carries under the key ["state"]; [OtherStatus] stands for
    any other payload (another member, or an absent key). *)
Inductive ConnectionStatus : Type :=
| CONNECTED
| DISCONNECTED
| OtherStatus.

(* ================================================================== *)
(** ** The device session and state cache ([device.py]) *)
(* ================================================================== *)

Module Device.

Section WithIndex.

(** [K] is the type of the keys of the device's label tables (input
    index, sound-mode key).  A key is never Python's [None]; the absent
    result of a reverse lookup is the [None] of [option K]. *)
Context {K : Type}.

(** The builtins whose text-processing part is outside the repository:
    [parse_float s] is [float(s)] on a string ([None]: [ValueError]) and
    [float_str f] is the text an f-string gives for a float. *)
Variable parse_float : string -> option float.
Variable float_str : float -> string.

(** [class TrinnovDevice]: the fields [__init__] creates.  [_wait_task]
    is [None] or a task, of which only [done()] is observed. *)
Record TrinnovDevice : Type := mkDevice {
  device_id : string;
  mac : string;
  _connected : bool;
  _connecting : bool;
  _was_intentional_disconnect : bool;
  _wait_task : option bool;
  _attr_state : string;
  _attr_volume : PyVal;
  _attr_audio_sync : PyVal;
  _attr_srate : string;
  _attr_input_labels : list (K * string);
  _attr_sound_modes : list (K * string);
  _attr_muted : PyVal
}.

(** [TrinnovDevice.__init__]; the two tables start as the device
    library's own (here: the arguments).  The id is
    [device_id or "unknown"]: a falsy id, which for a string is the
    empty one, is replaced. *)
Definition new_device (mac_ device_id_ : string)
    (labels sound_modes : list (K * string)) : TrinnovDevice :=
  {| device_id := if String.eqb device_id_ "" then "unknown" else device_id_;
     mac := mac_;
     _connected := false;
     _connecting := false;
     _was_intentional_disconnect := false;
     _wait_task := None;
     _attr_state := MediaStates.OFF;
     _attr_volume := VInt 0;
     _attr_audio_sync := VBool false;
     _attr_srate := "unknown";
     _attr_input_labels := labels;
     _attr_sound_modes := sound_modes;
     _attr_muted := VBool false |}.

(** Assignments to single fields. *)
Definition set_connected (b : bool) (d : TrinnovDevice) : TrinnovDevice :=
  mkDevice (device_id d) (mac d) b (_connecting d)
    (_was_intentional_disconnect d) (_wait_task d) (_attr_state d)
    (_attr_volume d) (_attr_audio_sync d) (_attr_srate d)
    (_attr_input_labels d) (_attr_sound_modes d) (_attr_muted d).

Definition set_was_intentional_disconnect (b : bool) (d : TrinnovDevice)
    : TrinnovDevice :=
  mkDevice (device_id d) (mac d) (_connected d) (_connecting d)
    b (_wait_task d) (_attr_state d)
    (_attr_volume d) (_attr_audio_sync d) (_attr_srate d)
    (_attr_input_labels d) (_attr_sound_modes d) (_attr_muted d).

Definition set_wait_task (t : option bool) (d : TrinnovDevice)
    : TrinnovDevice :=
  mkDevice (device_id d) (mac d) (_connected d) (_connecting d)
    (_was_intentional_disconnect d) t (_attr_state d)
    (_attr_volume d) (_attr_audio_sync d) (_attr_srate d)
    (_attr_input_labels d) (_attr_sound_modes d) (_attr_muted d).

Definition set_attr_state (s : string) (d : TrinnovDevice) : TrinnovDevice :=
  mkDevice (device_id d) (mac d) (_connected d) (_connecting d)
    (_was_intentional_disconnect d) (_wait_task d) s
    (_attr_volume d) (_attr_audio_sync d) (_attr_srate d)
    (_attr_input_labels d) (_attr_sound_modes d) (_attr_muted d).

Definition set_attr_volume (v : PyVal) (d : TrinnovDevice) : TrinnovDevice :=
  mkDevice (device_id d) (mac d) (_connected d) (_connecting d)
    (_was_intentional_disconnect d) (_wait_task d) (_attr_state d)
    v (_attr_audio_sync d) (_attr_srate d)
    (_attr_input_labels d) (_attr_sound_modes d) (_attr_muted d).

Definition set_attr_audio_sync (v : PyVal) (d : TrinnovDevice)
    : TrinnovDevice :=
  mkDevice (device_id d) (mac d) (_connected d) (_connecting d)
    (_was_intentional_disconnect d) (_wait_task d) (_attr_state d)
    (_attr_volume d) v (_attr_srate d)
    (_attr_input_labels d) (_attr_sound_modes d) (_attr_muted d).

Definition set_attr_srate (s : string) (d : TrinnovDevice) : TrinnovDevice :=
  mkDevice (device_id d) (mac d) (_connected d) (_connecting d)
    (_was_intentional_disconnect d) (_wait_task d) (_attr_state d)
    (_attr_volume d) (_attr_audio_sync d) s
    (_attr_input_labels d) (_attr_sound_modes d) (_attr_muted d).

Definition set_attr_input_labels (l : list (K * string)) (d : TrinnovDevice)
    : TrinnovDevice :=
  mkDevice (device_id d) (mac d) (_connected d) (_connecting d)
    (_was_intentional_disconnect d) (_wait_task d) (_attr_state d)
    (_attr_volume d) (_attr_audio_sync d) (_attr_srate d)
    l (_attr_sound_modes d) (_attr_muted d).

Definition set_attr_muted (v : PyVal) (d : TrinnovDevice) : TrinnovDevice :=
  mkDevice (device_id d) (mac d) (_connected d) (_connecting d)
    (_was_intentional_disconnect d) (_wait_task d) (_attr_state d)
    (_attr_volume d) (_attr_audio_sync d) (_attr_srate d)
    (_attr_input_labels d) (_attr_sound_modes d) v.

(** What a coroutine of the device does to the outside, in order. *)
Inductive Effect : Type :=
| EmitConnected (id : string)
    (* events.emit(Events.CONNECTED.name, device_id) *)
| EmitDisconnected (id : string)
    (* events.emit(Events.DISCONNECTED.name, device_id) *)
| EmitUpdate (entity_id attr : string) (value : PyVal)
    (* events.emit(Events.UPDATE.name, entity_id, {attr: value}) *)
| Sleep (seconds : Z)
    (* await asyncio.sleep(seconds) *)
| CreateTaskConnect
    (* asyncio.create_task(self.connect()) *)
| CancelWaitTask
    (* self._wait_task.cancel(); await self._wait_task *)
| DeviceClose
    (* await self._device.close() *)
| WakeOnLan (mac_ : string)
    (* await PowerControl.power_on(self.mac) *)
| ExecPowerOff
    (* the executor's method was called: power_off(), mute(mode),
       upmixer(key), select_source(index), volume_down(), volume_up(),
       volume(db) *)
| ExecMute (mode : Z)
| ExecUpmixer (key : K)
| ExecSelectSource (index : K)
| ExecVolumeDown
| ExecVolumeUp
| ExecVolume (db : float).

(** The outcome of running a coroutine of the device. *)
Record Step : Type := mkStep {
  st_device : TrinnovDevice;
  st_effects : list Effect;
  st_raised : option Exn
}.

Definition ret (d : TrinnovDevice) (effs : list Effect) : Step :=
  mkStep d effs None.

(** The left operand of [raw_db - min_db], a subtraction whose right
    operand is a float: a float is taken as it is, an [int] or [bool]
    is converted ([OverflowError] when the [int] is too large), and
    any other value has no subtraction with a float. *)
Definition float_operand (v : PyVal) : result float :=
  match v with
  | VFloat f => Ok f
  | VInt z =>
      let f := float_of_Z z in
      if is_infinity f then Raise OverflowError else Ok f
  | VBool b => Ok (float_of_Z (Z_of_bool b))
  | _ => Raise TypeError
  end.

(** [volume_percent]: the cached dB value on the scale 0..100.  The
    [int] literal [100] multiplies a float, hence is the float [100.0]. *)
Definition volume_percent (d : TrinnovDevice) : result Z :=
  let min_db := (-100)%float in
  let max_db := 0%float in
  match float_operand (_attr_volume d) with
  | Raise e => Raise e
  | Ok raw_db =>
      let percent := ((raw_db - min_db) / (max_db - min_db) * 100)%float in
      int_of_float (py_max 0%float (py_min 100%float percent))
  end.

(** [percent_to_db].  [percent / 100] is the true division of two
    [int]s, both below 2^53 after the clamp, hence the quotient of the
    two floats. *)
Definition percent_to_db (percent : Z) : float :=
  let min_db := (-100)%float in
  let max_db := 0%float in
  let percent := Z.max 0 (Z.min 100 percent) in
  let db :=
    ((float_of_Z percent / float_of_Z 100) * (max_db - min_db) + min_db)%float
  in db.

(** [_emit_update]: one [UPDATE] event for the entity [prefix.device_id]. *)
Definition _emit_update (d : TrinnovDevice) (prefix attr : string)
    (value : PyVal) : Effect :=
  EmitUpdate (prefix ++ "." ++ device_id d) attr value.

(** [disconnect], on the path where its two awaits return: what it has
    written and called when it is through.  The awaits and the ways
    they raise are in [Readiness.teardown]. *)
Definition disconnect (d : TrinnovDevice) : Step :=
  if _connected d || bool_decide (is_Some (_wait_task d)) then
    let '(d1, cancelled) :=
      match _wait_task d with
      | Some false => (set_wait_task None d, [CancelWaitTask])
      | _ => (d, [])
      end in
    ret d1 (cancelled ++ [DeviceClose])
  else ret d [].

(** [_handle_connection_state], on the value of the event's ["state"]. *)
Definition _handle_connection_state (state : ConnectionStatus)
    (d : TrinnovDevice) : Step :=
  match state with
  | DISCONNECTED =>
      let d1 := set_attr_state MediaStates.OFF (set_connected false d) in
      let updates :=
        [ (EntityPrefix.MEDIA_PLAYER, (MediaAttr.STATE, MediaStates.OFF));
          (EntityPrefix.REMOTE, (RemoteAttr.STATE, RemoteStates.OFF));
          (EntityPrefix.SAMPLE_RATE, (SensorAttr.STATE, SensorStates.UNAVAILABLE));
          (EntityPrefix.AUDIO_SYNC, (SensorAttr.STATE, SensorStates.UNAVAILABLE));
          (EntityPrefix.VOLUME, (SensorAttr.STATE, SensorStates.UNAVAILABLE));
          (EntityPrefix.MUTED, (SensorAttr.STATE, SensorStates.UNAVAILABLE)) ] in
      let emitted :=
        map (fun u => _emit_update d1 (fst u) (fst (snd u)) (VStr (snd (snd u))))
            updates in
      ret d1
        (EmitDisconnected (device_id d1) :: emitted ++
         (if _was_intentional_disconnect d1 then []
          else [Sleep 20; CreateTaskConnect]))
  | CONNECTED =>
      let d1 :=
        set_was_intentional_disconnect false
          (set_attr_state MediaStates.ON (set_connected true d)) in
      let updates :=
        [ (EntityPrefix.MEDIA_PLAYER, (MediaAttr.STATE, MediaStates.ON));
          (EntityPrefix.REMOTE, (RemoteAttr.STATE, RemoteStates.ON));
          (EntityPrefix.SAMPLE_RATE, (SensorAttr.STATE, SensorStates.ON));
          (EntityPrefix.AUDIO_SYNC, (SensorAttr.STATE, SensorStates.ON));
          (EntityPrefix.VOLUME, (SensorAttr.STATE, SensorStates.ON)) ] in
      let emitted :=
        map (fun u => _emit_update d1 (fst u) (fst (snd u)) (VStr (snd (snd u))))
            updates in
      ret d1 (EmitConnected (device_id d1) :: emitted)
  | OtherStatus => ret d []
  end.

(** *** The telemetry handlers *)

(** [float(v)], the builtin. *)
Definition py_float (v : PyVal) : result float :=
  match v with
  | VFloat f => Ok f
  | VInt z =>
      let f := float_of_Z z in
      if is_infinity f then Raise OverflowError else Ok f
  | VBool b => Ok (float_of_Z (Z_of_bool b))
  | VStr s =>
      match parse_float s with
      | Some f => Ok f
      | None => Raise ValueError
      end
  | _ => Raise TypeError
  end.

Definition _handle_audio_sync (audio_sync : PyVal) (d : TrinnovDevice) : Step :=
  if py_neb audio_sync (_attr_audio_sync d) then
    let d1 := set_attr_audio_sync audio_sync d in
    ret d1 [_emit_update d1 EntityPrefix.AUDIO_SYNC SensorAttr.VALUE audio_sync]
  else ret d [].

(** [labels] is the event's value when it is a dictionary, and [None]
    for any other value (such as Python's [None] of an event without a
    value), on which [labels.values()] raises [AttributeError] before
    anything is stored. *)
Definition _handle_input_labels (labels : option (list (K * string)))
    (d : TrinnovDevice) : Step :=
  match labels with
  | None => mkStep d [] (Some AttributeError)
  | Some labels =>
      let values := VList (map (fun kv => VStr (snd kv)) labels) in
      let d1 := set_attr_input_labels labels d in
      ret d1 [_emit_update d1 EntityPrefix.MEDIA_PLAYER MediaAttr.SOURCE_LIST
                values]
  end.

Definition _handle_sound_mode_list (sound_modes : PyVal)
    (d : TrinnovDevice) : Step :=
  ret d [_emit_update d EntityPrefix.MEDIA_PLAYER MediaAttr.SOUND_MODE_LIST
            sound_modes].

Definition _handle_source (source : PyVal) (d : TrinnovDevice) : Step :=
  ret d [_emit_update d EntityPrefix.MEDIA_PLAYER MediaAttr.SOURCE source].

Definition _handle_srate (value : PyVal) (d : TrinnovDevice) : Step :=
  match py_float value with
  | Raise e => mkStep d [] (Some e)
  | Ok f =>
      let srate := float_str (f / 1000)%float in
      if negb (String.eqb srate (_attr_srate d)) then
        let d1 := set_attr_srate srate d in
        ret d1 [_emit_update d1 EntityPrefix.SAMPLE_RATE SensorAttr.VALUE
                   (VStr srate)]
      else ret d []
  end.

Definition _handle_upmixer (upmixer : PyVal) (d : TrinnovDevice) : Step :=
  ret d [_emit_update d EntityPrefix.MEDIA_PLAYER MediaAttr.SOUND_MODE upmixer].

(** The value is cached and announced to the sensor before
    [volume_percent] is evaluated: a value that is no number is stored
    and announced once, and then the handler raises. *)
Definition _handle_volume (volume : PyVal) (d : TrinnovDevice) : Step :=
  if py_neb volume (_attr_volume d) then
    let d1 := set_attr_volume volume d in
    let first :=
      _emit_update d1 EntityPrefix.VOLUME SensorAttr.VALUE volume in
    match volume_percent d1 with
    | Ok p =>
        ret d1 [first;
                 _emit_update d1 EntityPrefix.MEDIA_PLAYER MediaAttr.VOLUME (VInt p)]
    | Raise e => mkStep d1 [first] (Some e)
    end
  else ret d [].

Definition _handle_mute (muted : PyVal) (d : TrinnovDevice) : Step :=
  if py_neb muted (_attr_muted d) then
    let d1 := set_attr_muted muted d in
    ret d1 [_emit_update d1 EntityPrefix.MUTED SensorAttr.VALUE muted;
             _emit_update d1 EntityPrefix.MEDIA_PLAYER MediaAttr.MUTED
               (_attr_muted d1)]
  else ret d [].

(** The telemetry signals [_subscribe_device_state_events] registers a
    handler for, each with the event's value, which the code passes on
    as it comes. *)
Inductive Telemetry : Type :=
| audiosync_status (value : PyVal)
| input_connector (value : PyVal)
| input_labels (value : option (list (K * string)))
| sound_mode_list (value : PyVal)
| srate (value : PyVal)
| upmixer (value : PyVal)
| volume (value : PyVal)
| mute (value : PyVal).

(** [_handle_state_change]: the handler registered under the signal's
    name, applied to the event's ["value"]. *)
Definition _handle_state_change (sig : Telemetry) (d : TrinnovDevice) : Step :=
  match sig with
  | audiosync_status v => _handle_audio_sync v d
  | input_connector v => _handle_source v d
  | input_labels v => _handle_input_labels v d
  | sound_mode_list v => _handle_sound_mode_list v d
  | srate v => _handle_srate v d
  | upmixer v => _handle_upmixer v d
  | volume v => _handle_volume v d
  | mute v => _handle_mute v d
  end.

(** *** Command execution *)

(** A capability of the executor of the device library: the names of
    its parameters (plain positional-or-keyword ones, none with a
    default) and what a call with the bound arguments does. *)
Record Capability : Type := mkCapability {
  cap_params : list string;
  cap_invoke : list PyVal -> result unit
}.

(** Python's argument binding for such a callable, the argument list
    unpacked positionally. *)
Definition bind_positional (c : Capability) (args : list PyVal)
    : result (list PyVal) :=
  if (length args =? length (cap_params c))%nat then Ok args
  else Raise TypeError.

Definition kw_is (name : string) (kv : PyVal * PyVal) : bool :=
  match fst kv with
  | VStr s => String.eqb s name
  | _ => false
  end.

(** The dictionary unpacked by name: every key names a parameter and
    every parameter is given. *)
Definition bind_keywords (c : Capability) (kw : list (PyVal * PyVal))
    : result (list PyVal) :=
  if forallb (fun kv => existsb (fun p => kw_is p kv) (cap_params c)) kw
     && forallb (fun p => existsb (kw_is p) kw) (cap_params c)
  then Ok (map (fun p => match find (kw_is p) kw with
                         | Some kv => snd kv
                         | None => VNone
                         end) (cap_params c))
  else Raise TypeError.

(** The three call shapes of [_execute_command]: a list or tuple is
    unpacked positionally, a dictionary by name, anything else is the
    single argument. *)
Definition bind_arguments (c : Capability) (parms : PyVal)
    : result (list PyVal) :=
  match parms with
  | VList l => bind_positional c l
  | VDict kw => bind_keywords c kw
  | v => bind_positional c [v]
  end.

(** The call itself: a binding failure raises before the body runs. *)
Definition invoke (c : Capability) (bound : result (list PyVal)) : result unit :=
  match bound with
  | Ok args => cap_invoke c args
  | Raise e => Raise e
  end.

(** The [try] block of [_execute_command]: a capability without
    parameters is called bare, any other with [parms] bound. *)
Definition call_method (method : Capability) (parms : PyVal) : result unit :=
  if (length (cap_params method) =? 0)%nat then cap_invoke method []
  else invoke method (bind_arguments method parms).

(** [_execute_command]; [executor command] is
    [getattr(self._device.executor, command, None)] when callable. *)
Definition _execute_command (executor : string -> option Capability)
    (command : string) (parms : PyVal) : result StatusCodes :=
  match executor command with
  | None => Ok NOT_IMPLEMENTED
  | Some method =>
      match call_method method parms with
      | Ok _ => Ok OK
      | Raise ValueError => Ok BAD_REQUEST
      | Raise e => Raise e
      end
  end.

(** [send_command]. *)
Definition send_command (executor : string -> option Capability)
    (d : TrinnovDevice) (command : string) (parms : PyVal)
    : result StatusCodes :=
  if negb (_connected d) then Ok SERVICE_UNAVAILABLE
  else _execute_command executor command parms.

(** A direct call [await self._device.executor.name(args)], as
    [power_off] and the entities make it, with no handler around it:
    an executor without a method of that name raises [AttributeError]
    and nothing is called; otherwise the method is called with the
    arguments in their positions, which is recorded as [label], and
    what the call raises leaves the caller.  [OK] is what the callers
    go on to return when the call returns. *)
Definition executor_request (executor : string -> option Capability)
    (name : string) (args : list PyVal) (label : Effect)
    : result StatusCodes * list Effect :=
  match executor name with
  | None => (Raise AttributeError, [])
  | Some method =>
      (match invoke method (bind_positional method args) with
       | Ok _ => Ok OK
       | Raise e => Raise e
       end, [label])
  end.

(** [power_on] and [power_off]: status and effects.  The wake-up
    packet of [power_on] is sent by [PowerControl.power_on] of the
    device library, outside the executor; [power_control] is that
    call on a MAC address, awaited with no handler around it. *)
Definition power_on (power_control : string -> result unit)
    (d : TrinnovDevice) : result StatusCodes * list Effect :=
  if String.eqb (_attr_state d) MediaStates.OFF then
    (match power_control (mac d) with
     | Ok _ => Ok OK
     | Raise e => Raise e
     end, [WakeOnLan (mac d)])
  else (Ok OK, []).

Definition power_off (executor : string -> option Capability)
    (d : TrinnovDevice) : result StatusCodes * list Effect :=
  if String.eqb (_attr_state d) MediaStates.ON then
    executor_request executor "power_off" [] ExecPowerOff
  else (Ok OK, []).

End WithIndex.

Arguments TrinnovDevice : clear implicits.
Arguments Effect : clear implicits.
Arguments Step : clear implicits.
Arguments Telemetry : clear implicits.

(** [registry.disconnect_all], the body of its loop for one device: the
    flag is raised, then the device is disconnected. *)
Definition disconnect_all_device {K : Type} (d : TrinnovDevice K) : Step K :=
  disconnect (set_was_intentional_disconnect true d).

End Device.

(** The percentage read back after [percent_to_db p] was cached, and
    the table of what the round trip gives on the scale 0..100. *)
Definition read_back (p : Z) : result Z :=
  Device.volume_percent
    (Device.set_attr_volume (VFloat (Device.percent_to_db p))
       (Device.new_device (K := unit) "" "" [] [])).

Definition expected_read_back (p : Z) : Z :=
  if existsb (Z.eqb p) [29; 57; 58] then p - 1 else p.

Definition read_back_agrees (n : nat) : bool :=
  match read_back (Z.of_nat n) with
  | Ok q => q =? expected_read_back (Z.of_nat n)
  | Raise _ => false
  end.

(* ================================================================== *)
(** ** The device registry ([registry.py]) *)
(* ================================================================== *)

Module Registry.

Section WithDevice.

(** The registry [_configured_trinnovs] maps a device id to the device
    object; [D] is the type of these objects. *)
Context {D : Type}.

Definition get_device (reg : gmap string D) (device_id : string) : option D :=
  reg !! device_id.

Definition register_device (device_id : string) (device : D)
    (reg : gmap string D) : gmap string D :=
  match reg !! device_id with
  | None => <[device_id := device]> reg
  | Some _ => reg
  end.

Definition unregister_device (device_id : string) (reg : gmap string D)
    : gmap string D :=
  delete device_id reg.

Definition all_devices (reg : gmap string D) : gmap string D := reg.

Definition clear_devices (reg : gmap string D) : gmap string D := ∅.

End WithDevice.

End Registry.

(* ================================================================== *)
(** ** Entity adapters *)
(* ================================================================== *)

(** The loop the media-player and the sensor adapter share: among
    [keys], in order, a key present in both dictionaries whose value in
    [update] differs from the one in the entity's attributes is copied
    to the result. *)
Definition changed_among (keys : list string)
    (self_attributes update : gmap string PyVal) : gmap string PyVal :=
  foldl (fun attributes key =>
           match update !! key, self_attributes !! key with
           | Some u, Some a =>
               if py_neb u a then <[key := u]> attributes else attributes
           | _, _ => attributes
           end) ∅ keys.

(** What one round of that loop contributes for [key]. *)
Definition changed_value (self_attributes update : gmap string PyVal)
    (key : string) : option PyVal :=
  match update !! key, self_attributes !! key with
  | Some u, Some a => if py_neb u a then Some u else None
  | _, _ => None
  end.

(** [list(table.values())] for a label table. *)
Definition table_values {K : Type} (table : list (K * string)) : PyVal :=
  VList (map (fun kv => VStr (snd kv)) table).

(** [next((k for k, v in table.items() if v == label), None)]. *)
Definition reverse_lookup {K : Type} (table : list (K * string))
    (label : PyVal) : option K :=
  match find (fun kv => py_eqb (VStr (snd kv)) label) table with
  | Some kv => Some (fst kv)
  | None => None
  end.

Module MediaPlayer.

(** [ucapi.media_player.Commands], the members [command] has a case
    for.  Every other member reaches [case _] and any other string
    raises [ValueError] in [Commands(cmd_id)]; both end in the same
    [BAD_REQUEST], so both are [None] of [Commands_of_value]. *)
Module Commands.
Inductive t : Type :=
| ON | OFF | PLAY_PAUSE | NEXT | PREVIOUS
| MUTE_TOGGLE | MUTE | UNMUTE
| SELECT_SOUND_MODE | SELECT_SOURCE
| VOLUME_DOWN | VOLUME_UP | VOLUME.
End Commands.

Definition Commands_of_value (cmd_id : string) : option Commands.t :=
  if String.eqb cmd_id "on" then Some Commands.ON
  else if String.eqb cmd_id "off" then Some Commands.OFF
  else if String.eqb cmd_id "play_pause" then Some Commands.PLAY_PAUSE
  else if String.eqb cmd_id "next" then Some Commands.NEXT
  else if String.eqb cmd_id "previous" then Some Commands.PREVIOUS
  else if String.eqb cmd_id "mute_toggle" then Some Commands.MUTE_TOGGLE
  else if String.eqb cmd_id "mute" then Some Commands.MUTE
  else if String.eqb cmd_id "unmute" then Some Commands.UNMUTE
  else if String.eqb cmd_id "select_sound_mode" then Some Commands.SELECT_SOUND_MODE
  else if String.eqb cmd_id "select_source" then Some Commands.SELECT_SOURCE
  else if String.eqb cmd_id "volume_down" then Some Commands.VOLUME_DOWN
  else if String.eqb cmd_id "volume_up" then Some Commands.VOLUME_UP
  else if String.eqb cmd_id "volume" then Some Commands.VOLUME
  else None.

(** [MediaPlayerDef.attributes], the attributes the entity starts with. *)
Definition initial_attributes : gmap string PyVal :=
  <[MediaAttr.MUTED := VBool false]>
  (<[MediaAttr.SOUND_MODE := VStr ""]>
  (<[MediaAttr.SOUND_MODE_LIST := VList []]>
  (<[MediaAttr.SOURCE := VStr ""]>
  (<[MediaAttr.SOURCE_LIST := VList []]>
  (<[MediaAttr.STATE := VStr MediaStates.OFF]>
  (<[MediaAttr.VOLUME := VInt (-20)]> ∅)))))).

Section WithIndex.

Context {K : Type}.

(** [PowerControl.power_on] of the device library, on a MAC address. *)
Variable power_control : string -> result unit.

(** The truth value of a table key, and [int(s)] on a string
    ([None]: [ValueError]). *)
Variable key_truthy : K -> bool.
Variable parse_int : string -> option Z.

(** A table key as the value passed to the executor, and the
    executor. *)
Variable key_value : K -> PyVal.
Variable executor : string -> option Device.Capability.

(** [int(v)], the builtin. *)
Definition py_int (v : PyVal) : result Z :=
  match v with
  | VInt z => Ok z
  | VBool b => Ok (Z_of_bool b)
  | VFloat f => int_of_float f
  | VStr s =>
      match parse_int s with
      | Some z => Ok z
      | None => Raise ValueError
      end
  | _ => Raise TypeError
  end.

(** The truth value of [params : dict | None]. *)
Definition params_truthy (params : option (gmap string PyVal)) : bool :=
  match params with
  | Some m => negb (bool_decide (m = ∅))
  | None => false
  end.

(** [params.get(key) if params else None]. *)
Definition params_get (params : option (gmap string PyVal)) (key : string)
    : PyVal :=
  match params with
  | Some m => if params_truthy params then dict_get m key else VNone
  | None => VNone
  end.

Definition table_truthy (table : list (K * string)) : bool :=
  match table with
  | [] => false
  | _ => true
  end.

(** [TrinnovMediaPlayer.command]: the status returned (or the exception
    raised) and the effects on the device, in order.  The calls of the
    executor stand in no [try]: what they raise leaves [command]. *)
Definition command (d : Device.TrinnovDevice K) (cmd_id : string)
    (params : option (gmap string PyVal))
    : result StatusCodes * list (Device.Effect K) :=
  match Commands_of_value cmd_id with
  | None => (Ok BAD_REQUEST, [])
  | Some cmd =>
      match cmd with
      | Commands.ON =>
          Device.power_on power_control d
      | Commands.OFF => Device.power_off executor d
      | Commands.PLAY_PAUSE => (Ok OK, [])
      | Commands.NEXT => (Ok OK, [])
      | Commands.PREVIOUS => (Ok OK, [])
      | Commands.MUTE_TOGGLE =>
          Device.executor_request executor "mute" [VInt 2] (Device.ExecMute 2)
      | Commands.MUTE =>
          Device.executor_request executor "mute" [VInt 1] (Device.ExecMute 1)
      | Commands.UNMUTE =>
          Device.executor_request executor "mute" [VInt 0] (Device.ExecMute 0)
      | Commands.SELECT_SOUND_MODE =>
          let sound_modes := Device._attr_sound_modes d in
          let upmixer := params_get params "mode" in
          if negb (table_truthy sound_modes) || negb (py_truthy upmixer) then
            (Ok BAD_REQUEST, [])
          else
            match reverse_lookup sound_modes upmixer with
            | None => (Ok BAD_REQUEST, [])
            | Some mode_key =>
                if negb (key_truthy mode_key) then (Ok BAD_REQUEST, [])
                else
                  Device.executor_request executor "upmixer"
                    [key_value mode_key] (Device.ExecUpmixer mode_key)
            end
      | Commands.SELECT_SOURCE =>
          let labels := Device._attr_input_labels d in
          let label_name := params_get params "source" in
          if negb (table_truthy labels) || negb (py_truthy label_name) then
            (Ok BAD_REQUEST, [])
          else
            match reverse_lookup labels label_name with
            | None => (Ok BAD_REQUEST, [])
            | Some index =>
                Device.executor_request executor "select_source"
                  [key_value index] (Device.ExecSelectSource index)
            end
      | Commands.VOLUME_DOWN =>
          Device.executor_request executor "volume_down" []
            Device.ExecVolumeDown
      | Commands.VOLUME_UP =>
          Device.executor_request executor "volume_up" [] Device.ExecVolumeUp
      | Commands.VOLUME =>
          if params_truthy params then
            match py_int (params_get params "volume") with
            | Raise e => (Raise e, [])
            | Ok volume =>
                let db := Device.percent_to_db volume in
                Device.executor_request executor "volume" [VFloat db]
                  (Device.ExecVolume db)
            end
          else (Raise UnboundLocalError, [])
      end
  end.

(** [TrinnovMediaPlayer.filter_changed_attributes]; [self_attributes]
    is the entity's [attributes], the last set pushed to the host. *)
Definition filter_changed_attributes (d : Device.TrinnovDevice K)
    (self_attributes update : gmap string PyVal) : gmap string PyVal :=
  let update :=
    <[MediaAttr.SOUND_MODE_LIST := table_values (Device._attr_sound_modes d)]>
      update in
  let attributes :=
    changed_among
      [MediaAttr.MUTED; MediaAttr.SOUND_MODE; MediaAttr.SOUND_MODE_LIST;
       MediaAttr.SOURCE; MediaAttr.SOURCE_LIST; MediaAttr.STATE;
       MediaAttr.VOLUME]
      self_attributes update in
  if py_eqb (dict_get attributes MediaAttr.STATE) (VStr MediaStates.OFF) then
    <[MediaAttr.SOURCE_LIST := VList []]>
      (<[MediaAttr.SOURCE := VStr ""]> attributes)
  else attributes.

End WithIndex.

End MediaPlayer.

Module Remote.

(** The values [ucapi.media_player.States] has a member for;
    [MediaStates(v)] returns the member of value [v] and raises
    [ValueError] for any other [v]. *)
Definition MediaStates_values : list string :=
  [MediaStates.UNAVAILABLE; MediaStates.UNKNOWN; MediaStates.ON;
   MediaStates.OFF; MediaStates.PLAYING; MediaStates.PAUSED;
   MediaStates.STANDBY; MediaStates.BUFFERING].

Definition MediaStates_of_value (v : PyVal) : result string :=
  match v with
  | VStr s =>
      if existsb (String.eqb s) MediaStates_values then Ok s
      else Raise ValueError
  | _ => Raise ValueError
  end.

Definition REMOTE_STATE_MAPPING : list (string * string) :=
  [ (MediaStates.OFF, RemoteStates.OFF);
    (MediaStates.ON, RemoteStates.ON);
    (MediaStates.STANDBY, RemoteStates.OFF);
    (MediaStates.UNAVAILABLE, RemoteStates.UNAVAILABLE);
    (MediaStates.UNKNOWN, RemoteStates.UNKNOWN) ].

(** [REMOTE_STATE_MAPPING.get(key, default)]. *)
Definition mapping_get (key default : string) : string :=
  match find (fun kv => String.eqb (fst kv) key) REMOTE_STATE_MAPPING with
  | Some kv => snd kv
  | None => default
  end.

(** The remote state [filter_changed_attributes] computes from the
    update's media-player state: the [try]/[except ValueError] around
    [MediaStates(media_state)], then the table lookup. *)
Definition new_state_of (media_state : PyVal) : result string :=
  let media_state_enum :=
    match MediaStates_of_value media_state with
    | Ok m => Ok m
    | Raise ValueError => Ok MediaStates.UNKNOWN
    | Raise e => Raise e
    end in
  match media_state_enum with
  | Ok m => Ok (mapping_get m RemoteStates.UNKNOWN)
  | Raise e => Raise e
  end.

(** [TrinnovRemote.filter_changed_attributes]. *)
Definition filter_changed_attributes (self_attributes update : gmap string PyVal)
    : result (gmap string PyVal) :=
  match update !! MediaAttr.STATE with
  | Some media_state =>
      match new_state_of media_state with
      | Raise e => Raise e
      | Ok new_state =>
          let current_state := dict_get self_attributes RemoteAttr.STATE in
          if py_neb current_state (VStr new_state) then
            Ok (<[RemoteAttr.STATE := VStr new_state]> ∅)
          else Ok ∅
      end
  | None => Ok ∅
  end.

End Remote.

Module Sensor.

(** The attributes [TrinnovSensor.__init__] creates. *)
Definition initial_attributes : gmap string PyVal :=
  <[SensorAttr.STATE := VStr SensorStates.UNKNOWN]>
  (<[SensorAttr.VALUE := VStr "unknown"]>
  (<[SensorAttr.UNIT := VStr "unknown"]> ∅)).

(** [TrinnovSensor.filter_changed_attributes]. *)
Definition filter_changed_attributes (self_attributes update : gmap string PyVal)
    : gmap string PyVal :=
  let attributes :=
    changed_among [SensorAttr.STATE; SensorAttr.VALUE] self_attributes update in
  match attributes !! SensorAttr.STATE with
  | Some state =>
      if py_eqb state (VStr SensorStates.UNKNOWN) then
        <[SensorAttr.VALUE := VStr "unknown"]> attributes
      else attributes
  | None => attributes
  end.

End Sensor.

(* ================================================================== *)
(** ** Text helpers: the [str] methods the sources call *)
(* ================================================================== *)

Module Str.

(** [s.replace(old, new)] for one-character [old] and [new]. *)
Fixpoint replace_char (old new : ascii) (s : string) : string :=
  match s with
  | EmptyString => EmptyString
  | String c s' =>
      String (if Ascii.eqb c old then new else c) (replace_char old new s')
  end.

(** [s.split(sep)] for a one-character separator. *)
Fixpoint split_char (sep : ascii) (s : string) : list string :=
  match s with
  | EmptyString => [EmptyString]
  | String c s' =>
      if Ascii.eqb c sep then EmptyString :: split_char sep s'
      else match split_char sep s' with
           | piece :: pieces => String c piece :: pieces
           | [] => [String c EmptyString]
           end
  end.

(** [s.split(sep, 1)]: cut at the first separator only. *)
Fixpoint split_once (sep : ascii) (s : string) : list string :=
  match s with
  | EmptyString => [EmptyString]
  | String c s' =>
      if Ascii.eqb c sep then [EmptyString; s']
      else match split_once sep s' with
           | piece :: pieces => String c piece :: pieces
           | [] => [String c EmptyString]
           end
  end.

(** [s.startswith(p)]. *)
Definition startswith (p s : string) : bool := String.prefix p s.

(** Case of the ASCII letters; used on the enumeration names only, which
    are ASCII. *)
Definition lower_char (c : ascii) : ascii :=
  let n := nat_of_ascii c in
  if ((65 <=? n) && (n <=? 90))%nat then ascii_of_nat (n + 32) else c.

Definition upper_char (c : ascii) : ascii :=
  let n := nat_of_ascii c in
  if ((97 <=? n) && (n <=? 122))%nat then ascii_of_nat (n - 32) else c.

Fixpoint lower_ascii (s : string) : string :=
  match s with
  | EmptyString => EmptyString
  | String c s' => String (lower_char c) (lower_ascii s')
  end.

(** [s.capitalize()] on ASCII text. *)
Definition capitalize_ascii (s : string) : string :=
  match s with
  | EmptyString => EmptyString
  | String c s' => String (upper_char c) (lower_ascii s')
  end.

Fixpoint drop_spaces (s : string) : string :=
  match s with
  | String c s' => if Ascii.eqb c " " then drop_spaces s' else s
  | EmptyString => EmptyString
  end.

Fixpoint take_word (s : string) : string :=
  match s with
  | String c s' => if Ascii.eqb c " " then EmptyString else String c (take_word s')
  | EmptyString => EmptyString
  end.

Fixpoint drop_word (s : string) : string :=
  match s with
  | String c s' => if Ascii.eqb c " " then s else drop_word s'
  | EmptyString => EmptyString
  end.

(** [s.split(maxsplit=1)] on text whose only whitespace is the space:
    the first word, and what follows it without its leading spaces. *)
Definition split_ws_once (s : string) : list string :=
  let s1 := drop_spaces s in
  if String.eqb s1 "" then []
  else
    let rest := drop_spaces (drop_word s1) in
    if String.eqb rest "" then [take_word s1] else [take_word s1; rest].

End Str.

(* ================================================================== *)
(** ** The simple commands ([const.py]) and their parsing ([utils.py]) *)
(* ================================================================== *)

Module SimpleCommands.

(** [class SimpleCommands(str, Enum)]: name and value of each member,
    in the order of the class body. *)
Definition members : list (string * string) :=
  [ ("BACK", "back");
    ("BYPASS_OFF", "bypass_off");
    ("BYPASS_ON", "bypass_on");
    ("BYPASS_TOGGLE", "bypass_toggle");
    ("DIM_OFF", "dim_off");
    ("DIM_ON", "dim_on");
    ("DIM_TOGGLE", "dim_toggle");
    ("FAV_LIGHT", "fav_light");
    ("MUTE_OFF", "mute_off");
    ("MUTE_ON", "mute_on");
    ("MUTE_TOGGLE", "mute_toggle");
    ("SELECT_SOUND_MODE", "select_sound_mode");
    ("SELECT_SOURCE", "select_source");
    ("VOLUME", "volume");
    ("VOLUME_DOWN", "volume_down");
    ("VOLUME_UP", "volume_up") ].

(** The keys of [SimpleCommands._value2member_map_]. *)
Definition values : list string := map snd members.

(** [display_name] of the member called [name]; [None] stands for the
    [IndexError] of [parts[0]] on a name without a word. *)
Definition display_name (name : string) : option string :=
  let parts := Str.split_ws_once (Str.lower_ascii (Str.replace_char "_" " " name)) in
  match parts with
  | [] => None
  | [first] => Some (Str.capitalize_ascii first)
  | first :: second :: _ => Some (Str.capitalize_ascii first ++ " " ++ second)
  end.

End SimpleCommands.

Module Utils.

(** [parse_toggle_command]: the three keys of [toggle_map] are distinct,
    so the lookup in the list is the lookup in the dictionary;
    [str(code)] is the digit. *)
Definition parse_toggle_command (prefix simple_cmd : string)
    : option (string * string) :=
  let toggle_map :=
    [ (prefix ++ "_off", "0"); (prefix ++ "_on", "1");
      (prefix ++ "_toggle", "2") ] in
  match find (fun kv => String.eqb (fst kv) simple_cmd) toggle_map with
  | Some kv => Some (prefix, snd kv)
  | None => None
  end.

(** [validate_simple_commands_exist_on_executor]: the lower-cased values
    that resolve to no callable of the executor.  [py_lower] is
    [str.lower]; [executor name] is the callable [getattr] finds. *)
Definition validate_simple_commands_exist_on_executor
    (py_lower : string -> string) (enum_values : list string)
    (executor : string -> option Device.Capability) : list string :=
  List.filter (fun method_name =>
            match executor method_name with
            | Some _ => false
            | None => true
            end)
         (map py_lower enum_values).

End Utils.

(* ================================================================== *)
(** ** The remote entity's command handler ([remote.py]) *)
(* ================================================================== *)

Module RemoteEntity.

(** What [command] gives: a status or an exception. *)
Inductive Outcome : Type :=
| Status (s : StatusCodes)
| Raises (e : Exn).

Definition of_result (r : result StatusCodes) : Outcome :=
  match r with
  | Ok s => Status s
  | Raise e => Raises e
  end.

(** [ucapi.remote.Commands], the members [command] has a case for; the
    remaining member and any other string end in NOT_IMPLEMENTED alike
    and are the [None] of [Commands_of_value]. *)
Module Commands.
Inductive t : Type :=
| ON | OFF | SEND_CMD | SEND_CMD_SEQUENCE.
End Commands.

Definition Commands_of_value (cmd_id : string) : option Commands.t :=
  if String.eqb cmd_id "on" then Some Commands.ON
  else if String.eqb cmd_id "off" then Some Commands.OFF
  else if String.eqb cmd_id "send_cmd" then Some Commands.SEND_CMD
  else if String.eqb cmd_id "send_cmd_sequence" then Some Commands.SEND_CMD_SEQUENCE
  else None.

Section WithIndex.

Context {K : Type}.

(** [PowerControl.power_on] of the device library, [int(s)] on a
    string, [str.lower], and the executor. *)
Variable power_control : string -> result unit.
Variable parse_int : string -> option Z.
Variable py_lower : string -> string.
Variable executor : string -> option Device.Capability.

(** The first lines of [command]: the id the request is handled under.
    A truthy [command] parameter that starts with "remote" replaces
    [cmd_id] by its second dot-separated piece. *)
Definition effective_cmd_id (cmd_id : string) (simple_cmd : PyVal)
    : Exn + string :=
  if py_truthy simple_cmd then
    match simple_cmd with
    | VStr s =>
        if Str.startswith "remote" s then
          match Str.split_char "." s with
          | _ :: second :: _ => inr second
          | _ => inl IndexError
          end
        else inr cmd_id
    | _ => inl AttributeError
    end
  else inr cmd_id.

(** [commands[i]] for the value of the "sequence" parameter. *)
Definition subscript (commands : PyVal) (i : nat) : Exn + PyVal :=
  match commands with
  | VList l =>
      match nth_error l i with
      | Some v => inr v
      | None => inl IndexError
      end
  | VStr s =>
      match String.get i s with
      | Some c => inr (VStr (String c EmptyString))
      | None => inl IndexError
      end
  | VDict d =>
      match find (fun kv => py_eqb (fst kv) (VInt (Z.of_nat i))) d with
      | Some kv => inr (snd kv)
      | None => inl KeyError
      end
  | _ => inl TypeError
  end.

(** The SEND_CMD case, for a truthy [simple_cmd]. *)
Definition send_cmd (d : Device.TrinnovDevice K) (simple_cmd : string)
    : Outcome :=
  let simple_cmd := py_lower (Str.replace_char " " "_" simple_cmd) in
  if existsb (String.eqb simple_cmd) SimpleCommands.values then
    let result_ :=
      match Utils.parse_toggle_command "mute" simple_cmd with
      | Some r => Some r
      | None =>
          match Utils.parse_toggle_command "dim" simple_cmd with
          | Some r => Some r
          | None => Utils.parse_toggle_command "bypass" simple_cmd
          end
      end in
    let '(actual_cmd, cmd_params) :=
      match result_ with
      | Some (prefix, code) => (prefix, VStr code)
      | None => (simple_cmd, VNone)
      end in
    if negb (String.eqb actual_cmd "") then
      of_result (Device.send_command executor d actual_cmd cmd_params)
    else Status BAD_REQUEST
  else Status NOT_IMPLEMENTED.

(** The SEND_CMD_SEQUENCE case.  The conversion of the second item
    and the call of the executor's [volume] stand in one [try] whose
    handler catches [IndexError] and [ValueError]. *)
Definition send_cmd_sequence (commands : PyVal)
    : Outcome * list (Device.Effect K) :=
  if py_truthy commands then
    match subscript commands 0 with
    | inl e => (Raises e, [])
    | inr head =>
        if py_eqb head (VStr "volume") then
          match subscript commands 1 with
          | inl IndexError => (Status BAD_REQUEST, [])
          | inl e => (Raises e, [])
          | inr v =>
              match MediaPlayer.py_int parse_int v with
              | Ok volume_percent =>
                  let db := Device.percent_to_db volume_percent in
                  match Device.executor_request executor "volume" [VFloat db]
                          (Device.ExecVolume db) with
                  | (Ok status, effs) => (Status status, effs)
                  | (Raise IndexError, effs) | (Raise ValueError, effs) =>
                      (Status BAD_REQUEST, effs)
                  | (Raise e, effs) => (Raises e, effs)
                  end
              | Raise IndexError | Raise ValueError => (Status BAD_REQUEST, [])
              | Raise e => (Raises e, [])
              end
          end
        else (Status NOT_IMPLEMENTED, [])
    end
  else (Status NOT_IMPLEMENTED, []).

(** [TrinnovRemote.command]. *)
Definition command (d : Device.TrinnovDevice K) (cmd_id : string)
    (params : option (gmap string PyVal))
    : Outcome * list (Device.Effect K) :=
  let params :=
    match params with
    | Some m => m
    | None => ∅
    end in
  let simple_cmd := dict_get params "command" in
  match effective_cmd_id cmd_id simple_cmd with
  | inl e => (Raises e, [])
  | inr cmd_id =>
      match Commands_of_value cmd_id with
      | None => (Status NOT_IMPLEMENTED, [])
      | Some Commands.ON =>
          let '(r, effs) := Device.power_on power_control d in (of_result r, effs)
      | Some Commands.OFF =>
          let '(r, effs) := Device.power_off executor d in (of_result r, effs)
      | Some Commands.SEND_CMD =>
          match simple_cmd with
          | VStr s =>
              if py_truthy simple_cmd then (send_cmd d s, [])
              else (Status BAD_REQUEST, [])
          | _ => (Status BAD_REQUEST, [])
          end
      | Some Commands.SEND_CMD_SEQUENCE =>
          send_cmd_sequence
            (match params !! "sequence" with
             | Some v => v
             | None => VList []
             end)
      end
  end.

End WithIndex.

End RemoteEntity.

(* ================================================================== *)
(** ** The stored configuration ([config.py]) *)
(* ================================================================== *)

Module Config.

(** [device.TrinnovInfo]; each field holds a string or [None]. *)
Record TrinnovInfo : Type := mkInfo {
  id : option string;
  name : option string;
  ip : option string;
  mac : option string;
  model_name : option string;
  software_version : option string
}.

(** [extract_device_id], on the entity's id; [None] stands for the
    [IndexError] of an id without a dot. *)
Definition extract_device_id (entity_id : string) : option string :=
  match Str.split_once "." entity_id with
  | _ :: device_id :: _ => Some device_id
  | _ => None
  end.

(** What the methods of [Devices] do beyond changing [_config]. *)
Inductive Effect : Type :=
| AddHandler (trinnov : TrinnovInfo)
    (* self._add_handler(trinnov) *)
| RemoveHandler (removed : option TrinnovInfo)
    (* self._remove_handler(removed) *)
| Store (config : list TrinnovInfo)
    (* self.store(): the list written to the file *)
| RemoveFile.
    (* os.remove(self._cfg_file_path) *)

Definition same_id (a b : option string) : bool := bool_decide (a = b).

Section WithHandlers.

(** Whether [Devices] was given an add handler and a remove handler. *)
Variable add_handler : bool.
Variable remove_handler : bool.

(** [Devices.contains]. *)
Definition contains (device_id : option string) (config : list TrinnovInfo)
    : bool :=
  existsb (fun d => same_id (id d) device_id) config.

(** [Devices.get]. *)
Definition get (device_id : option string) (config : list TrinnovInfo)
    : option TrinnovInfo :=
  find (fun d => same_id (id d) device_id) config.

(** [Devices.add]: the new list and the effects. *)
Definition add (trinnov : TrinnovInfo) (config : list TrinnovInfo)
    : list TrinnovInfo * list Effect :=
  if existsb (fun d => same_id (id d) (id trinnov)) config then (config, [])
  else
    let config' := (config ++ [trinnov])%list in
    (config',
     ((if add_handler then [AddHandler trinnov] else []) ++ [Store config'])%list).

(** The list without its first entry of the given id, and that entry. *)
Fixpoint pop_first (device_id : option string) (config : list TrinnovInfo)
    : option (TrinnovInfo * list TrinnovInfo) :=
  match config with
  | [] => None
  | device :: rest =>
      if same_id (id device) device_id then Some (device, rest)
      else match pop_first device_id rest with
           | Some (removed, rest') => Some (removed, device :: rest')
           | None => None
           end
  end.

(** [Devices.remove]: the new list, the effects and the value returned. *)
Definition remove (device_id : option string) (config : list TrinnovInfo)
    : list TrinnovInfo * list Effect * bool :=
  match pop_first device_id config with
  | Some (removed_device, config') =>
      (config',
       ((if remove_handler then [RemoveHandler (Some removed_device)] else [])
        ++ [Store config'])%list,
       true)
  | None => (config, [], false)
  end.

(** The list with its first entry of [updated]'s id replaced. *)
Fixpoint replace_first (updated : TrinnovInfo) (config : list TrinnovInfo)
    : option (list TrinnovInfo) :=
  match config with
  | [] => None
  | device :: rest =>
      if same_id (id device) (id updated) then Some (updated :: rest)
      else match replace_first updated rest with
           | Some rest' => Some (device :: rest')
           | None => None
           end
  end.

(** [Devices.update]. *)
Definition update (updated : TrinnovInfo) (config : list TrinnovInfo)
    : list TrinnovInfo * list Effect * bool :=
  match replace_first updated config with
  | Some config' => (config', [Store config'], true)
  | None => (config, [], false)
  end.

(** [Devices.clear]; [file_exists] is [os.path.exists] of the file. *)
Definition clear (file_exists : bool) (config : list TrinnovInfo)
    : list TrinnovInfo * list Effect :=
  ([],
   ((if file_exists then [RemoveFile] else [])
    ++ (if remove_handler then [RemoveHandler None] else []))%list).

End WithHandlers.

(** No two entries of the list have the same id. *)
Definition unique_ids (config : list TrinnovInfo) : Prop :=
  NoDup (map id config).

End Config.

(* ================================================================== *)
(** ** The second step of the setup flow ([setup_flow.py]) *)
(* ================================================================== *)

Module SetupFlow.

(** The [ucapi] setup actions the handler returns; a form is its title
    and the id and value of each field. *)
Inductive SetupAction : Type :=
| SetupError
| SetupComplete
| RequestUserInput (title : string) (fields : list (string * option string)).

(** [d.get(key)] and [d.get(key, default)] on the form's values, which
    are strings or [None]. *)
Definition values_get (d : gmap string (option string)) (key : string)
    : option string :=
  match d !! key with
  | Some v => v
  | None => None
  end.

Definition values_get_default (d : gmap string (option string))
    (key default : string) : option string :=
  match d !! key with
  | Some v => v
  | None => Some default
  end.

(** Truth value and f-string text of a string or [None]. *)
Definition truthy (v : option string) : bool :=
  match v with
  | Some s => negb (String.eqb s "")
  | None => false
  end.

Definition format (v : option string) : string :=
  match v with
  | Some s => s
  | None => "None"
  end.

(** [_detailed_input_form]. *)
Definition _detailed_input_form (input_values : gmap string (option string))
    : SetupAction :=
  RequestUserInput "Manual Configuration"
    [ ("ip", values_get input_values "ip");
      ("hostname", values_get input_values "name");
      ("mac", values_get input_values "mac");
      ("model", values_get input_values "model");
      ("version", values_get input_values "version");
      ("srpid", values_get input_values "srpid") ].

(** What [handle_user_data_response] leaves behind. *)
Record Response : Type := mkResponse {
  action : SetupAction;
  input_values_after : gmap string (option string);
  config_after : list Config.TrinnovInfo;
  effects : list Config.Effect
}.

(** [handle_user_data_response]; [txt_records] is what
    [fetch_manual_device_info] returns for the submitted ip (used only
    when no mac was submitted). *)
Definition handle_user_data_response (add_handler remove_handler : bool)
    (file_exists : bool) (txt_records : gmap string (option string))
    (input_values : gmap string (option string))
    (config : list Config.TrinnovInfo) : Response :=
  if negb (truthy (values_get input_values "mac")) then
    if bool_decide (txt_records = ∅) then
      mkResponse SetupError input_values config []
    else
      let input_values' : gmap string (option string) :=
        foldr (fun key acc => <[key := values_get_default txt_records key "Unknown"]> acc)
              ∅ ["ip"; "mac"; "srpid"; "model"; "version"; "name"] in
      mkResponse (_detailed_input_form input_values') input_values' config []
  else
    let srpid := values_get_default input_values "srpid" "Unknown" in
    let ip := values_get_default input_values "ip" "Unknown" in
    let model := values_get_default input_values "model" "Unknown" in
    let mac := values_get_default input_values "mac" "Unknown" in
    let version := values_get_default input_values "version" "Unknown" in
    let name := "Trinnov " ++ format model in
    let '(cleared, effects1) := Config.clear remove_handler file_exists config in
    let dv_info := Config.mkInfo srpid (Some name) ip mac model version in
    let '(config', effects2) := Config.add add_handler dv_info cleared in
    mkResponse SetupComplete input_values config' (effects1 ++ effects2)%list.

End SetupFlow.

(* ================================================================== *)
(** ** Connecting: the readiness probe and the wait loop ([device.py]) *)
(* ================================================================== *)

Module Readiness.

Local Open Scope list_scope.

(** The environment's answer to one [await].  To a port check, the
    handshake or an open: [Yes] it succeeded, [No] it failed with an
    error the awaiting code catches (a timeout, a refused connection,
    an [OSError], a [DeviceError]).  To a sleep: it elapsed, unless the
    answer is one of the next two.  [Cancel]: [CancelledError] is
    raised at the [await]; [Crash]: another exception is. *)
Inductive Answer : Type :=
| Yes
| No
| Cancel
| Crash.

(** The awaits, as they appear in the trace. *)
Inductive Await : Type :=
| CheckTcpPort (port : Z)
| GetWsEthernet
| SleepFor (seconds : Z)
| DeviceOpen (timeout : option Z)
| WaitTaskEnd
    (* await self._wait_task, after its cancel() *)
| CloseDevice.
    (* await self._device.close() *)

(** How a coroutine stands when the answers are used up or it ended. *)
Inductive Outcome (A : Type) : Type :=
| Returned (a : A)
| Cancelled
| Crashed
| Pending.
Arguments Returned {A} a.
Arguments Cancelled {A}.
Arguments Crashed {A}.
Arguments Pending {A}.

(** The second loop of [wait_for_device_ready]: outcome, trace of
    awaits, answers left. *)
Fixpoint probe_44100 (first_attempt : bool) (answers : list Answer)
    : Outcome bool * list Await * list Answer :=
  match answers with
  | [] => (Pending, [CheckTcpPort 44100], [])
  | Yes :: rest =>
      match rest with
      | [] => (Pending, [CheckTcpPort 44100; GetWsEthernet], [])
      | Yes :: rest' =>
          (Returned true, [CheckTcpPort 44100; GetWsEthernet], rest')
      | No :: rest' =>
          let '(o, t, r) := probe_44100 first_attempt rest' in
          (o, CheckTcpPort 44100 :: GetWsEthernet :: t, r)
      | Cancel :: rest' =>
          (Returned false, [CheckTcpPort 44100; GetWsEthernet], rest')
      | Crash :: rest' =>
          (Crashed, [CheckTcpPort 44100; GetWsEthernet], rest')
      end
  | No :: rest =>
      let pause := if first_attempt then 18 else 2 in
      match rest with
      | [] => (Pending, [CheckTcpPort 44100; SleepFor pause], [])
      | Cancel :: rest' =>
          (Returned false, [CheckTcpPort 44100; SleepFor pause], rest')
      | Crash :: rest' =>
          (Crashed, [CheckTcpPort 44100; SleepFor pause], rest')
      | _ :: rest' =>
          let '(o, t, r) := probe_44100 false rest' in
          (o, CheckTcpPort 44100 :: SleepFor pause :: t, r)
      end
  | Cancel :: rest => (Returned false, [CheckTcpPort 44100], rest)
  | Crash :: rest => (Crashed, [CheckTcpPort 44100], rest)
  end.

(** [wait_for_device_ready]: the first loop, then the second. *)
Fixpoint wait_for_device_ready (answers : list Answer)
    : Outcome bool * list Await * list Answer :=
  match answers with
  | [] => (Pending, [CheckTcpPort 80], [])
  | Yes :: rest =>
      match rest with
      | [] => (Pending, [CheckTcpPort 80; SleepFor 2], [])
      | Cancel :: rest' => (Returned false, [CheckTcpPort 80; SleepFor 2], rest')
      | Crash :: rest' => (Crashed, [CheckTcpPort 80; SleepFor 2], rest')
      | _ :: rest' =>
          let '(o, t, r) := probe_44100 true rest' in
          (o, CheckTcpPort 80 :: SleepFor 2 :: t, r)
      end
  | No :: rest =>
      match rest with
      | [] => (Pending, [CheckTcpPort 80; SleepFor 10], [])
      | Cancel :: rest' => (Returned false, [CheckTcpPort 80; SleepFor 10], rest')
      | Crash :: rest' => (Crashed, [CheckTcpPort 80; SleepFor 10], rest')
      | _ :: rest' =>
          let '(o, t, r) := wait_for_device_ready rest' in
          (o, CheckTcpPort 80 :: SleepFor 10 :: t, r)
      end
  | Cancel :: rest => (Returned false, [CheckTcpPort 80], rest)
  | Crash :: rest => (Crashed, [CheckTcpPort 80], rest)
  end.

(** [wait_loop], the task [connect] creates, for [rounds] rounds of its
    [while]; the loop condition holds each time the task tests it (the
    task stored in [_wait_task] is the running one). *)
Fixpoint wait_loop_rounds (rounds : nat) (answers : list Answer)
    : Outcome unit * list Await * list Answer :=
  match rounds with
  | O => (Pending, [], answers)
  | S rounds' =>
      match wait_for_device_ready answers with
      | (Returned true, t, rest) =>
          match rest with
          | [] => (Pending, t ++ [DeviceOpen None], [])
          | Yes :: rest' => (Returned tt, t ++ [DeviceOpen None], rest')
          | No :: rest' =>
              match rest' with
              | [] => (Pending, t ++ [DeviceOpen None; SleepFor 10], [])
              | Cancel :: r =>
                  (Cancelled, t ++ [DeviceOpen None; SleepFor 10], r)
              | Crash :: r =>
                  (Crashed, t ++ [DeviceOpen None; SleepFor 10], r)
              | _ :: r =>
                  let '(o, t', r') := wait_loop_rounds rounds' r in
                  (o, t ++ [DeviceOpen None; SleepFor 10] ++ t', r')
              end
          | Cancel :: rest' => (Cancelled, t ++ [DeviceOpen None], rest')
          | Crash :: rest' => (Crashed, t ++ [DeviceOpen None], rest')
          end
      | (Returned false, t, rest) => (Returned tt, t, rest)
      | (o, t, rest) =>
          (match o with
           | Crashed => Crashed
           | Cancelled => Cancelled
           | _ => Pending
           end, t, rest)
      end
  end.

(** [wait_loop]: every round uses up an answer, so as many rounds as
    there are answers, and one more, run the loop as far as the answers
    reach. *)
Definition wait_loop (answers : list Answer)
    : Outcome unit * list Await * list Answer :=
  wait_loop_rounds (S (length answers)) answers.

(** The awaits of the first loop of the probe, before port 80 opens,
    and those of its second loop. *)
Definition port80_await (a : Await) : Prop :=
  a = CheckTcpPort 80 \/ a = SleepFor 10.

Definition port44100_await (a : Await) : Prop :=
  a = CheckTcpPort 44100 \/ a = GetWsEthernet \/
  a = SleepFor 18 \/ a = SleepFor 2.

(** The seconds slept in a trace. *)
Fixpoint total_sleep (trace : list Await) : Z :=
  match trace with
  | [] => 0
  | SleepFor s :: trace' => s + total_sleep trace'
  | _ :: trace' => total_sleep trace'
  end.

(** [n] times the two answers [a; b]. *)
Fixpoint rounds_of (a b : Answer) (n : nat) : list Answer :=
  match n with
  | O => []
  | S n' => a :: b :: rounds_of a b n'
  end.

Section WithIndex.

Context {K : Type}.

(** What a coroutine of the device with awaits leaves behind; the
    effects list the calls it made, the awaits the points where it
    waited, in order. *)
Record Connect : Type := mkConnect {
  co_device : Device.TrinnovDevice K;
  co_effects : list (Device.Effect K);
  co_awaits : list Await;
  co_outcome : Outcome unit;
  co_rest : list Answer
}.

(** The last await of [disconnect]: [self._device.close()], which
    stands in no [try], so every answer but [Yes] leaves [disconnect]
    as an exception. *)
Definition close_device (d : Device.TrinnovDevice K)
    (effs : list (Device.Effect K)) (awaits : list Await)
    (answers : list Answer) : Connect :=
  let effs := effs ++ [Device.DeviceClose] in
  let awaits := awaits ++ [CloseDevice] in
  match answers with
  | [] => mkConnect d effs awaits Pending []
  | Yes :: rest => mkConnect d effs awaits (Returned tt) rest
  | Cancel :: rest => mkConnect d effs awaits Cancelled rest
  | _ :: rest => mkConnect d effs awaits Crashed rest
  end.

(** [disconnect] with its awaits.  The cancelled wait task is awaited
    inside [try]/[except CancelledError]: only the answer [Crash], an
    exception of another kind, leaves [disconnect] there, before the
    task is forgotten and before the device is closed. *)
Definition teardown (d : Device.TrinnovDevice K) (answers : list Answer)
    : Connect :=
  if Device._connected d || bool_decide (is_Some (Device._wait_task d)) then
    match Device._wait_task d with
    | Some false =>
        match answers with
        | [] => mkConnect d [Device.CancelWaitTask] [WaitTaskEnd] Pending []
        | Crash :: rest =>
            mkConnect d [Device.CancelWaitTask] [WaitTaskEnd] Crashed rest
        | _ :: rest =>
            close_device (Device.set_wait_task None d)
              [Device.CancelWaitTask] [WaitTaskEnd] rest
        end
    | _ => close_device d [] [] answers
    end
  else mkConnect d [] [] (Returned tt) answers.

(** [connect]; [handler_present] tells whether the device library holds
    a connection handler when it is called.  When the teardown does not
    return, [connect] ends there, before [_connected] is cleared. *)
Definition connect (handler_present : bool) (d : Device.TrinnovDevice K)
    (answers : list Answer) : Connect :=
  let torn :=
    if handler_present then teardown d answers
    else mkConnect d [] [] (Returned tt) answers in
  match co_outcome torn with
  | Returned _ =>
      let d1 := Device.set_connected false (co_device torn) in
      let effs := co_effects torn in
      let awaits := co_awaits torn ++ [DeviceOpen (Some 3)] in
      match co_rest torn with
      | [] => mkConnect d1 effs awaits Pending []
      | Yes :: rest => mkConnect d1 effs awaits (Returned tt) rest
      | Cancel :: rest => mkConnect d1 effs awaits Cancelled rest
      | Crash :: rest => mkConnect d1 effs awaits Crashed rest
      | No :: rest =>
          let '(o, t, rest') := wait_loop rest in
          let task_done :=
            match o with
            | Pending => false
            | _ => true
            end in
          mkConnect (Device.set_wait_task (Some task_done) d1) effs
            (awaits ++ t) o rest'
      end
  | _ => torn
  end.

(** One move of a device: an event of the device library, a telemetry
    signal, a teardown, the flag raised by [registry.disconnect_all],
    or a [connect]. *)
Inductive Move : Type :=
| ConnectionEvent (status : ConnectionStatus)
| TelemetryEvent (sig : Device.Telemetry K)
| Disconnect
| RaiseIntentional
| Connecting (handler_present : bool) (answers : list Answer).

End WithIndex.

Arguments Connect : clear implicits.
Arguments Move : clear implicits.

Definition move {K : Type} (parse_float : string -> option float)
    (float_str : float -> string) (m : Move K) (d : Device.TrinnovDevice K)
    : Device.TrinnovDevice K :=
  match m with
  | ConnectionEvent status =>
      Device.st_device (Device._handle_connection_state status d)
  | TelemetryEvent sig =>
      Device.st_device (Device._handle_state_change parse_float float_str sig d)
  | Disconnect => Device.st_device (Device.disconnect d)
  | RaiseIntentional => Device.set_was_intentional_disconnect true d
  | Connecting handler_present answers =>
      co_device (connect handler_present d answers)
  end.

(** The device after a sequence of moves. *)
Definition run {K : Type} (parse_float : string -> option float)
    (float_str : float -> string) (moves : list (Move K))
    (d : Device.TrinnovDevice K) : Device.TrinnovDevice K :=
  foldl (fun d m => move parse_float float_str m d) d moves.

End Readiness.

(* ================================================================== *)
(** ** Registry-wide teardown and the driver's glue *)
(* ================================================================== *)

Module Driver.


(** The remote branch of [_update_entity_attributes]: the state pushed
    for the remote entity, [None] when the table has no entry (the
    lookup has no default here). *)
Definition remote_state_of (state : string) : option string :=
  match find (fun kv => String.eqb (fst kv) state) Remote.REMOTE_STATE_MAPPING with
  | Some kv => Some (snd kv)
  | None => None
  end.

End Driver.

(* ================================================================== *)
(** ** Tables over the percentage scale *)
(* ================================================================== *)

(** [percent_to_db n] lies between -100.0 and 0.0. *)
Definition db_on_scale (n : nat) : bool :=
  let db := Device.percent_to_db (Z.of_nat n) in
  PrimFloat.leb (-100)%float db && PrimFloat.leb db 0%float.

(** [percent_to_db n] is not above [percent_to_db m] for the [m] from
    [n] to 100. *)
Definition db_not_above_later (n : nat) : bool :=
  forallb (fun m =>
             PrimFloat.leb (Device.percent_to_db (Z.of_nat n))
                           (Device.percent_to_db (Z.of_nat m)))
          (seq n (101 - n)).

(* ================================================================== *)
(** ** Properties *)
(* ================================================================== *)

(** *** The registry *)

Section RegistryFacts.

Context {D : Type}.
Implicit Types (reg : gmap string D) (id : string) (s : D).

Lemma register_device_present reg id s1 s2 :
  reg !! id = Some s1 -> Registry.register_device id s2 reg = reg.
Proof. intros H. unfold Registry.register_device. now rewrite H. Qed.

Lemma register_device_fresh reg id s :
  reg !! id = None ->
  Registry.get_device (Registry.register_device id s reg) id = Some s.
Proof.
  intros H. unfold Registry.register_device, Registry.get_device.
  rewrite H. apply lookup_insert_eq.
Qed.

Lemma unregister_device_absent reg id :
  reg !! id = None -> Registry.unregister_device id reg = reg.
Proof. intros H. unfold Registry.unregister_device. now apply delete_id. Qed.

Lemma unregister_device_idempotent reg id :
  Registry.unregister_device id (Registry.unregister_device id reg)
  = Registry.unregister_device id reg.
Proof.
  apply unregister_device_absent. unfold Registry.unregister_device.
  apply lookup_delete_eq.
Qed.

End RegistryFacts.

(** C8.  In a registry where [id] is registered with session [s1],
    [register_device id s2] returns the registry unchanged, so that
    [get_device id] still gives [s1] and every other entry is as
    before; and [unregister_device] of an id that is not registered
    returns the registry unchanged. *)
Theorem C8_register_first_wins_unregister_absent
    (D : Type) (reg : gmap string D) (id id' : string) (s1 s2 : D) :
  (Registry.get_device reg id = Some s1 ->
     Registry.register_device id s2 reg = reg /\
     Registry.get_device (Registry.register_device id s2 reg) id = Some s1 /\
     (forall other,
        Registry.get_device (Registry.register_device id s2 reg) other
        = Registry.get_device reg other)) /\
  (Registry.get_device reg id' = None ->
     Registry.unregister_device id' reg = reg).
Proof.
  split.
  - intros H. unfold Registry.get_device in *.
    rewrite (register_device_present reg id s1 s2 H). auto.
  - apply unregister_device_absent.
Qed.

Lemma C8_witness :
  let reg : gmap string nat := <["X" := 1%nat]> ∅ in
  (Registry.register_device "X" 2%nat reg = reg /\
   Registry.get_device (Registry.register_device "X" 2%nat reg) "X" = Some 1%nat /\
   (forall other,
      Registry.get_device (Registry.register_device "X" 2%nat reg) other
      = Registry.get_device reg other)) /\
  Registry.unregister_device "Y" reg = reg.
Proof.
  intros reg.
  pose proof (C8_register_first_wins_unregister_absent nat reg "X" "Y" 1%nat 2%nat)
    as [Hreg Hunreg].
  split.
  - apply Hreg. reflexivity.
  - apply Hunreg. reflexivity.
Defined.

(** *** The loop of the adapters *)

Lemma changed_among_from (keys : list string)
    (self_attributes update acc : gmap string PyVal) (k : string) :
  foldl (fun attributes key =>
           match update !! key, self_attributes !! key with
           | Some u, Some a =>
               if py_neb u a then <[key := u]> attributes else attributes
           | _, _ => attributes
           end) acc keys !! k
  = if bool_decide (k ∈ keys) then
      match changed_value self_attributes update k with
      | Some u => Some u
      | None => acc !! k
      end
    else acc !! k.
Proof.
  revert acc. induction keys as [|key keys IH]; intros acc.
  - rewrite bool_decide_eq_false_2 by (apply not_elem_of_nil). reflexivity.
  - cbn [foldl]. rewrite IH. clear IH. unfold changed_value.
    destruct (decide (k = key)) as [->|Hne].
    + rewrite (bool_decide_eq_true_2 (key ∈ key :: keys)) by (left).
      destruct (update !! key) as [u|];
        [destruct (self_attributes !! key) as [a|];
           [destruct (py_neb u a)|]|];
        rewrite ?lookup_insert_eq;
        destruct (bool_decide (key ∈ keys)); reflexivity.
    + assert (Hiff : bool_decide (k ∈ key :: keys) = bool_decide (k ∈ keys)).
      { apply bool_decide_ext. rewrite elem_of_cons. tauto. }
      rewrite Hiff.
      destruct (update !! key) as [u'|]; [|reflexivity].
      destruct (self_attributes !! key) as [a'|]; [|reflexivity].
      destruct (py_neb u' a'); [|reflexivity].
      rewrite lookup_insert_ne by congruence. reflexivity.
Qed.

Lemma changed_among_lookup (keys : list string)
    (self_attributes update : gmap string PyVal) (k : string) :
  changed_among keys self_attributes update !! k
  = if bool_decide (k ∈ keys) then changed_value self_attributes update k
    else None.
Proof.
  unfold changed_among. rewrite changed_among_from, lookup_empty.
  destruct (bool_decide (k ∈ keys)); [|reflexivity].
  now destruct (changed_value self_attributes update k).
Qed.

(** *** The sensor adapter *)

(** C9.  Whenever the set returned by the sensor adapter's
    [filter_changed_attributes] contains STATE with a value equal to
    UNKNOWN, it contains VALUE with the string "unknown", whatever
    VALUE the update carried. *)
Theorem C9_sensor_unknown_state_forces_value
    (self_attributes update : gmap string PyVal) (state : PyVal) :
  Sensor.filter_changed_attributes self_attributes update !! SensorAttr.STATE
    = Some state ->
  py_eqb state (VStr SensorStates.UNKNOWN) = true ->
  Sensor.filter_changed_attributes self_attributes update !! SensorAttr.VALUE
    = Some (VStr "unknown").
Proof.
  unfold Sensor.filter_changed_attributes.
  set (attributes := changed_among _ _ _).
  destruct (attributes !! SensorAttr.STATE) as [st|] eqn:Hst.
  - destruct (py_eqb st (VStr SensorStates.UNKNOWN)) eqn:Hunk.
    + intros _ _. apply lookup_insert_eq.
    + intros Hlook Heq. rewrite Hst in Hlook. injection Hlook as ->.
      congruence.
  - intros Hlook. rewrite Hst in Hlook. discriminate.
Qed.

Lemma C9_witness :
  let self_attributes : gmap string PyVal :=
    <[SensorAttr.STATE := VStr SensorStates.ON]>
      (<[SensorAttr.VALUE := VStr "48.0"]> ∅) in
  let update : gmap string PyVal :=
    <[SensorAttr.STATE := VStr SensorStates.UNKNOWN]>
      (<[SensorAttr.VALUE := VStr "96.0"]> ∅) in
  Sensor.filter_changed_attributes self_attributes update !! SensorAttr.VALUE
    = Some (VStr "unknown").
Proof.
  intros self_attributes update.
  apply (C9_sensor_unknown_state_forces_value self_attributes update
           (VStr SensorStates.UNKNOWN)).
  - vm_compute. reflexivity.
  - reflexivity.
Defined.

(** *** The remote adapter *)

Lemma mapping_get_cases (key : string) :
  In (Remote.mapping_get key RemoteStates.UNKNOWN)
     [RemoteStates.ON; RemoteStates.OFF; RemoteStates.UNAVAILABLE;
      RemoteStates.UNKNOWN].
Proof.
  unfold Remote.mapping_get, Remote.REMOTE_STATE_MAPPING. cbn [find fst snd].
  repeat match goal with
         | |- context [String.eqb ?a ?b] => destruct (String.eqb a b)
         end; cbn; auto.
Qed.

Lemma new_state_of_total (media_state : PyVal) :
  exists new_state,
    Remote.new_state_of media_state = Ok new_state /\
    In new_state [RemoteStates.ON; RemoteStates.OFF; RemoteStates.UNAVAILABLE;
                  RemoteStates.UNKNOWN].
Proof.
  unfold Remote.new_state_of, Remote.MediaStates_of_value.
  destruct media_state;
    try (eexists; split; [reflexivity | apply mapping_get_cases]).
  destruct (existsb (String.eqb s) Remote.MediaStates_values);
    eexists; (split; [reflexivity | apply mapping_get_cases]).
Qed.

Lemma new_state_of_unknown_value (media_state : PyVal) :
  (forall s, In s Remote.MediaStates_values -> media_state <> VStr s) ->
  Remote.new_state_of media_state = Ok RemoteStates.UNKNOWN.
Proof.
  intros Hunknown. unfold Remote.new_state_of, Remote.MediaStates_of_value.
  destruct media_state; try reflexivity.
  destruct (existsb (String.eqb s) Remote.MediaStates_values) eqn:Hex;
    [|reflexivity].
  apply existsb_exists in Hex as (m & Hin & Heq).
  apply String.eqb_eq in Heq. subst m.
  now destruct (Hunknown s Hin).
Qed.

(** C10.  The remote adapter's [filter_changed_attributes] returns for
    every update (it never raises); whatever it returns holds at most
    the key STATE, with one of ON, OFF, UNAVAILABLE, UNKNOWN; and for an
    update whose STATE is not the value of a media-player state the new
    remote state is UNKNOWN: the result is STATE = UNKNOWN, or empty
    when the remote already is UNKNOWN. *)
Theorem C10_remote_filter_total_bounded
    (self_attributes update : gmap string PyVal) :
  (exists attributes,
     Remote.filter_changed_attributes self_attributes update = Ok attributes /\
     forall k v, attributes !! k = Some v ->
       k = RemoteAttr.STATE /\
       In v [VStr RemoteStates.ON; VStr RemoteStates.OFF;
             VStr RemoteStates.UNAVAILABLE; VStr RemoteStates.UNKNOWN]) /\
  (forall media_state,
     update !! MediaAttr.STATE = Some media_state ->
     (forall s, In s Remote.MediaStates_values -> media_state <> VStr s) ->
     Remote.new_state_of media_state = Ok RemoteStates.UNKNOWN /\
     Remote.filter_changed_attributes self_attributes update
     = Ok (if py_neb (dict_get self_attributes RemoteAttr.STATE)
                     (VStr RemoteStates.UNKNOWN)
           then <[RemoteAttr.STATE := VStr RemoteStates.UNKNOWN]> ∅
           else ∅)).
Proof.
  split.
  - unfold Remote.filter_changed_attributes.
    destruct (update !! MediaAttr.STATE) as [media_state|].
    + destruct (new_state_of_total media_state) as (ns & -> & Hin).
      destruct (py_neb _ _).
      * eexists; split; [reflexivity|]. intros k v Hkv.
        destruct (decide (k = RemoteAttr.STATE)) as [->|Hne].
        -- rewrite lookup_insert_eq in Hkv. injection Hkv as <-.
           split; [reflexivity|].
           cbn in Hin |- *.
           destruct Hin as [<-|[<-|[<-|[<-|[]]]]]; auto.
        -- rewrite lookup_insert_ne, lookup_empty in Hkv by congruence.
           discriminate.
      * eexists; split; [reflexivity|]. intros k v Hkv.
        rewrite lookup_empty in Hkv. discriminate.
    + eexists; split; [reflexivity|]. intros k v Hkv.
      rewrite lookup_empty in Hkv. discriminate.
  - intros media_state Hup Hunknown.
    pose proof (new_state_of_unknown_value media_state Hunknown) as Hns.
    split; [exact Hns|].
    unfold Remote.filter_changed_attributes. rewrite Hup, Hns.
    now destruct (py_neb _ _).
Qed.

Lemma C10_witness :
  let self_attributes : gmap string PyVal :=
    <[RemoteAttr.STATE := VStr RemoteStates.OFF]> ∅ in
  let update : gmap string PyVal :=
    <[MediaAttr.STATE := VStr "WARMING_UP"]> ∅ in
  Remote.new_state_of (VStr "WARMING_UP") = Ok RemoteStates.UNKNOWN /\
  Remote.filter_changed_attributes self_attributes update
  = Ok (<[RemoteAttr.STATE := VStr RemoteStates.UNKNOWN]> ∅).
Proof.
  intros self_attributes update.
  apply (proj2 (C10_remote_filter_total_bounded self_attributes update)
           (VStr "WARMING_UP")).
  - reflexivity.
  - intros s Hin Heq. injection Heq as <-.
    cbn in Hin. repeat (destruct Hin as [Hin|Hin]; [discriminate Hin|]).
    exact Hin.
Defined.

(** *** The media-player adapter *)

Lemma media_filter_state_lookup {K : Type} (d : Device.TrinnovDevice K)
    (self_attributes update : gmap string PyVal) :
  changed_among
    [MediaAttr.MUTED; MediaAttr.SOUND_MODE; MediaAttr.SOUND_MODE_LIST;
     MediaAttr.SOURCE; MediaAttr.SOURCE_LIST; MediaAttr.STATE;
     MediaAttr.VOLUME]
    self_attributes
    (<[MediaAttr.SOUND_MODE_LIST := table_values (Device._attr_sound_modes d)]>
       update) !! MediaAttr.STATE
  = changed_value self_attributes update MediaAttr.STATE.
Proof.
  rewrite changed_among_lookup.
  rewrite bool_decide_eq_true_2
    by (repeat first [apply list_elem_of_here | apply list_elem_of_further]).
  unfold changed_value. rewrite lookup_insert_ne by discriminate. reflexivity.
Qed.

(** The cross-field rule as the code has it: the two keys are forced
    exactly when STATE = OFF is part of the changed set. *)
Lemma media_filter_off_in_changed_set {K : Type} (d : Device.TrinnovDevice K)
    (self_attributes update : gmap string PyVal) :
  changed_value self_attributes update MediaAttr.STATE
    = Some (VStr MediaStates.OFF) ->
  MediaPlayer.filter_changed_attributes d self_attributes update
    !! MediaAttr.SOURCE = Some (VStr "") /\
  MediaPlayer.filter_changed_attributes d self_attributes update
    !! MediaAttr.SOURCE_LIST = Some (VList []).
Proof.
  intros Hch. unfold MediaPlayer.filter_changed_attributes, dict_get.
  rewrite media_filter_state_lookup, Hch. cbn [py_eqb].
  rewrite String.eqb_refl. split.
  - rewrite lookup_insert_ne by discriminate. apply lookup_insert_eq.
  - apply lookup_insert_eq.
Qed.

(** C7, as the code has it.  When the update carries STATE = OFF and
    the entity's attributes hold a STATE that differs from OFF (so that
    STATE = OFF is part of the changed set), the filtered output holds
    source = "" and source_list = [], whether or not the update
    mentions them. *)
Theorem C7_state_changing_to_off_clears_source
    (K : Type) (d : Device.TrinnovDevice K)
    (self_attributes update : gmap string PyVal) (current : PyVal) :
  update !! MediaAttr.STATE = Some (VStr MediaStates.OFF) ->
  self_attributes !! MediaAttr.STATE = Some current ->
  py_neb (VStr MediaStates.OFF) current = true ->
  MediaPlayer.filter_changed_attributes d self_attributes update
    !! MediaAttr.SOURCE = Some (VStr "") /\
  MediaPlayer.filter_changed_attributes d self_attributes update
    !! MediaAttr.SOURCE_LIST = Some (VList []).
Proof.
  intros Hup Hself Hne. apply media_filter_off_in_changed_set.
  unfold changed_value. now rewrite Hup, Hself, Hne.
Qed.

Lemma C7_witness :
  let d : Device.TrinnovDevice Z := Device.new_device "00:11" "X" [] [] in
  let self_attributes :=
    <[MediaAttr.STATE := VStr MediaStates.ON]> MediaPlayer.initial_attributes in
  let update : gmap string PyVal :=
    <[MediaAttr.STATE := VStr MediaStates.OFF]> ∅ in
  MediaPlayer.filter_changed_attributes d self_attributes update
    !! MediaAttr.SOURCE = Some (VStr "") /\
  MediaPlayer.filter_changed_attributes d self_attributes update
    !! MediaAttr.SOURCE_LIST = Some (VList []).
Proof.
  intros d self_attributes update.
  apply (C7_state_changing_to_off_clears_source Z d self_attributes update
           (VStr MediaStates.ON)); reflexivity.
Defined.

(** C7 as stated fails: the adapter starts with STATE = OFF
    ([MediaPlayerDef.attributes]); an update that sets the play state
    to OFF then changes nothing, and the output, being empty, holds
    neither source nor source_list. *)
Lemma C7_counterexample :
  let d : Device.TrinnovDevice Z := Device.new_device "00:11" "X" [] [] in
  let update : gmap string PyVal :=
    <[MediaAttr.STATE := VStr MediaStates.OFF]> ∅ in
  update !! MediaAttr.STATE = Some (VStr MediaStates.OFF) /\
  MediaPlayer.filter_changed_attributes d MediaPlayer.initial_attributes update
    = ∅ /\
  MediaPlayer.filter_changed_attributes d MediaPlayer.initial_attributes update
    !! MediaAttr.SOURCE <> Some (VStr "") /\
  MediaPlayer.filter_changed_attributes d MediaPlayer.initial_attributes update
    !! MediaAttr.SOURCE_LIST <> Some (VList []).
Proof.
  intros d update.
  assert (Hout : MediaPlayer.filter_changed_attributes d
                   MediaPlayer.initial_attributes update = ∅)
    by (vm_compute; reflexivity).
  rewrite Hout. repeat split; try reflexivity; rewrite lookup_empty; discriminate.
Qed.

(** *** Source selection *)

Lemma reverse_lookup_first {K : Type} (pre post : list (K * string))
    (index : K) (label : string) :
  (forall kv, In kv pre -> snd kv <> label) ->
  reverse_lookup (pre ++ (index, label) :: post) (VStr label) = Some index.
Proof.
  intros Hpre. unfold reverse_lookup.
  induction pre as [|kv pre IH]; cbn [app find snd py_eqb].
  - now rewrite String.eqb_refl.
  - destruct (String.eqb (snd kv) label) eqn:Heq.
    + apply String.eqb_eq in Heq. destruct (Hpre kv); [now left | exact Heq].
    + apply IH. intros kv' Hin. apply Hpre. now right.
Qed.

Lemma reverse_lookup_absent {K : Type} (table : list (K * string))
    (label : string) :
  (forall kv, In kv table -> snd kv <> label) ->
  reverse_lookup table (VStr label) = None.
Proof.
  intros Habs. unfold reverse_lookup.
  induction table as [|kv table IH]; cbn [find snd py_eqb]; [reflexivity|].
  destruct (String.eqb (snd kv) label) eqn:Heq.
  - apply String.eqb_eq in Heq. destruct (Habs kv); [now left | exact Heq].
  - apply IH. intros kv' Hin. apply Habs. now right.
Qed.

Lemma params_get_present (m : gmap string PyVal) (key : string) (v : PyVal) :
  m !! key = Some v -> MediaPlayer.params_get (Some m) key = v.
Proof.
  intros Hm. unfold MediaPlayer.params_get, MediaPlayer.params_truthy, dict_get.
  rewrite bool_decide_eq_false_2.
  - cbn. now rewrite Hm.
  - intros ->. rewrite lookup_empty in Hm. discriminate.
Qed.

(** A call of the executor that returns is answered OK. *)
Lemma executor_request_returns {K : Type}
    (executor : string -> option Device.Capability) (name : string)
    (args : list PyVal) (label : Device.Effect K) (method : Device.Capability) :
  executor name = Some method ->
  Device.invoke method (Device.bind_positional method args) = Ok tt ->
  Device.executor_request executor name args label = (Ok OK, [label]).
Proof.
  intros Hm Hcall. unfold Device.executor_request. now rewrite Hm, Hcall.
Qed.

(** C6, as the code has it.  For a select-source command that carries
    a label.  If the label is the empty string the command returns
    BAD_REQUEST and dispatches nothing, whatever the table holds.  If
    the label is not empty and the cached table holds it, the command
    calls the executor's select with the index of the first entry of
    that label, and returns OK when that call returns.  If the table
    does not hold the label (in particular if the table is empty) the
    command returns BAD_REQUEST and dispatches nothing. *)
Theorem C6_select_source_by_label
    (K : Type) (power_control : string -> result unit)
    (key_truthy : K -> bool) (parse_int : string -> option Z)
    (key_value : K -> PyVal) (executor : string -> option Device.Capability)
    (d : Device.TrinnovDevice K) (m : gmap string PyVal) (label : string) :
  m !! "source" = Some (VStr label) ->
  (label = "" ->
   MediaPlayer.command power_control key_truthy parse_int key_value executor d
     "select_source" (Some m)
   = (Ok BAD_REQUEST, [])) /\
  (label <> "" ->
   forall (pre post : list (K * string)) (index : K),
     Device._attr_input_labels d = (pre ++ (index, label) :: post)%list ->
     (forall kv, In kv pre -> snd kv <> label) ->
     MediaPlayer.command power_control key_truthy parse_int key_value executor d
       "select_source" (Some m)
     = Device.executor_request executor "select_source" [key_value index]
         (Device.ExecSelectSource index) /\
     forall method,
       executor "select_source" = Some method ->
       Device.invoke method (Device.bind_positional method [key_value index])
       = Ok tt ->
       MediaPlayer.command power_control key_truthy parse_int key_value executor d
         "select_source" (Some m)
       = (Ok OK, [Device.ExecSelectSource index])) /\
  ((forall kv, In kv (Device._attr_input_labels d) -> snd kv <> label) ->
   MediaPlayer.command power_control key_truthy parse_int key_value executor d
     "select_source" (Some m)
   = (Ok BAD_REQUEST, [])).
Proof.
  intros Hm. unfold MediaPlayer.command. cbn [MediaPlayer.Commands_of_value String.eqb
    Ascii.eqb Bool.eqb].
  rewrite (params_get_present m "source" (VStr label) Hm).
  split; [|split].
  - intros ->. cbn [py_truthy String.eqb negb]. now rewrite orb_true_r.
  - intros Hne pre post index Htable Hpre. rewrite Htable.
    rewrite reverse_lookup_first by exact Hpre.
    assert (Hl : py_truthy (VStr label) = true).
    { cbn. destruct (String.eqb label "") eqn:E; [|reflexivity].
      apply String.eqb_eq in E. contradiction. }
    rewrite Hl.
    replace (MediaPlayer.table_truthy (pre ++ (index, label) :: post)%list)
      with true by (now destruct pre).
    cbn [negb orb]. split; [reflexivity|].
    intros method Hmethod Hcall.
    now apply (executor_request_returns executor _ _ _ method).
  - intros Habs. rewrite reverse_lookup_absent by exact Habs.
    now destruct (_ || _).
Qed.

Lemma C6_witness :
  let d : Device.TrinnovDevice Z :=
    Device.new_device "00:11" "X" [(0, "HDMI1"); (1, "HDMI2")] [] in
  let request (label : string) : gmap string PyVal :=
    <["source" := VStr label]> ∅ in
  let select := Device.mkCapability ["source"] (fun _ => Ok tt) in
  let executor (name : string) : option Device.Capability :=
    if String.eqb name "select_source" then Some select else None in
  MediaPlayer.command (fun _ => Ok tt) (fun _ => true) (fun _ => None) VInt executor d
    "select_source" (Some (request "HDMI2"))
  = (Ok OK, [Device.ExecSelectSource 1]) /\
  MediaPlayer.command (fun _ => Ok tt) (fun _ => true) (fun _ => None) VInt executor d
    "select_source" (Some (request "HDMI9"))
  = (Ok BAD_REQUEST, []) /\
  MediaPlayer.command (fun _ => Ok tt) (fun _ => true) (fun _ => None) VInt executor d
    "select_source" (Some (request ""))
  = (Ok BAD_REQUEST, []).
Proof.
  intros d request select executor. split; [|split].
  - apply (proj2 (proj1 (proj2 (C6_select_source_by_label Z (fun _ => Ok tt) (fun _ => true)
                                   (fun _ => None) VInt executor
                                   d (request "HDMI2") "HDMI2" eq_refl))
                    ltac:(discriminate) [(0, "HDMI1")] [] 1 eq_refl
                    ltac:(intros kv [<-|[]]; discriminate))
             select eq_refl eq_refl).
  - apply (proj2 (proj2 (C6_select_source_by_label Z (fun _ => Ok tt) (fun _ => true)
                           (fun _ => None) VInt executor
                           d (request "HDMI9") "HDMI9" eq_refl))).
    intros kv [<-|[<-|[]]]; discriminate.
  - apply (proj1 (C6_select_source_by_label Z (fun _ => Ok tt) (fun _ => true)
                    (fun _ => None) VInt executor
                    d (request "") "" eq_refl)).
    reflexivity.
Defined.

(** C6 as stated fails on the empty label: the table holds it, yet the
    guard [not label_name] turns the request down before the lookup. *)
Lemma C6_counterexample :
  let d : Device.TrinnovDevice Z :=
    Device.new_device "00:11" "X" [(0, ""); (1, "HDMI2")] [] in
  let m : gmap string PyVal := <["source" := VStr ""]> ∅ in
  let select := Device.mkCapability ["source"] (fun _ => Ok tt) in
  let executor (name : string) : option Device.Capability :=
    if String.eqb name "select_source" then Some select else None in
  In (0, "") (Device._attr_input_labels d) /\
  m !! "source" = Some (VStr "") /\
  MediaPlayer.command (fun _ => Ok tt) (fun _ => true) (fun _ => None) VInt executor d
    "select_source" (Some m)
  = (Ok BAD_REQUEST, []).
Proof.
  intros d m select executor. split; [now left|]. split; reflexivity.
Qed.

(** *** Connection-state events *)

Section ConnectionFacts.

Context {K : Type}.
Implicit Types d : Device.TrinnovDevice K.

(** [disconnect] never writes the flag the event handler reads. *)
Lemma disconnect_keeps_flag d :
  Device._was_intentional_disconnect (Device.st_device (Device.disconnect d))
  = Device._was_intentional_disconnect d.
Proof.
  unfold Device.disconnect.
  destruct (Device._connected d || _); [|reflexivity].
  now destruct (Device._wait_task d) as [[|]|].
Qed.

Lemma disconnect_closes_when_connected d :
  Device._connected d = true ->
  In Device.DeviceClose (Device.st_effects (Device.disconnect d)).
Proof.
  intros Hc. unfold Device.disconnect. rewrite Hc. cbn [orb].
  destruct (Device._wait_task d) as [[|]|]; cbn; auto.
Qed.

(** What the handler does on DISCONNECTED is decided by the flag alone. *)
Lemma disconnected_event_reconnects_iff d :
  In Device.CreateTaskConnect
     (Device.st_effects (Device._handle_connection_state DISCONNECTED d))
  <-> Device._was_intentional_disconnect d = false.
Proof.
  cbn. destruct (Device._was_intentional_disconnect d); cbn.
  - split; [|discriminate].
    intros H. repeat (destruct H as [H|H]; [discriminate H|]). destruct H.
  - split; [reflexivity|]. intros _. do 8 right. now left.
Qed.

(** The path of [registry.disconnect_all], which raises the flag before
    it disconnects: the DISCONNECTED event that follows schedules no
    reconnect. *)
Lemma disconnect_all_suppresses_reconnect d :
  ~ In Device.CreateTaskConnect
      (Device.st_effects
         (Device._handle_connection_state DISCONNECTED
            (Device.st_device (Device.disconnect_all_device d)))).
Proof.
  rewrite disconnected_event_reconnects_iff.
  unfold Device.disconnect_all_device. rewrite disconnect_keeps_flag.
  discriminate.
Qed.

End ConnectionFacts.

(** C1, on the code.  A device that has handled a CONNECTED event and
    on which [disconnect()] is then called (as [on_unsubscribe_entities]
    does, without raising the flag) closes the session, and the
    DISCONNECTED event that follows sleeps 20 s and schedules
    [connect()]: the reconnect the claim excludes. *)
Theorem C1_disconnect_then_event_schedules_reconnect
    (K : Type) (d : Device.TrinnovDevice K) :
  let connected :=
    Device.st_device (Device._handle_connection_state CONNECTED d) in
  let torn_down := Device.disconnect connected in
  In Device.DeviceClose (Device.st_effects torn_down) /\
  Device._was_intentional_disconnect (Device.st_device torn_down) = false /\
  In Device.CreateTaskConnect
     (Device.st_effects
        (Device._handle_connection_state DISCONNECTED
           (Device.st_device torn_down))).
Proof.
  intros connected torn_down.
  assert (Hflag :
    Device._was_intentional_disconnect (Device.st_device torn_down) = false).
  { unfold torn_down. rewrite disconnect_keeps_flag. reflexivity. }
  split; [|split].
  - apply disconnect_closes_when_connected. reflexivity.
  - exact Hflag.
  - now apply disconnected_event_reconnects_iff.
Qed.

(** C4, on the code.  The CONNECTED handler clears the flag, marks the
    session connected, and emits the "connected" notification followed
    by the state updates of the media player, the remote and the
    sample-rate, audio-sync and volume sensors, and nothing else: the
    muted sensor, which the DISCONNECTED handler sets to UNAVAILABLE,
    gets no update. *)
Theorem C4_connected_event_omits_muted_sensor
    (K : Type) (d : Device.TrinnovDevice K) :
  let step := Device._handle_connection_state CONNECTED d in
  let id := Device.device_id d in
  Device._was_intentional_disconnect (Device.st_device step) = false /\
  Device._connected (Device.st_device step) = true /\
  Device.st_raised step = None /\
  Device.st_effects step =
    [ Device.EmitConnected id;
      Device.EmitUpdate ("media_player." ++ id) "state" (VStr "ON");
      Device.EmitUpdate ("remote." ++ id) "state" (VStr "ON");
      Device.EmitUpdate ("sample_rate." ++ id) "state" (VStr "ON");
      Device.EmitUpdate ("audio_sync." ++ id) "state" (VStr "ON");
      Device.EmitUpdate ("volume." ++ id) "state" (VStr "ON") ] /\
  (forall attr value,
     ~ In (Device.EmitUpdate (EntityPrefix.MUTED ++ "." ++ id) attr value)
          (Device.st_effects step)) /\
  In (Device.EmitUpdate (EntityPrefix.MUTED ++ "." ++ id) "state"
        (VStr "UNAVAILABLE"))
     (Device.st_effects (Device._handle_connection_state DISCONNECTED d)).
Proof.
  intros step id. repeat split.
  - intros attr value Hin. cbn in Hin.
    repeat (destruct Hin as [Hin|Hin]; [try discriminate Hin|]);
      try (destruct Hin);
      injection Hin as Hid _ _; discriminate Hid.
  - cbn. do 6 right. now left.
Qed.

(** *** Telemetry and the state cache *)

Section TelemetryFacts.

Context {K : Type}.
Variable parse_float : string -> option float.
Variable float_str : float -> string.
Implicit Types d : Device.TrinnovDevice K.

Local Abbreviation handle :=
  (Device._handle_state_change parse_float float_str).








End TelemetryFacts.




(** *** Command execution *)

Lemma bind_arguments_raises_TypeError (c : Device.Capability) (parms : PyVal)
    (e : Exn) :
  Device.bind_arguments c parms = Raise e -> e = TypeError.
Proof.
  unfold Device.bind_arguments, Device.bind_positional, Device.bind_keywords.
  destruct parms;
    repeat match goal with
           | |- context [if ?b then _ else _] => destruct b
           end; congruence.
Qed.

(** A positional call with the wrong number of arguments does not bind. *)
Lemma bind_positional_arity (c : Device.Capability) (args : list PyVal) :
  length args <> length (Device.cap_params c) ->
  Device.bind_arguments c (VList args) = Raise TypeError.
Proof.
  intros Hlen. cbn. unfold Device.bind_positional.
  destruct (Nat.eqb_spec (length args) (length (Device.cap_params c)));
    [contradiction | reflexivity].
Qed.

(** A call by name with a keyword that names no parameter does not bind. *)
Lemma bind_keywords_unknown (c : Device.Capability) (kw : list (PyVal * PyVal))
    (kv : PyVal * PyVal) :
  In kv kw ->
  (forall p, In p (Device.cap_params c) -> fst kv <> VStr p) ->
  Device.bind_arguments c (VDict kw) = Raise TypeError.
Proof.
  intros Hin Hunk. cbn. unfold Device.bind_keywords.
  destruct (forallb _ kw) eqn:Hall; [|reflexivity].
  rewrite forallb_forall in Hall. specialize (Hall kv Hin).
  apply existsb_exists in Hall as (p & Hp & Hkw).
  unfold Device.kw_is in Hkw. destruct (fst kv) eqn:Hk; try discriminate.
  apply String.eqb_eq in Hkw. subst. now destruct (Hunk p Hp).
Qed.

(** C5, as the code has it.  For a command that resolves to a
    capability: a capability without parameters is called bare and the
    parameters are ignored, so the status is OK when the call returns;
    for a capability with parameters, parameters that do not bind (the
    shape mismatch) raise [TypeError] out of [_execute_command]; and
    BAD_REQUEST is returned exactly when the call raised [ValueError]. *)
Theorem C5_execute_command_bad_request_is_ValueError
    (executor : string -> option Device.Capability) (command : string)
    (parms : PyVal) (method : Device.Capability) :
  executor command = Some method ->
  (Device.cap_params method = [] -> Device.cap_invoke method [] = Ok tt ->
     Device._execute_command executor command parms = Ok OK) /\
  (Device.cap_params method <> [] ->
     forall e, Device.bind_arguments method parms = Raise e ->
     Device._execute_command executor command parms = Raise TypeError) /\
  (Device._execute_command executor command parms = Ok BAD_REQUEST <->
     Device.call_method method parms = Raise ValueError).
Proof.
  intros Hm. unfold Device._execute_command. rewrite Hm.
  split; [|split].
  - intros Hp Hcall. unfold Device.call_method. rewrite Hp. cbn.
    now rewrite Hcall.
  - intros Hp e Hbind. unfold Device.call_method.
    destruct (Device.cap_params method) as [|p ps]; [contradiction|]. cbn.
    rewrite Hbind. cbn.
    now rewrite (bind_arguments_raises_TypeError _ _ _ Hbind).
  - destruct (Device.call_method method parms) as [u|e].
    + split; discriminate.
    + destruct e; split; intros H; try discriminate H; reflexivity.
Qed.

(** The executor of the examples: [mute(mode)] accepts the modes 0, 1
    and 2 and rejects any other value; [volume_up()] takes nothing. *)
Lemma C5_witness :
  let mute := Device.mkCapability ["mode"]
    (fun args => match args with
                 | [VInt 0] | [VInt 1] | [VInt 2] => Ok tt
                 | _ => Raise ValueError
                 end) in
  let volume_up := Device.mkCapability [] (fun _ => Ok tt) in
  let executor (name : string) :=
    if String.eqb name "mute" then Some mute
    else if String.eqb name "volume_up" then Some volume_up
    else None in
  Device._execute_command executor "volume_up" (VList [VInt 1; VInt 2]) = Ok OK /\
  Device._execute_command executor "mute" (VList [VInt 1; VInt 2])
  = Raise TypeError /\
  Device._execute_command executor "mute" (VInt 7) = Ok BAD_REQUEST.
Proof.
  intros mute volume_up executor. split; [|split].
  - apply (proj1 (C5_execute_command_bad_request_is_ValueError executor
                    "volume_up" (VList [VInt 1; VInt 2]) volume_up eq_refl));
      reflexivity.
  - apply (proj1 (proj2 (C5_execute_command_bad_request_is_ValueError executor
                    "mute" (VList [VInt 1; VInt 2]) mute eq_refl)))
      with (e := TypeError).
    + discriminate.
    + reflexivity.
  - apply (proj2 (proj2 (C5_execute_command_bad_request_is_ValueError executor
                    "mute" (VInt 7) mute eq_refl))).
    reflexivity.
Defined.

(** C5 as stated fails: two positional arguments for the one-parameter
    [mute(mode)], or a keyword it does not have, are a shape mismatch,
    and [_execute_command] raises [TypeError] instead of returning
    BAD_REQUEST; with the parameterless [volume_up()] the superfluous
    arguments are dropped and the status is OK. *)
Lemma C5_counterexample :
  let mute := Device.mkCapability ["mode"] (fun _ => Ok tt) in
  let volume_up := Device.mkCapability [] (fun _ => Ok tt) in
  let executor (name : string) :=
    if String.eqb name "mute" then Some mute
    else if String.eqb name "volume_up" then Some volume_up
    else None in
  Device.bind_arguments mute (VList [VInt 1; VInt 2]) = Raise TypeError /\
  Device._execute_command executor "mute" (VList [VInt 1; VInt 2])
  = Raise TypeError /\
  Device._execute_command executor "mute" (VDict [(VStr "level", VInt 1)])
  = Raise TypeError /\
  Device._execute_command executor "volume_up" (VList [VInt 1; VInt 2])
  = Ok OK.
Proof. intros mute volume_up executor. repeat split. Qed.

(** *** Binary64 arithmetic of the volume scale *)

(** The digit count of the specification is the size of the positive. *)
Lemma digits2_pos_size (p : positive) : digits2_pos p = Pos.size p.
Proof. induction p; cbn; congruence. Qed.

(** A positive of [d] digits lies in [2^(d-1), 2^d). *)
Lemma digits2_pos_bounds (p : positive) :
  2 ^ (Z.pos (digits2_pos p) - 1) <= Z.pos p < 2 ^ Z.pos (digits2_pos p).
Proof.
  assert (H : Z.pos (digits2_pos p) = Z.log2 (Z.pos p) + 1).
  { rewrite digits2_pos_size. destruct p; cbn; lia. }
  rewrite H. replace (Z.log2 (Z.pos p) + 1 - 1) with (Z.log2 (Z.pos p)) by lia.
  pose proof (Z.log2_spec (Z.pos p) ltac:(lia)). lia.
Qed.

(** One step of the right shift halves the mantissa. *)
Lemma shr_1_m (mrs : shr_record) :
  0 <= shr_m mrs -> shr_m (shr_1 mrs) = shr_m mrs / 2.
Proof.
  destruct mrs as [m r s]. cbn [shr_m]. intros Hm.
  destruct m as [|p|p]; [reflexivity| |lia].
  destruct p; cbn [shr_1 shr_m].
  - rewrite Pos2Z.inj_xI. apply Z.div_unique with (r := 1); lia.
  - rewrite Pos2Z.inj_xO. apply Z.div_unique with (r := 0); lia.
  - reflexivity.
Qed.

Lemma shr_1_nonneg (mrs : shr_record) :
  0 <= shr_m mrs -> 0 <= shr_m (shr_1 mrs).
Proof. intros H. rewrite shr_1_m by assumption. apply Z.div_pos; lia. Qed.

Lemma iter_pos_shr_nonneg (p : positive) : forall mrs,
  0 <= shr_m mrs -> 0 <= shr_m (SpecFloat.iter_pos shr_1 p mrs).
Proof.
  induction p as [p IH|p IH|]; intros mrs Hm; cbn [SpecFloat.iter_pos];
    auto using shr_1_nonneg.
Qed.

(** [p] steps divide the mantissa by [2^p]. *)
Lemma iter_pos_shr_m (p : positive) : forall mrs,
  0 <= shr_m mrs ->
  shr_m (SpecFloat.iter_pos shr_1 p mrs) = shr_m mrs / 2 ^ Z.pos p.
Proof.
  induction p as [p IH|p IH|]; intros mrs Hm; cbn [SpecFloat.iter_pos].
  - rewrite IH by auto using iter_pos_shr_nonneg, shr_1_nonneg.
    rewrite IH by auto using shr_1_nonneg.
    rewrite shr_1_m by assumption.
    rewrite !Z.div_div by lia. f_equal.
    replace (Z.pos p~1) with (1 + Z.pos p + Z.pos p) by lia.
    rewrite !Z.pow_add_r by lia. lia.
  - rewrite IH by auto using iter_pos_shr_nonneg.
    rewrite IH by assumption.
    rewrite !Z.div_div by lia. f_equal.
    replace (Z.pos p~0) with (Z.pos p + Z.pos p) by lia.
    rewrite !Z.pow_add_r by lia. lia.
  - rewrite shr_1_m by assumption. reflexivity.
Qed.

(** Mantissa and exponent after [shr]. *)
Lemma shr_m_shr (m : Z) (l : location) (e n : Z) :
  0 <= m ->
  shr_m (fst (shr (shr_record_of_loc m l) e n)) = (if 0 <? n then m / 2 ^ n else m)
  /\ snd (shr (shr_record_of_loc m l) e n) = (if 0 <? n then e + n else e).
Proof.
  intros Hm.
  assert (Hrec : shr_m (shr_record_of_loc m l) = m) by (destruct l as [|[]]; reflexivity).
  destruct n as [|p|p]; cbn [shr fst snd Z.ltb Z.compare].
  - now rewrite Hrec.
  - rewrite iter_pos_shr_m by lia. now rewrite Hrec.
  - now rewrite Hrec.
Qed.

(** Rounding to nearest even keeps the mantissa or adds one. *)
Lemma round_nearest_even_bounds (m : Z) (l : location) :
  m <= round_nearest_even m l <= m + 1.
Proof.
  destruct l as [|[]]; cbn; try lia. destruct (Z.even m); lia.
Qed.


Lemma shifted_m_nonneg (m e : Z) : 0 <= m -> 0 <= shifted_m m e.
Proof.
  intros Hm. unfold shifted_m.
  destruct (Z.ltb_spec 0 (shift_amount m e)); [|assumption].
  apply Z.div_pos; [assumption|]. apply Z.pow_pos_nonneg; lia.
Qed.

(** One stage of [binary_round_aux] in terms of [shifted_m] and [shifted_e]. *)
Lemma shr_fexp_stage (m e : Z) (l : location) :
  0 <= m ->
  shr_m (fst (shr_fexp prec emax m e l)) = shifted_m m e /\
  snd (shr_fexp prec emax m e l) = shifted_e m e.
Proof.
  intros Hm. unfold shr_fexp, shifted_m, shifted_e, shift_amount.
  apply shr_m_shr. exact Hm.
Qed.

(** [binary_round_aux] is two such stages around a rounding that adds at
    most one. *)
Lemma binary_round_aux_stages (s : bool) (m e : Z) (l : location) :
  0 <= m ->
  exists m',
    shifted_m m e <= m' <= shifted_m m e + 1 /\
    binary_round_aux prec emax s m e l
    = finish s (shifted_m m' (shifted_e m e)) (shifted_e m' (shifted_e m e)).
Proof.
  intros Hm. unfold binary_round_aux.
  pose proof (shr_fexp_stage m e l Hm) as [Hm1 He1].
  destruct (shr_fexp prec emax m e l) as [mrs' e'].
  cbn [fst snd] in Hm1, He1. subst e'.
  set (m' := round_nearest_even (shr_m mrs') (loc_of_shr_record mrs')).
  assert (Hb : shifted_m m e <= m' <= shifted_m m e + 1).
  { rewrite <- Hm1. apply round_nearest_even_bounds. }
  exists m'. split; [exact Hb|].
  assert (Hm' : 0 <= m') by (pose proof (shifted_m_nonneg m e Hm); lia).
  pose proof (shr_fexp_stage m' (shifted_e m e) loc_Exact Hm') as [Hm2 He2].
  destruct (shr_fexp prec emax m' (shifted_e m e) loc_Exact) as [mrs'' e''].
  cbn [fst snd] in Hm2, He2. rewrite Hm2, He2. reflexivity.
Qed.


Lemma finish_signed (s : bool) (m e : Z) : 0 <= m -> signed_as s (finish s m e).
Proof.
  intros Hm. unfold finish. destruct m as [|p|p]; [reflexivity| |lia].
  destruct (e <=? emax - prec); reflexivity.
Qed.

(** Rounding a non-negative mantissa gives no NaN and keeps the sign. *)
Lemma binary_round_aux_signed (s : bool) (m e : Z) (l : location) :
  0 <= m -> signed_as s (binary_round_aux prec emax s m e l).
Proof.
  intros Hm. destruct (binary_round_aux_stages s m e l Hm) as (m' & Hb & ->).
  apply finish_signed. apply shifted_m_nonneg.
  pose proof (shifted_m_nonneg m e Hm). lia.
Qed.

Lemma Zdigits2_bounds (m : Z) :
  0 < m -> 2 ^ (Zdigits2 m - 1) <= m < 2 ^ Zdigits2 m.
Proof.
  intros Hm. destruct m as [|p|p]; try lia. cbn [Zdigits2].
  apply digits2_pos_bounds.
Qed.

Lemma Zdigits2_pos (m : Z) : 0 < m -> 0 < Zdigits2 m.
Proof. intros Hm. destruct m; cbn; lia. Qed.

Section LowerBound.

Variables mT eT : Z.
Hypothesis mT_normal : 2 ^ 52 <= mT.
Hypothesis eT_min : -1074 <= eT.


Lemma fexp_eq (x : Z) : fexp prec emax x = Z.max (x - 53) (-1074).
Proof. reflexivity. Qed.

(** A value at least a normal [mT * 2^eT] has enough digits to be normal
    itself. *)
Lemma val_ge_digits (m e : Z) :
  0 < m -> val_ge mT eT m e -> 53 + eT <= Zdigits2 m + e.
Proof.
  intros Hm Hv. unfold val_ge in Hv.
  pose proof (Zdigits2_bounds m Hm) as [_ Hd].
  pose proof (Zdigits2_pos m Hm) as Hdp.
  set (d := Zdigits2 m) in *. set (k := Z.min e eT) in *.
  destruct (Z.le_gt_cases (53 + eT) (d + e)) as [|Hlt]; [assumption|exfalso].
  assert (Hk1 : 0 <= e - k) by (unfold k; lia).
  assert (Hk2 : 0 <= eT - k) by (unfold k; lia).
  assert (H1 : m * 2 ^ (e - k) < 2 ^ d * 2 ^ (e - k)).
  { apply Z.mul_lt_mono_pos_r; [apply Z.pow_pos_nonneg; lia | exact Hd]. }
  rewrite <- Z.pow_add_r in H1 by lia.
  assert (H2 : 2 ^ (d + (e - k)) <= 2 ^ (52 + (eT - k))).
  { apply Z.pow_le_mono_r; lia. }
  rewrite (Z.pow_add_r 2 52) in H2 by lia.
  assert (H3 : 2 ^ 52 * 2 ^ (eT - k) <= mT * 2 ^ (eT - k)).
  { apply Z.mul_le_mono_nonneg_r; [apply Z.pow_nonneg; lia | exact mT_normal]. }
  lia.
Qed.

Lemma div_pow2_normal (m d : Z) :
  53 < d -> 2 ^ (d - 1) <= m -> 2 ^ 52 <= m / 2 ^ (d - 53).
Proof.
  intros Hd Hm. apply Z.div_le_lower_bound; [apply Z.pow_pos_nonneg; lia|].
  rewrite <- Z.pow_add_r by lia. replace (d - 53 + 52) with (d - 1) by lia.
  exact Hm.
Qed.

(** The stage after the rounding keeps a mantissa at or above the
    threshold there. *)
Lemma second_stage_ge (m' e1 : Z) :
  0 < m' -> eT <= e1 -> (e1 = eT -> mT <= m') ->
  ge_T mT eT (finish false (shifted_m m' e1) (shifted_e m' e1)).
Proof.
  intros Hm He Heq.
  pose proof (Zdigits2_bounds m' Hm) as [Hlo _].
  unfold shifted_m, shifted_e, shift_amount. rewrite fexp_eq.
  set (d := Zdigits2 m') in *.
  destruct (Z.ltb_spec 0 (Z.max (d + e1 - 53) (-1074) - e1)) as [Hs|Hs].
  - assert (Hsa : Z.max (d + e1 - 53) (-1074) - e1 = d - 53) by lia.
    rewrite Hsa in *.
    pose proof (div_pow2_normal m' d ltac:(lia) Hlo) as Hn.
    assert (H52 : 0 < 2 ^ 52) by (apply Z.pow_pos_nonneg; lia).
    destruct (m' / 2 ^ (d - 53)) as [|p|p]; try lia.
    cbn [finish]. destruct (_ <=? _); cbn; [left; lia | exact I].
  - destruct m' as [|p|p]; try lia.
    cbn [finish]. destruct (_ <=? _); cbn; [|exact I].
    destruct (Z.eq_dec e1 eT) as [->|]; [right; auto | left; lia].
Qed.

(** The first shift of a value at or above the threshold. *)
Lemma first_stage_ge (m e : Z) :
  0 < m -> val_ge mT eT m e ->
  0 < shifted_m m e /\ eT <= shifted_e m e /\
  (shifted_e m e = eT -> mT <= shifted_m m e).
Proof.
  intros Hm Hv.
  pose proof (val_ge_digits m e Hm Hv) as Hd.
  pose proof (Zdigits2_bounds m Hm) as [Hlo _].
  unfold shifted_m, shifted_e, shift_amount. rewrite fexp_eq.
  set (d := Zdigits2 m) in *.
  assert (Hsa : Z.max (d + e - 53) (-1074) - e = d - 53) by lia.
  rewrite Hsa.
  assert (H52 : 0 < 2 ^ 52) by (apply Z.pow_pos_nonneg; lia).
  destruct (Z.ltb_spec 0 (d - 53)) as [Hs|Hs].
  - pose proof (div_pow2_normal m d ltac:(lia) Hlo) as Hn.
    split; [lia|]. split; [lia|]. intros Heq.
    unfold val_ge in Hv. rewrite Z.min_l in Hv by lia.
    rewrite Z.sub_diag, Z.mul_1_r in Hv.
    apply Z.div_le_lower_bound; [apply Z.pow_pos_nonneg; lia|].
    replace (d - 53) with (eT - e) by lia. lia.
  - split; [lia|]. split; [lia|]. intros ->.
    unfold val_ge in Hv. rewrite Z.min_l in Hv by lia.
    rewrite Z.sub_diag in Hv. cbn in Hv. lia.
Qed.

(** Rounding is monotone at a normal threshold: a value at least
    [mT * 2^eT] rounds to a float at least that. *)
Lemma binary_round_aux_ge (m e : Z) (l : location) :
  0 < m -> val_ge mT eT m e -> ge_T mT eT (binary_round_aux prec emax false m e l).
Proof.
  intros Hm Hv.
  destruct (binary_round_aux_stages false m e l ltac:(lia)) as (m' & Hb & ->).
  destruct (first_stage_ge m e Hm Hv) as (H1 & H2 & H3).
  apply second_stage_ge; [lia | exact H2 | intros Heq; specialize (H3 Heq); lia].
Qed.

End LowerBound.

Lemma SF_100 : Prim2SF 100 = S754_finite false m100 (-46).
Proof. reflexivity. Qed.
Lemma SF_neg100 : Prim2SF (-100) = S754_finite true m100 (-46).
Proof. reflexivity. Qed.
Lemma SF_0 : Prim2SF 0 = S754_zero false.
Proof. reflexivity. Qed.
Lemma m100_eq : Z.pos m100 = 100 * 2 ^ 46.
Proof. reflexivity. Qed.

Lemma Pos_iter_xO (d m : positive) :
  Z.pos (Pos.iter xO m d) = Z.pos m * 2 ^ Z.pos d.
Proof.
  revert m. induction d as [|d IH] using Pos.peano_ind; intros m.
  - cbn. lia.
  - rewrite Pos.iter_succ, Pos2Z.inj_xO, IH, Pos2Z.inj_succ, Z.pow_succ_r by lia.
    lia.
Qed.

(** [shl_align] lowers the exponent to the requested one and keeps the
    value. *)
Lemma shl_align_spec (m : positive) (e e0 : Z) :
  snd (shl_align m e e0) = Z.min e e0 /\
  Z.pos (fst (shl_align m e e0)) = Z.pos m * 2 ^ (e - Z.min e e0).
Proof.
  unfold shl_align. destruct (e0 - e) as [|d|d] eqn:Hd; cbn [fst snd].
  - rewrite Z.min_l by lia. rewrite Z.sub_diag. cbn. lia.
  - rewrite Z.min_l by lia. rewrite Z.sub_diag. cbn. lia.
  - rewrite Z.min_r by lia. split; [reflexivity|].
    rewrite Pos_iter_xO. f_equal. f_equal. lia.
Qed.

Section Scaling.
Variables mT eT : Z.

(** [val_ge] at any common exponent below both. *)
Lemma val_ge_iff (m e k : Z) :
  k <= e -> k <= eT ->
  (val_ge mT eT m e <-> mT * 2 ^ (eT - k) <= m * 2 ^ (e - k)).
Proof.
  intros Hke HkT. unfold val_ge. set (K := Z.min e eT).
  assert (HK : k <= K) by (unfold K; lia).
  assert (HKe : K <= e) by (unfold K; lia).
  assert (HKT : K <= eT) by (unfold K; lia).
  replace (eT - k) with ((eT - K) + (K - k)) by lia.
  replace (e - k) with ((e - K) + (K - k)) by lia.
  rewrite !Z.pow_add_r by lia.
  rewrite !Z.mul_assoc.
  assert (Hp : 0 < 2 ^ (K - k)) by (apply Z.pow_pos_nonneg; lia).
  split; intros H.
  - apply Z.mul_le_mono_nonneg_r; [lia | exact H].
  - eapply Z.mul_le_mono_pos_r; eassumption.
Qed.

Lemma val_ge_shift (m e e' : Z) :
  e' <= e -> val_ge mT eT m e -> val_ge mT eT (m * 2 ^ (e - e')) e'.
Proof.
  intros He Hv.
  apply (val_ge_iff _ _ (Z.min e' eT)); [lia | lia|].
  apply (val_ge_iff _ _ (Z.min e' eT)) in Hv; [|lia|lia].
  rewrite <- Z.mul_assoc, <- Z.pow_add_r by lia.
  replace (e - e' + (e' - Z.min e' eT)) with (e - Z.min e' eT) by lia.
  exact Hv.
Qed.

End Scaling.

Lemma binary_round_ge (mT eT : Z) (m : positive) (e : Z) :
  2 ^ 52 <= mT -> -1074 <= eT ->
  val_ge mT eT (Z.pos m) e ->
  ge_T mT eT (binary_round prec emax false m e).
Proof.
  intros HmT HeT Hv. unfold binary_round.
  pose proof (shl_align_spec m e (fexp prec emax (Z.pos (digits2_pos m) + e)))
    as [He Hm].
  destruct (shl_align m e _) as [mz ez]. cbn [fst snd] in He, Hm.
  apply binary_round_aux_ge; [assumption | assumption | lia |].
  rewrite Hm, He. apply val_ge_shift; [lia | exact Hv].
Qed.

(** A valid finite float above the least exponent has 53 digits. *)
Lemma valid_normal_digits (s : bool) (m : positive) (e : Z) :
  valid_binary (S754_finite s m e) = true -> -1074 < e ->
  Z.pos (digits2_pos m) = 53.
Proof.
  cbn [SpecFloat.valid_binary]. unfold bounded, canonical_mantissa.
  rewrite andb_true_iff, fexp_eq. intros [Hc _] He.
  apply Z.eqb_eq in Hc. lia.
Qed.

Lemma valid_normal_mantissa (s : bool) (m : positive) (e : Z) :
  valid_binary (S754_finite s m e) = true -> -1074 < e ->
  2 ^ 52 <= Z.pos m < 2 ^ 53.
Proof.
  intros Hv He. pose proof (valid_normal_digits s m e Hv He) as Hd.
  pose proof (digits2_pos_bounds m) as Hb. rewrite Hd in Hb. exact Hb.
Qed.

Lemma valid_digits_le (s : bool) (m : positive) (e : Z) :
  valid_binary (S754_finite s m e) = true -> Z.pos m < 2 ^ 53.
Proof.
  cbn [SpecFloat.valid_binary]. unfold bounded, canonical_mantissa.
  rewrite andb_true_iff, fexp_eq. intros [Hc _].
  apply Z.eqb_eq in Hc.
  pose proof (digits2_pos_bounds m) as [_ Hb].
  eapply Z.lt_le_trans; [exact Hb|]. apply Z.pow_le_mono_r; lia.
Qed.

Local Abbreviation ge100 := (ge_T (Z.pos m100) (-46)).
Local Abbreviation ge1 := (ge_T (2 ^ 52) (-52)).

Lemma m100_normal : 2 ^ 52 <= Z.pos m100 < 2 ^ 53.
Proof. rewrite m100_eq. cbn. lia. Qed.

(** A float above zero is the positive infinity or positive and finite. *)
Lemma positive_cases (x : spec_float) :
  SFltb (S754_zero false) x = true ->
  x = S754_infinity false \/ exists m e, x = S754_finite false m e.
Proof.
  destruct x as [s|[|]| |[|] m e]; cbn; try discriminate; eauto.
Qed.

(** [x - (-100.0)] is at least 100.0 when [x] is positive. *)
Lemma sub_neg100_ge (x : spec_float) :
  SFltb (S754_zero false) x = true ->
  ge100 (SF64sub x (S754_finite true m100 (-46))).
Proof.
  intros Hx. destruct (positive_cases x Hx) as [->|(m & e & ->)]; [exact I|].
  unfold SF64sub, SFsub. cbn [cond_Zopp].
  pose proof (shl_align_spec m e (Z.min e (-46))) as [_ Hm].
  pose proof (shl_align_spec m100 (-46) (Z.min e (-46))) as [_ Hc].
  set (a := fst (shl_align m e (Z.min e (-46)))) in *.
  set (c := fst (shl_align m100 (-46) (Z.min e (-46)))) in *.
  replace (Z.pos a - - Z.pos c) with (Z.pos (a + c)) by lia.
  cbn [binary_normalize].
  pose proof m100_normal.
  apply binary_round_ge; [lia | lia |].
  apply (val_ge_iff _ _ _ _ (Z.min e (-46))); [lia | lia |].
  replace (Z.min (-46) (Z.min e (-46))) with (Z.min e (-46)) in Hc by lia.
  rewrite Z.sub_diag, Z.mul_1_r, Pos2Z.inj_add, Hc. lia.
Qed.

(** The quotient the division computes for two normal mantissas. *)
Lemma SFdiv_core_normal (m1 m2 : positive) (e1 e2 : Z) :
  Z.pos (digits2_pos m1) = 53 -> Z.pos (digits2_pos m2) = 53 ->
  -1074 <= e1 - e2 - 53 ->
  SFdiv_core_binary prec emax (Z.pos m1) e1 (Z.pos m2) e2
  = (Z.pos m1 * 2 ^ 53 / Z.pos m2, e1 - e2 - 53,
     new_location (Z.pos m2) (Z.pos m1 * 2 ^ 53 mod Z.pos m2)).
Proof.
  intros H1 H2 He. unfold SFdiv_core_binary. cbn [Zdigits2].
  rewrite H1, H2, fexp_eq.
  replace (Z.min (Z.max (53 + e1 - (53 + e2) - 53) (-1074)) (e1 - e2))
    with (e1 - e2 - 53) by lia.
  replace (e1 - e2 - (e1 - e2 - 53)) with 53 by lia.
  rewrite Z.shiftl_mul_pow2 by lia.
  unfold Z.div, Z.modulo.
  now destruct (Z.div_eucl (Z.pos m1 * 2 ^ 53) (Z.pos m2)).
Qed.

(** [y / 100.0] is at least 1.0 when [y] is at least 100.0. *)
Lemma div_100_ge (y : spec_float) :
  valid_binary y = true -> ge100 y ->
  ge1 (SF64div y (S754_finite false m100 (-46))).
Proof.
  intros Hv Hy. destruct y as [s|[|]| |[|] m e]; cbn in Hy; try contradiction.
  - exact I.
  - assert (He : -46 <= e) by lia.
    pose proof (valid_normal_digits _ _ _ Hv ltac:(lia)) as Hd.
    pose proof (valid_normal_mantissa _ _ _ Hv ltac:(lia)) as Hm.
    unfold SF64div, SFdiv.
    rewrite (SFdiv_core_normal m m100 e (-46) Hd eq_refl ltac:(lia)).
    cbn [xorb].
    pose proof m100_normal as H100.
    assert (Hq : 2 ^ 52 <= Z.pos m * 2 ^ 53 / Z.pos m100).
    { apply Z.div_le_lower_bound; [lia|].
      replace (2 ^ 53) with (2 * 2 ^ 52) by reflexivity. nia. }
    apply binary_round_aux_ge; [lia | lia | lia |].
    destruct Hy as [Hgt|[-> Hge]].
    + apply (val_ge_iff _ _ _ _ (-52)); [lia | lia |].
      rewrite Z.sub_diag, Z.mul_1_r.
      assert (0 < 2 ^ (e - -46 - 53 - -52)) by (apply Z.pow_pos_nonneg; lia).
      nia.
    + apply (val_ge_iff _ _ _ _ (-53)); [lia | lia |].
      replace (-52 - -53) with 1 by lia.
      replace (-46 - -46 - 53 - -53) with 0 by lia.
      rewrite Z.mul_1_r. change (2 ^ 52 * 2 ^ 1) with (2 ^ 53).
      apply Z.div_le_lower_bound; [lia|]. nia.
Qed.

(** [q * 100.0] is at least 100.0 when [q] is at least 1.0. *)
Lemma mul_100_ge (q : spec_float) :
  valid_binary q = true -> ge1 q ->
  ge100 (SF64mul q (S754_finite false m100 (-46))).
Proof.
  intros Hv Hq. destruct q as [s|[|]| |[|] m e]; cbn in Hq; try contradiction.
  - exact I.
  - assert (He : -52 <= e) by lia.
    pose proof (valid_normal_mantissa _ _ _ Hv ltac:(lia)) as Hm.
    unfold SF64mul, SFmul. cbn [xorb].
    pose proof m100_normal as H100.
    apply binary_round_aux_ge; [lia | lia | lia |].
    rewrite Pos2Z.inj_mul.
    destruct (Z.le_gt_cases 0 e) as [Hpos|Hneg].
    + apply (val_ge_iff _ _ _ _ (-46)); [lia | lia |].
      rewrite Z.sub_diag, Z.mul_1_r.
      assert (0 < 2 ^ (e + -46 - -46)) by (apply Z.pow_pos_nonneg; lia).
      nia.
    + apply (val_ge_iff _ _ _ _ (e + -46)); [lia | lia |].
      rewrite Z.sub_diag, Z.mul_1_r.
      replace (-46 - (e + -46)) with (- e) by lia.
      assert (2 ^ (- e) <= 2 ^ 52) by (apply Z.pow_le_mono_r; lia).
      nia.
Qed.

Lemma compare_cont_ge (m c : positive) :
  Z.pos c <= Z.pos m -> Pos.compare_cont Eq m c <> Lt.
Proof.
  intros H Hc. apply -> Pos.compare_lt_iff in Hc. lia.
Qed.

Lemma ltb_finite_ge (m c : positive) (e : Z) :
  Z.pos c <= Z.pos m ->
  SFltb (S754_finite false m e) (S754_finite false c e) = false.
Proof.
  intros H. unfold SFltb, SFcompare. rewrite Z.compare_refl.
  pose proof (compare_cont_ge m c H).
  now destruct (Pos.compare_cont Eq m c).
Qed.

Lemma ltb_finite_gt (m c : positive) (e e' : Z) :
  e' < e ->
  SFltb (S754_finite false m e) (S754_finite false c e') = false.
Proof.
  intros H. unfold SFltb, SFcompare.
  destruct (Z.compare_spec e e'); try lia; reflexivity.
Qed.

(** A float at least 100.0 is not below 100.0. *)
Lemma ge100_not_lt (r : spec_float) :
  ge100 r -> SFltb r (S754_finite false m100 (-46)) = false.
Proof.
  intros Hr. destruct r as [s|[|]| |[|] m e]; cbn in Hr; try contradiction.
  - reflexivity.
  - destruct Hr as [Hgt|[-> Hge]].
    + now apply ltb_finite_gt.
    + now apply ltb_finite_ge.
Qed.


Local Abbreviation percent_of x :=
  ((x - (-100)) / (0 - (-100)) * 100)%float.
Local Abbreviation clamp_int x :=
  (int_of_float (py_max 0%float (py_min 100%float (percent_of x)))).

Lemma scale_width : (0 - (-100))%float = 100%float.
Proof. reflexivity. Qed.

Lemma percent_of_spec (x : float) :
  Prim2SF (percent_of x)
  = SF64mul
      (SF64div (SF64sub (Prim2SF x) (S754_finite true m100 (-46)))
         (S754_finite false m100 (-46)))
      (S754_finite false m100 (-46)).
Proof.
  rewrite scale_width.
  rewrite mul_spec, div_spec, sub_spec, SF_100, SF_neg100. reflexivity.
Qed.

(** The percentage of a positive dB value is not below 100.0. *)
Lemma percent_above (x : float) :
  PrimFloat.ltb 0 x = true -> PrimFloat.ltb (percent_of x) 100 = false.
Proof.
  intros Hx. rewrite ltb_spec, SF_0 in Hx.
  rewrite ltb_spec, SF_100.
  apply ge100_not_lt.
  rewrite scale_width.
  rewrite mul_spec, SF_100. apply mul_100_ge; [apply Prim2SF_valid|].
  rewrite div_spec, SF_100. apply div_100_ge; [apply Prim2SF_valid|].
  rewrite sub_spec, SF_neg100. now apply sub_neg100_ge.
Qed.

(** Above 0.0 dB the clamp gives 100. *)
Lemma clamp_above (x : float) :
  PrimFloat.ltb 0 x = true -> clamp_int x = Ok 100.
Proof.
  intros Hx. unfold py_min. rewrite (percent_above x Hx).
  reflexivity.
Qed.

Lemma compare_cont_gt (m c : positive) :
  Pos.compare_cont Eq m c = Gt -> Z.pos c < Z.pos m.
Proof. intros Hc. apply -> Pos.compare_gt_iff in Hc. lia. Qed.

(** The floats below [-c * 2^-46]. *)
Lemma below_neg_cases (c : positive) (x : spec_float) :
  SFltb x (S754_finite true c (-46)) = true ->
  x = S754_infinity true \/
  exists m e, x = S754_finite true m e /\
              (-46 < e \/ (e = -46 /\ Z.pos c < Z.pos m)).
Proof.
  unfold SFltb, SFcompare.
  destruct x as [s|[|]| |[|] m e]; try discriminate; auto.
  destruct (Z.compare_spec e (-46)) as [->|Hlt|Hgt]; try discriminate.
  - destruct (Pos.compare_cont Eq m c) eqn:Hc; try discriminate.
    intros _. right. exists m, (-46). split; [reflexivity|].
    right. split; [reflexivity|]. now apply compare_cont_gt.
  - intros _. right. exists m, e. split; [reflexivity|]. left. lia.
Qed.

Lemma binary_round_signed (s : bool) (m : positive) (e : Z) :
  signed_as s (binary_round prec emax s m e).
Proof.
  unfold binary_round. destruct (shl_align m e _) as [mz ez].
  apply binary_round_aux_signed. lia.
Qed.

(** [x - (-100.0)] is negative (or a negative zero) when [x] is below
    -100.0. *)
Lemma sub_neg100_signed (x : spec_float) :
  valid_binary x = true ->
  SFltb x (S754_finite true m100 (-46)) = true ->
  signed_as true (SF64sub x (S754_finite true m100 (-46))).
Proof.
  intros Hv Hx.
  destruct (below_neg_cases m100 x Hx) as [->|(m & e & -> & He)];
    [reflexivity|].
  unfold SF64sub, SFsub. cbn [cond_Zopp].
  pose proof (shl_align_spec m e (Z.min e (-46))) as [_ Hm].
  pose proof (shl_align_spec m100 (-46) (Z.min e (-46))) as [_ Hc].
  set (a := fst (shl_align m e (Z.min e (-46)))) in *.
  set (c := fst (shl_align m100 (-46) (Z.min e (-46)))) in *.
  replace (Z.min (-46) (Z.min e (-46))) with (-46) in Hc by lia.
  replace (Z.min e (Z.min e (-46))) with (-46) in Hm by lia.
  rewrite Z.sub_diag, Z.mul_1_r in Hc.
  pose proof m100_normal as H100.
  assert (Hac : Z.pos c < Z.pos a).
  { rewrite Hc, Hm. destruct He as [Hgt|[-> Hgt]].
    - pose proof (valid_normal_mantissa _ _ _ Hv ltac:(lia)) as Hn.
      assert (2 <= 2 ^ (e - -46)).
      { change 2 with (2 ^ 1) at 1. apply Z.pow_le_mono_r; lia. }
      nia.
    - rewrite Z.sub_diag. lia. }
  destruct (- Z.pos a - - Z.pos c) as [|p|p] eqn:Hd; try lia.
  cbn [binary_normalize]. apply binary_round_signed.
Qed.

Lemma SFdiv_core_nonneg (m1 m2 : positive) (e1 e2 : Z) :
  0 <= fst (fst (SFdiv_core_binary prec emax (Z.pos m1) e1 (Z.pos m2) e2)).
Proof.
  unfold SFdiv_core_binary.
  set (s := _ - _ - _).
  set (m' := match s with Z0 => Z.pos m1 | Z.pos _ => Z.shiftl (Z.pos m1) s
             | Z.neg _ => 0 end).
  assert (Hm' : 0 <= m').
  { unfold m'. destruct s; try lia. apply Z.shiftl_nonneg. lia. }
  pose proof (Z.div_pos m' (Z.pos m2) Hm' ltac:(lia)) as Hq.
  unfold Z.div in Hq. destruct (Z.div_eucl m' (Z.pos m2)). exact Hq.
Qed.

Lemma div_100_signed (y : spec_float) :
  signed_as true y ->
  signed_as true (SF64div y (S754_finite false m100 (-46))).
Proof.
  destruct y as [s|s| |s m e]; cbn [signed_as]; try contradiction;
    intros ->; try reflexivity.
  unfold SF64div, SFdiv.
  pose proof (SFdiv_core_nonneg m m100 e (-46)) as Hq.
  destruct (SFdiv_core_binary _ _ _ _ _ _) as [[mz ez] lz].
  cbn [fst] in Hq. cbn [xorb]. now apply binary_round_aux_signed.
Qed.

Lemma mul_100_signed (q : spec_float) :
  signed_as true q ->
  signed_as true (SF64mul q (S754_finite false m100 (-46))).
Proof.
  destruct q as [s|s| |s m e]; cbn [signed_as]; try contradiction;
    intros ->; try reflexivity.
  unfold SF64mul, SFmul. cbn [xorb]. apply binary_round_aux_signed. lia.
Qed.

(** A negative float, zero included, is below any positive one and not
    above zero. *)
Lemma signed_true_order (c : positive) (e : Z) (r : spec_float) :
  signed_as true r ->
  SFltb r (S754_finite false c e) = true /\
  SFltb (S754_zero false) r = false.
Proof.
  destruct r as [s|s| |s m' e']; cbn [signed_as]; try contradiction;
    intros ->; split; reflexivity.
Qed.

(** Below -100.0 dB the clamp gives 0. *)
Lemma clamp_below (x : float) :
  PrimFloat.ltb x (-100) = true -> clamp_int x = Ok 0.
Proof.
  intros Hx. rewrite ltb_spec, SF_neg100 in Hx.
  assert (Hs : signed_as true (Prim2SF (percent_of x))).
  { rewrite percent_of_spec. apply mul_100_signed, div_100_signed.
    apply sub_neg100_signed; [apply Prim2SF_valid | exact Hx]. }
  destruct (signed_true_order m100 (-46) _ Hs) as [Hlt Hpos].
  unfold py_min, py_max.
  rewrite (ltb_spec (percent_of x) 100), SF_100, Hlt.
  rewrite (ltb_spec 0 (percent_of x)), SF_0, Hpos.
  reflexivity.
Qed.

Lemma compare_cont_lt (m c : positive) :
  Pos.compare_cont Eq m c = Lt -> Z.pos m < Z.pos c.
Proof. intros Hc. apply -> Pos.compare_lt_iff in Hc. lia. Qed.

(** The clamped percentage converts to an integer of the scale. *)
Lemma clamp_range (x : float) :
  exists z, clamp_int x = Ok z /\ 0 <= z <= 100.
Proof.
  unfold py_min, py_max. set (p := percent_of x).
  destruct (PrimFloat.ltb p 100) eqn:Hlt;
    [|exists 100; split; [reflexivity | lia]].
  destruct (PrimFloat.ltb 0 p) eqn:Hpos;
    [|exists 0; split; [reflexivity | lia]].
  rewrite ltb_spec, SF_100 in Hlt. rewrite ltb_spec, SF_0 in Hpos.
  pose proof (Prim2SF_valid p) as Hv.
  unfold int_of_float.
  destruct (Prim2SF p) as [s|s| |s m e]; try discriminate.
  - destruct s; discriminate.
  - destruct s; [discriminate|].
    pose proof (valid_digits_le _ _ _ Hv) as Hm.
    assert (He : e < -46 \/ (e = -46 /\ Z.pos m < Z.pos m100)).
    { unfold SFltb, SFcompare in Hlt.
      destruct (Z.compare_spec e (-46)) as [Heq|Hl|Hg]; try discriminate.
      - right. split; [exact Heq|].
        destruct (Pos.compare_cont Eq m m100) eqn:Hc; try discriminate.
        now apply compare_cont_lt.
      - left. exact Hl. }
    assert (Hneg : (0 <=? e) = false) by (apply Z.leb_gt; lia).
    rewrite Hneg. cbn [cond_Zopp]. eexists. split; [reflexivity|].
    split; [apply Z.div_pos; [lia | apply Z.pow_pos_nonneg; lia]|].
    apply Z.lt_le_incl, Z.div_lt_upper_bound; [apply Z.pow_pos_nonneg; lia|].
    destruct He as [Hl|[-> Hl]].
    + assert (2 ^ 47 <= 2 ^ (- e)) by (apply Z.pow_le_mono_r; lia).
      change (2 ^ 53) with (64 * 2 ^ 47) in Hm. nia.
    + change (- -46) with 46. rewrite m100_eq in Hl. lia.
Qed.

(** *** Percent and dB *)

Section VolumeFacts.

Context {K : Type}.
Implicit Types d : Device.TrinnovDevice K.

(** [volume_percent] reads the cached volume only. *)
Lemma volume_percent_reads_volume d (db : PyVal) :
  Device.volume_percent (Device.set_attr_volume db d)
  = Device.volume_percent
      (Device.set_attr_volume db (Device.new_device (K := K) "" "" [] [])).
Proof. reflexivity. Qed.

Lemma read_back_table : forallb read_back_agrees (seq 0 101) = true.
Proof. vm_compute. reflexivity. Qed.

(** The round trip over the whole scale: every percentage comes back as
    itself except 29, 57 and 58, which come back one lower. *)
Lemma round_trip_on_scale d (p : Z) :
  0 <= p <= 100 ->
  Device.volume_percent
    (Device.set_attr_volume (VFloat (Device.percent_to_db p)) d)
  = Ok (expected_read_back p).
Proof.
  intros Hp.
  pose proof read_back_table as Htab. rewrite forallb_forall in Htab.
  specialize (Htab (Z.to_nat p)).
  assert (Hin : In (Z.to_nat p) (seq 0 101)) by (apply in_seq; lia).
  specialize (Htab Hin). unfold read_back_agrees in Htab.
  rewrite Z2Nat.id in Htab by lia.
  change (Device.volume_percent
            (Device.set_attr_volume (VFloat (Device.percent_to_db p)) d))
    with (read_back p).
  destruct (read_back p) as [q|e]; [|discriminate].
  apply Z.eqb_eq in Htab. now subst.
Qed.

(** In particular the round trip is never off by more than one. *)
Lemma round_trip_within_one d (p : Z) :
  0 <= p <= 100 ->
  exists q,
    Device.volume_percent
      (Device.set_attr_volume (VFloat (Device.percent_to_db p)) d)
    = Ok q /\ p - 1 <= q <= p.
Proof.
  intros Hp. rewrite (round_trip_on_scale d p Hp).
  eexists. split; [reflexivity|].
  unfold expected_read_back. destruct (existsb _ _); lia.
Qed.

(** On a cached float [volume_percent] is the clamped percentage. *)
Lemma volume_percent_of_float d (x : float) :
  Device._attr_volume d = VFloat x ->
  Device.volume_percent d = clamp_int x.
Proof. intros H. unfold Device.volume_percent. now rewrite H. Qed.

(** On a cached float [volume_percent] never raises and stays on the
    scale. *)
Lemma volume_percent_range d (x : float) :
  Device._attr_volume d = VFloat x ->
  exists z, Device.volume_percent d = Ok z /\ 0 <= z <= 100.
Proof.
  intros H. rewrite (volume_percent_of_float d x H). exact (clamp_range x).
Qed.

(** Every dB value above 0.0 reads 100 %. *)
Lemma volume_percent_clamps_above d (x : float) :
  Device._attr_volume d = VFloat x ->
  PrimFloat.ltb 0 x = true ->
  Device.volume_percent d = Ok 100.
Proof.
  intros H. rewrite (volume_percent_of_float d x H). exact (clamp_above x).
Qed.

(** Every dB value below -100.0 reads 0 %. *)
Lemma volume_percent_clamps_below d (x : float) :
  Device._attr_volume d = VFloat x ->
  PrimFloat.ltb x (-100) = true ->
  Device.volume_percent d = Ok 0.
Proof.
  intros H. rewrite (volume_percent_of_float d x H). exact (clamp_below x).
Qed.

End VolumeFacts.

(** C2, on the code.  With 29 % the dB value is -71.0, and reading it
    back gives 28 %: the quotient 0.29 times 100 is
    28.999999999999996, which [int] truncates.  The same happens at 57
    and 58.  The clamps of the examples hold: -150 dB reads 0 % and
    50 dB reads 100 %. *)
Theorem C2_round_trip_truncates_at_29
    (K : Type) (d : Device.TrinnovDevice K) :
  Device.percent_to_db 29 = (-71)%float /\
  Device.volume_percent
    (Device.set_attr_volume (VFloat (Device.percent_to_db 29)) d)
  = Ok 28 /\
  Device.volume_percent
    (Device.set_attr_volume (VFloat (Device.percent_to_db 57)) d)
  = Ok 56 /\
  Device.volume_percent
    (Device.set_attr_volume (VFloat (Device.percent_to_db 58)) d)
  = Ok 57 /\
  Device.volume_percent (Device.set_attr_volume (VFloat (-150)) d) = Ok 0 /\
  Device.volume_percent (Device.set_attr_volume (VFloat 50) d) = Ok 100.
Proof.
  split; [vm_compute; reflexivity|].
  rewrite !(volume_percent_reads_volume d).
  repeat split; vm_compute; reflexivity.
Qed.


(** *** The readiness probe and the wait loop *)

Section ReadinessFacts.

Import Readiness.
Local Open Scope list_scope.

Local Ltac await_kind :=
  cbn beta; unfold port80_await, port44100_await;
  repeat match goal with
         | |- context [if ?b then _ else _] => destruct b
         end;
  auto 6.

Local Ltac kinds :=
  repeat (apply List.Forall_cons; [await_kind|]); apply List.Forall_nil.

Local Ltac used_up :=
  first [ exists []; reflexivity
        | eexists [_]; reflexivity
        | eexists [_; _]; reflexivity ].

Local Ltac leaf H :=
  injection H as <- <- <-;
  repeat split; intros; try discriminate; try congruence;
  try (kinds; fail); try (cbn; auto; fail); try (used_up; fail).

(** The second loop of the probe: what every run of it looks like. *)
Lemma probe_44100_runs (n : nat) : forall (first_attempt : bool)
    (answers : list Answer) (o : Outcome bool) (t : list Await)
    (rest : list Answer),
  (length answers <= n)%nat ->
  probe_44100 first_attempt answers = (o, t, rest) ->
  Forall port44100_await t /\
  (o = Returned true -> exists mid, t = mid ++ [CheckTcpPort 44100; GetWsEthernet]) /\
  (o = Returned false -> In Cancel answers) /\
  (o = Crashed -> In Crash answers) /\
  o <> Cancelled /\
  (o = Pending -> rest = []) /\
  (exists used, answers = used ++ rest).
Proof.
  induction n as [|n IH]; intros first_attempt answers o t rest Hlen H.
  - destruct answers; [|cbn in Hlen; lia]. cbn in H. leaf H.
  - destruct answers as [|a [|b answers']]; cbn in H.
    + leaf H.
    + destruct a; leaf H.
    + assert (Hlen' : (length answers' <= n)%nat) by (cbn in Hlen; lia).
      assert (Hrec : forall fa pause o' t' r,
                port44100_await pause ->
                probe_44100 fa answers' = (o', t', r) ->
                Forall port44100_await (CheckTcpPort 44100 :: pause :: t') /\
                (o' = Returned true ->
                 exists mid, CheckTcpPort 44100 :: pause :: t'
                             = mid ++ [CheckTcpPort 44100; GetWsEthernet]) /\
                (o' = Returned false -> In Cancel (a :: b :: answers')) /\
                (o' = Crashed -> In Crash (a :: b :: answers')) /\
                o' <> Cancelled /\
                (o' = Pending -> r = []) /\
                (exists used, a :: b :: answers' = used ++ r)).
      { intros fa pause o' t' r Hp E.
        destruct (IH _ _ _ _ _ Hlen' E)
          as (Hall & Hready & Hc & Hx & Hn & Hpend & used & Hused).
        repeat split; auto.
        - constructor; [await_kind|]. constructor; assumption.
        - intros Ho. destruct (Hready Ho) as (mid & ->).
          now exists (CheckTcpPort 44100 :: pause :: mid).
        - intros Ho. right. right. auto.
        - intros Ho. right. right. auto.
        - exists (a :: b :: used). now rewrite Hused. }
      destruct a; [destruct b | destruct b | |]; try (leaf H; fail).
      * destruct (probe_44100 first_attempt answers') as [[o' t'] r] eqn:E.
        injection H as <- <- <-. eapply Hrec; [|exact E]. await_kind.
      * destruct (probe_44100 false answers') as [[o' t'] r] eqn:E.
        injection H as <- <- <-. eapply Hrec; [|exact E]. await_kind.
      * destruct (probe_44100 false answers') as [[o' t'] r] eqn:E.
        injection H as <- <- <-. eapply Hrec; [|exact E]. await_kind.
Qed.

(** [wait_for_device_ready]: what every run of it looks like. *)
Lemma wait_for_device_ready_runs (n : nat) : forall (answers : list Answer)
    (o : Outcome bool) (t : list Await) (rest : list Answer),
  (length answers <= n)%nat ->
  wait_for_device_ready answers = (o, t, rest) ->
  Forall (fun a => port80_await a \/ port44100_await a) t /\
  (o = Returned true ->
   exists pre mid,
     t = pre ++ [CheckTcpPort 80; SleepFor 2] ++ mid
           ++ [CheckTcpPort 44100; GetWsEthernet] /\
     Forall port80_await pre /\ Forall port44100_await mid) /\
  (o = Returned false -> In Cancel answers) /\
  (o = Crashed -> In Crash answers) /\
  o <> Cancelled /\
  (o = Pending -> rest = []) /\
  (exists used, answers = used ++ rest /\ (answers <> [] -> used <> [])).
Proof.
  induction n as [|n IH]; intros answers o t rest Hlen H.
  - destruct answers; [|cbn in Hlen; lia]. cbn in H.
    injection H as <- <- <-. repeat split; try discriminate.
    + kinds.
    + exists []. split; [reflexivity | congruence].
  - destruct answers as [|a [|b answers']]; cbn in H.
    + injection H as <- <- <-. repeat split; try discriminate.
      * kinds.
      * exists []. split; [reflexivity | congruence].
    + destruct a; injection H as <- <- <-; repeat split; intros;
        try discriminate; try (kinds; fail); try (cbn; auto; fail);
        (eexists [_]; split; [reflexivity | discriminate]).
    + assert (Hlen' : (length answers' <= n)%nat) by (cbn in Hlen; lia).
      assert (Hloop : forall o' t' r,
                wait_for_device_ready answers' = (o', t', r) ->
                Forall (fun a => port80_await a \/ port44100_await a)
                       (CheckTcpPort 80 :: SleepFor 10 :: t') /\
                (o' = Returned true ->
                 exists pre mid,
                   CheckTcpPort 80 :: SleepFor 10 :: t'
                   = pre ++ [CheckTcpPort 80; SleepFor 2] ++ mid
                         ++ [CheckTcpPort 44100; GetWsEthernet] /\
                   Forall port80_await pre /\ Forall port44100_await mid) /\
                (o' = Returned false -> In Cancel (a :: b :: answers')) /\
                (o' = Crashed -> In Crash (a :: b :: answers')) /\
                o' <> Cancelled /\
                (o' = Pending -> r = []) /\
                (exists used, a :: b :: answers' = used ++ r /\
                              (a :: b :: answers' <> [] -> used <> []))).
      { intros o' t' r E.
        destruct (IH _ _ _ _ Hlen' E)
          as (Hall & Hready & Hc & Hx & Hn & Hpend & used & Hused & _).
        repeat split; auto.
        - constructor; [await_kind|]. constructor; [await_kind | assumption].
        - intros Ho. destruct (Hready Ho) as (pre & mid & -> & Hpre & Hmid).
          exists (CheckTcpPort 80 :: SleepFor 10 :: pre), mid.
          split; [reflexivity|]. split; [|assumption].
          constructor; [await_kind|]. constructor; [await_kind | assumption].
        - intros Ho. right. right. auto.
        - intros Ho. right. right. auto.
        - exists (a :: b :: used). split; [now rewrite Hused | discriminate]. }
      assert (Hprobe : forall o' t' r,
                probe_44100 true answers' = (o', t', r) ->
                Forall (fun a => port80_await a \/ port44100_await a)
                       (CheckTcpPort 80 :: SleepFor 2 :: t') /\
                (o' = Returned true ->
                 exists pre mid,
                   CheckTcpPort 80 :: SleepFor 2 :: t'
                   = pre ++ [CheckTcpPort 80; SleepFor 2] ++ mid
                         ++ [CheckTcpPort 44100; GetWsEthernet] /\
                   Forall port80_await pre /\ Forall port44100_await mid) /\
                (o' = Returned false -> In Cancel (a :: b :: answers')) /\
                (o' = Crashed -> In Crash (a :: b :: answers')) /\
                o' <> Cancelled /\
                (o' = Pending -> r = []) /\
                (exists used, a :: b :: answers' = used ++ r /\
                              (a :: b :: answers' <> [] -> used <> []))).
      { intros o' t' r E.
        destruct (probe_44100_runs (length answers') _ _ _ _ _ (Nat.le_refl _) E)
          as (Hall & Hready & Hc & Hx & Hn & Hpend & used & Hused).
        repeat split; auto.
        - constructor; [await_kind|]. constructor; [await_kind|].
          eapply List.Forall_impl; [|exact Hall]. cbn. auto.
        - intros Ho. destruct (Hready Ho) as (mid & ->).
          exists [], mid. split; [reflexivity|]. split; [constructor|].
          apply Forall_app in Hall. tauto.
        - intros Ho. right. right. auto.
        - intros Ho. right. right. auto.
        - exists (a :: b :: used). split; [now rewrite Hused | discriminate]. }
      destruct a; [destruct b | destruct b | |];
        try (destruct (probe_44100 true answers') as [[o' t'] r] eqn:E;
             injection H as <- <- <-; now apply Hprobe);
        try (destruct (wait_for_device_ready answers') as [[o' t'] r] eqn:E;
             injection H as <- <- <-; now apply Hloop);
        injection H as <- <- <-; repeat split; intros;
        try discriminate; try (kinds; fail); try (cbn; auto; fail);
        first [ eexists [_]; split; [reflexivity | discriminate]
              | eexists [_; _]; split; [reflexivity | discriminate] ].
Qed.

End ReadinessFacts.

Section WaitLoopFacts.
Import Readiness.
Local Open Scope list_scope.

Lemma total_sleep_app (t1 t2 : list Await) :
  total_sleep (t1 ++ t2) = total_sleep t1 + total_sleep t2.
Proof.
  induction t1 as [|a t1 IH]; [reflexivity|].
  destruct a; cbn [total_sleep app]; rewrite ?IH; lia.
Qed.

Lemma wait_loop_rounds_runs (rounds : nat) : forall (answers : list Answer)
    (o : Outcome unit) (t : list Await) (rest : list Answer),
  (length answers < rounds)%nat ->
  wait_loop_rounds rounds answers = (o, t, rest) ->
  (o = Returned tt ->
   In Cancel answers \/ exists t0, t = t0 ++ [GetWsEthernet; DeviceOpen None]) /\
  (o = Cancelled -> In Cancel answers) /\
  (o = Crashed -> In Crash answers) /\
  (o = Pending -> rest = []) /\
  (exists used, answers = used ++ rest).
Proof.
  induction rounds as [|rounds IH]; intros answers o t rest Hlen H; [lia|].
  cbn [wait_loop_rounds] in H.
  destruct (wait_for_device_ready answers) as [[o1 t1] r1] eqn:E.
  destruct (wait_for_device_ready_runs _ _ _ _ _ (Nat.le_refl _) E)
    as (_ & Hready & Hc & Hx & Hn & Hpend & used & Hused & Hnonempty).
  destruct o1 as [[|]| | |].
  - destruct (Hready eq_refl) as (pre & mid & -> & _ & _).
    assert (Hshape : forall tail,
              exists t0, (pre ++ [CheckTcpPort 80; SleepFor 2] ++ mid ++
                          [CheckTcpPort 44100; GetWsEthernet]) ++ DeviceOpen None :: tail
                         = t0 ++ [GetWsEthernet; DeviceOpen None] ++ tail).
    { intros tail.
      exists (pre ++ [CheckTcpPort 80; SleepFor 2] ++ mid ++ [CheckTcpPort 44100]).
      repeat (rewrite <- ?List.app_assoc; cbn [app]). reflexivity. }
    destruct r1 as [|a r1].
    + injection H as <- <- <-.
      repeat split; intros; try discriminate; auto.
      exists used. assumption.
    + destruct a.
      * injection H as <- <- <-.
        repeat split; intros; try discriminate.
        -- right. destruct (Hshape []) as (t0 & Ht0). exists t0. exact Ht0.
        -- exists (used ++ [Yes]). rewrite <- List.app_assoc. exact Hused.
      * destruct r1 as [|b r1].
        -- injection H as <- <- <-.
           repeat split; intros; try discriminate; auto.
           exists (used ++ [No]). rewrite <- List.app_assoc. exact Hused.
        -- assert (Hin : forall x, In x (No :: b :: r1) -> In x answers).
           { intros x Hx'. rewrite Hused. apply List.in_or_app. now right. }
           assert (Hlen' : (length r1 < rounds)%nat).
           { rewrite Hused in Hlen. rewrite List.length_app in Hlen.
             cbn in Hlen. lia. }
           assert (Hrec : forall o' t' r',
                     wait_loop_rounds rounds r1 = (o', t', r') ->
                     (o' = Returned tt ->
                      In Cancel answers \/
                      exists t0,
                        (pre ++ [CheckTcpPort 80; SleepFor 2] ++ mid ++
                         [CheckTcpPort 44100; GetWsEthernet]) ++
                        [DeviceOpen None; SleepFor 10] ++ t'
                        = t0 ++ [GetWsEthernet; DeviceOpen None]) /\
                     (o' = Cancelled -> In Cancel answers) /\
                     (o' = Crashed -> In Crash answers) /\
                     (o' = Pending -> r' = []) /\
                     (exists used', answers = used' ++ r')).
           { intros o' t' r' E'.
             destruct (IH _ _ _ _ Hlen' E') as (Hr & Hc' & Hx' & Hp' & used' & Hused').
             repeat split; auto.
             - intros Ho. destruct (Hr Ho) as [Hcan | (t0 & ->)].
               + left. apply Hin. right. right. exact Hcan.
               + right. eexists. rewrite !List.app_assoc. reflexivity.
             - intros Ho. apply Hin. right. right. auto.
             - intros Ho. apply Hin. right. right. auto.
             - exists (used ++ No :: b :: used').
               rewrite Hused at 1. rewrite Hused'.
               rewrite <- List.app_assoc. reflexivity. }
           destruct b;
             try (destruct (wait_loop_rounds rounds r1) as [[o' t'] r'] eqn:E';
                  injection H as <- <- <-; now apply Hrec);
             injection H as <- <- <-;
             (repeat split; intros; try discriminate;
              [ apply Hin; cbn; auto
              | eexists (used ++ [No; _]); rewrite <- List.app_assoc; exact Hused ]).
      * injection H as <- <- <-.
        repeat split; intros; try discriminate.
        -- rewrite Hused. apply List.in_or_app. right. now left.
        -- exists (used ++ [Cancel]). rewrite <- List.app_assoc. exact Hused.
      * injection H as <- <- <-.
        repeat split; intros; try discriminate.
        -- rewrite Hused. apply List.in_or_app. right. now left.
        -- exists (used ++ [Crash]). rewrite <- List.app_assoc. exact Hused.
  - injection H as <- <- <-.
    repeat split; intros; try discriminate; auto.
    exists used. assumption.
  - contradiction.
  - injection H as <- <- <-.
    repeat split; intros; try discriminate; auto.
    exists used. assumption.
  - injection H as <- <- <-.
    repeat split; intros; try discriminate; auto.
    exists used. assumption.
Qed.

End WaitLoopFacts.

Section ProbeTiming.
Import Readiness.
Local Open Scope list_scope.

(** While port 80 is closed the first loop sleeps ten seconds a try. *)
Lemma port80_closed_rounds (n : nat) (rest : list Answer) :
  wait_for_device_ready (rounds_of No Yes n ++ rest)
  = let '(o, t, r) := wait_for_device_ready rest in
    (o, concat (repeat [CheckTcpPort 80; SleepFor 10] n) ++ t, r).
Proof.
  induction n as [|n IH].
  - cbn. now destruct (wait_for_device_ready rest) as [[o t] r].
  - cbn [rounds_of app wait_for_device_ready]. rewrite IH.
    destruct (wait_for_device_ready rest) as [[o t] r]. reflexivity.
Qed.

(** While port 44100 is closed the second loop sleeps 18 seconds the
    first time and two seconds from then on. *)
Lemma port44100_closed_rounds (n : nat) (first_attempt : bool)
    (rest : list Answer) :
  probe_44100 first_attempt (rounds_of No Yes (S n) ++ rest)
  = let '(o, t, r) := probe_44100 false rest in
    (o, [CheckTcpPort 44100; SleepFor (if first_attempt then 18 else 2)]
        ++ concat (repeat [CheckTcpPort 44100; SleepFor 2] n) ++ t, r).
Proof.
  revert first_attempt. induction n as [|n IH]; intros first_attempt.
  - cbn. now destruct (probe_44100 false rest) as [[o t] r].
  - change (rounds_of No Yes (S (S n)) ++ rest)
      with (No :: Yes :: (rounds_of No Yes (S n) ++ rest)).
    cbn [probe_44100]. rewrite IH.
    destruct (probe_44100 false rest) as [[o t] r]. reflexivity.
Qed.

(** A failed handshake is followed by the next port check at once. *)
Lemma handshake_failed_rounds (n : nat) (first_attempt : bool)
    (rest : list Answer) :
  probe_44100 first_attempt (rounds_of Yes No n ++ rest)
  = let '(o, t, r) := probe_44100 first_attempt rest in
    (o, concat (repeat [CheckTcpPort 44100; GetWsEthernet] n) ++ t, r).
Proof.
  induction n as [|n IH].
  - cbn. now destruct (probe_44100 first_attempt rest) as [[o t] r].
  - cbn [rounds_of app probe_44100]. rewrite IH.
    destruct (probe_44100 first_attempt rest) as [[o t] r]. reflexivity.
Qed.

Lemma total_sleep_rounds (a : Await) (s : Z) (n : nat) :
  total_sleep [a] = 0 ->
  total_sleep (concat (repeat [a; SleepFor s] n)) = Z.of_nat n * s.
Proof.
  intros Ha. induction n as [|n IH]; [reflexivity|].
  cbn [repeat concat]. rewrite total_sleep_app, IH.
  change [a; SleepFor s] with ([a] ++ [SleepFor s]).
  rewrite total_sleep_app, Ha. cbn. lia.
Qed.

Lemma total_sleep_handshakes (n : nat) :
  total_sleep (concat (repeat [CheckTcpPort 44100; GetWsEthernet] n)) = 0.
Proof.
  induction n as [|n IH]; [reflexivity|].
  cbn [repeat concat]. rewrite total_sleep_app, IH. reflexivity.
Qed.

End ProbeTiming.

(** X1.  [wait_for_device_ready] returns [True] only after it has seen
    port 80 open, slept two seconds, and then, as the last two awaits,
    seen port 44100 open and the WebSocket handshake succeed.  Before
    port 80 opened it only checked that port and slept ten seconds;
    in between it only checked port 44100, tried the handshake and
    slept 18 or 2 seconds. *)
Theorem X1_ready_after_both_ports_and_handshake
    (answers : list Readiness.Answer) (t : list Readiness.Await)
    (rest : list Readiness.Answer) :
  Readiness.wait_for_device_ready answers = (Readiness.Returned true, t, rest) ->
  exists pre mid : list Readiness.Await,
    t = (pre ++ [Readiness.CheckTcpPort 80; Readiness.SleepFor 2] ++ mid
             ++ [Readiness.CheckTcpPort 44100; Readiness.GetWsEthernet])%list /\
    Forall Readiness.port80_await pre /\
    Forall Readiness.port44100_await mid.
Proof.
  intros H.
  destruct (wait_for_device_ready_runs _ _ _ _ _ (Nat.le_refl _) H)
    as (_ & Hready & _).
  exact (Hready eq_refl).
Qed.

Lemma X1_witness :
  exists pre mid : list Readiness.Await,
    [Readiness.CheckTcpPort 80; Readiness.SleepFor 10;
     Readiness.CheckTcpPort 80; Readiness.SleepFor 2;
     Readiness.CheckTcpPort 44100; Readiness.SleepFor 18;
     Readiness.CheckTcpPort 44100; Readiness.GetWsEthernet;
     Readiness.CheckTcpPort 44100; Readiness.GetWsEthernet]
    = (pre ++ [Readiness.CheckTcpPort 80; Readiness.SleepFor 2] ++ mid
           ++ [Readiness.CheckTcpPort 44100; Readiness.GetWsEthernet])%list /\
    Forall Readiness.port80_await pre /\
    Forall Readiness.port44100_await mid.
Proof.
  apply (X1_ready_after_both_ports_and_handshake
           [Readiness.No; Readiness.Yes; Readiness.Yes; Readiness.Yes;
            Readiness.No; Readiness.Yes; Readiness.Yes; Readiness.No;
            Readiness.Yes; Readiness.Yes; Readiness.No]
           _ [Readiness.No]).
  reflexivity.
Defined.

(** X2.  How [wait_for_device_ready] can end.  [CancelledError] never
    leaves it; it returns [False] only when an await was cancelled;
    any other exception raised at an await leaves it; otherwise it is
    still waiting when the answers are used up.  It only checks the two
    ports, tries the handshake and sleeps: it never opens the device
    connection. *)
Theorem X2_ready_probe_outcomes
    (answers : list Readiness.Answer) (o : Readiness.Outcome bool)
    (t : list Readiness.Await) (rest : list Readiness.Answer) :
  Readiness.wait_for_device_ready answers = (o, t, rest) ->
  o <> Readiness.Cancelled /\
  (o = Readiness.Returned false -> In Readiness.Cancel answers) /\
  (o = Readiness.Crashed -> In Readiness.Crash answers) /\
  (o = Readiness.Pending -> rest = []) /\
  Forall (fun a => Readiness.port80_await a \/ Readiness.port44100_await a) t /\
  exists used, answers = (used ++ rest)%list.
Proof.
  intros H.
  destruct (wait_for_device_ready_runs _ _ _ _ _ (Nat.le_refl _) H)
    as (Hall & _ & Hc & Hx & Hn & Hp & used & Hused & _).
  repeat split; auto. exists used. exact Hused.
Qed.

Lemma X2_witness :
  Readiness.Returned false <> Readiness.Cancelled /\
  (Readiness.Returned false = Readiness.Returned false ->
   In Readiness.Cancel [Readiness.No; Readiness.Cancel; Readiness.Yes]) /\
  (Readiness.Returned false = Readiness.Crashed ->
   In Readiness.Crash [Readiness.No; Readiness.Cancel; Readiness.Yes]) /\
  (Readiness.Returned false = Readiness.Pending -> [Readiness.Yes] = []) /\
  Forall (fun a => Readiness.port80_await a \/ Readiness.port44100_await a)
         [Readiness.CheckTcpPort 80; Readiness.SleepFor 10] /\
  exists used,
    [Readiness.No; Readiness.Cancel; Readiness.Yes] = (used ++ [Readiness.Yes])%list.
Proof.
  apply (X2_ready_probe_outcomes
           [Readiness.No; Readiness.Cancel; Readiness.Yes]
           (Readiness.Returned false)
           [Readiness.CheckTcpPort 80; Readiness.SleepFor 10]
           [Readiness.Yes]).
  reflexivity.
Defined.

(** X3.  The time [wait_for_device_ready] sleeps.  With port 80 closed
    on the first [n] checks, port 44100 closed on the first [k] checks
    after that and the handshake failing [j] times before it succeeds,
    it returns [True] after sleeping 10 n + 2 seconds, plus
    18 + 2 (k - 1) seconds when [k] is positive; the failed handshakes
    add no sleep at all, each is followed by the next port check at
    once. *)
Theorem X3_ready_probe_sleep_time (n k j : nat) (rest : list Readiness.Answer) :
  let answers :=
    (Readiness.rounds_of Readiness.No Readiness.Yes n
     ++ [Readiness.Yes; Readiness.Yes]
     ++ Readiness.rounds_of Readiness.No Readiness.Yes k
     ++ Readiness.rounds_of Readiness.Yes Readiness.No j
     ++ [Readiness.Yes; Readiness.Yes] ++ rest)%list in
  exists t,
    Readiness.wait_for_device_ready answers = (Readiness.Returned true, t, rest) /\
    Readiness.total_sleep t
    = 10 * Z.of_nat n + 2
      + (if (k =? 0)%nat then 0 else 18 + 2 * (Z.of_nat k - 1)) /\
    length t = (2 * n + 2 + 2 * k + 2 * j + 2)%nat.
Proof.
  intros answers. unfold answers. clear answers.
  rewrite port80_closed_rounds.
  cbn [app Readiness.wait_for_device_ready].
  assert (Hhand : forall fa,
            Readiness.probe_44100 fa
              (Readiness.rounds_of Readiness.Yes Readiness.No j
               ++ Readiness.Yes :: Readiness.Yes :: rest)%list
            = (Readiness.Returned true,
               (concat (repeat [Readiness.CheckTcpPort 44100;
                                Readiness.GetWsEthernet] j)
                ++ [Readiness.CheckTcpPort 44100; Readiness.GetWsEthernet])%list,
               rest)).
  { intros fa. rewrite handshake_failed_rounds. reflexivity. }
  assert (Hlen : forall (a b : Readiness.Await) m,
            length (concat (repeat [a; b] m)) = (2 * m)%nat).
  { intros a b m. induction m as [|m IH]; [reflexivity|].
    cbn [repeat concat]. rewrite List.length_app, IH. cbn. lia. }
  destruct k as [|k].
  - cbn [Readiness.rounds_of app]. rewrite Hhand.
    eexists. split; [reflexivity|]. split.
    + rewrite total_sleep_app.
      rewrite (total_sleep_rounds (Readiness.CheckTcpPort 80) 10 n eq_refl).
      cbn [Readiness.total_sleep]. rewrite total_sleep_app.
      rewrite total_sleep_handshakes. cbn. lia.
    + rewrite List.length_app, Hlen. cbn [length].
      rewrite List.length_app, Hlen. cbn. lia.
  - destruct (Readiness.rounds_of Readiness.No Readiness.Yes (S k)
              ++ Readiness.rounds_of Readiness.Yes Readiness.No j
              ++ Readiness.Yes :: Readiness.Yes :: rest)%list
      as [|a l] eqn:El; [discriminate|].
    assert (Hprobe : Readiness.probe_44100 true (a :: l)
                     = (Readiness.Returned true,
                        ([Readiness.CheckTcpPort 44100; Readiness.SleepFor 18]
                         ++ concat (repeat [Readiness.CheckTcpPort 44100;
                                            Readiness.SleepFor 2] k)
                         ++ concat (repeat [Readiness.CheckTcpPort 44100;
                                            Readiness.GetWsEthernet] j)
                         ++ [Readiness.CheckTcpPort 44100;
                             Readiness.GetWsEthernet])%list, rest)).
    { rewrite <- El, port44100_closed_rounds, Hhand. reflexivity. }
    cbn in El. injection El as <- _. rewrite Hprobe.
    eexists. split; [reflexivity|]. split.
    + rewrite total_sleep_app.
      rewrite (total_sleep_rounds (Readiness.CheckTcpPort 80) 10 n eq_refl).
      cbn [Readiness.total_sleep app]. rewrite total_sleep_app.
      rewrite (total_sleep_rounds (Readiness.CheckTcpPort 44100) 2 k eq_refl).
      rewrite total_sleep_app, total_sleep_handshakes.
      cbn [Readiness.total_sleep Nat.eqb]. lia.
    + rewrite List.length_app, Hlen. cbn [length app].
      rewrite List.length_app, Hlen, List.length_app, Hlen. cbn. lia.
Qed.

Section WaitLoopAwaits.
Import Readiness.
Local Open Scope list_scope.

(** The awaits of the wait loop: those of the probe, the open without
    a timeout, and the ten-second sleep after a failed open. *)
Lemma wait_loop_rounds_awaits (rounds : nat) : forall (answers : list Answer)
    (o : Outcome unit) (t : list Await) (rest : list Answer),
  wait_loop_rounds rounds answers = (o, t, rest) ->
  Forall (fun a => port80_await a \/ port44100_await a \/ a = DeviceOpen None) t.
Proof.
  induction rounds as [|rounds IH]; intros answers o t rest H.
  - injection H as <- <- <-. constructor.
  - cbn [wait_loop_rounds] in H.
    destruct (wait_for_device_ready answers) as [[o1 t1] r1] eqn:E.
    destruct (wait_for_device_ready_runs _ _ _ _ _ (Nat.le_refl _) E)
      as (Hall & _).
    assert (Hall' : Forall (fun a => port80_await a \/ port44100_await a \/
                                     a = DeviceOpen None) t1).
    { eapply List.Forall_impl; [|exact Hall]. cbn. tauto. }
    assert (Hopen : Forall (fun a => port80_await a \/ port44100_await a \/
                                     a = DeviceOpen None)
                      [DeviceOpen None; SleepFor 10]).
    { constructor; [auto|]. constructor; [|constructor].
      left. right. reflexivity. }
    assert (Hopen1 : Forall (fun a => port80_await a \/ port44100_await a \/
                                      a = DeviceOpen None) [DeviceOpen None]).
    { constructor; [auto | constructor]. }
    destruct o1 as [[|]| | |]; try (injection H as <- <- <-; exact Hall').
    destruct r1 as [|a r1]; [injection H as <- <- <-; apply Forall_app; auto|].
    destruct a; try (injection H as <- <- <-; apply Forall_app; auto).
    destruct r1 as [|b r1]; [injection H as <- <- <-; apply Forall_app; auto|].
    destruct b;
      [ destruct (wait_loop_rounds rounds r1) as [[o' t'] r'] eqn:E';
        injection H as <- <- <-;
        apply Forall_app; split; [exact Hall'|];
        apply (Forall_app _ [DeviceOpen None; SleepFor 10] t'); split; [exact Hopen | exact (IH _ _ _ _ E')]
      | destruct (wait_loop_rounds rounds r1) as [[o' t'] r'] eqn:E';
        injection H as <- <- <-;
        apply Forall_app; split; [exact Hall'|];
        apply (Forall_app _ [DeviceOpen None; SleepFor 10] t'); split; [exact Hopen | exact (IH _ _ _ _ E')]
      | injection H as <- <- <-; apply Forall_app; auto
      | injection H as <- <- <-; apply Forall_app; auto ].
Qed.

End WaitLoopAwaits.

(** X4.  The wait loop of [connect].  It ends normally only when an
    await of the readiness probe was cancelled or right after an open
    that directly followed a successful handshake; [CancelledError]
    leaves it only when an await was cancelled, another exception only
    when one was raised at an await; and it is still waiting only when
    the answers are used up.  Its opens carry no timeout. *)
Theorem X4_wait_loop_outcomes
    (answers : list Readiness.Answer) (o : Readiness.Outcome unit)
    (t : list Readiness.Await) (rest : list Readiness.Answer) :
  Readiness.wait_loop answers = (o, t, rest) ->
  (o = Readiness.Returned tt ->
   In Readiness.Cancel answers \/
   exists t0, t = (t0 ++ [Readiness.GetWsEthernet; Readiness.DeviceOpen None])%list) /\
  (o = Readiness.Cancelled -> In Readiness.Cancel answers) /\
  (o = Readiness.Crashed -> In Readiness.Crash answers) /\
  (o = Readiness.Pending -> rest = []) /\
  Forall (fun a => Readiness.port80_await a \/ Readiness.port44100_await a \/
                   a = Readiness.DeviceOpen None) t /\
  exists used, answers = (used ++ rest)%list.
Proof.
  unfold Readiness.wait_loop. intros H.
  destruct (wait_loop_rounds_runs _ _ _ _ _ (Nat.lt_succ_diag_r _) H)
    as (Hr & Hc & Hx & Hp & Hused).
  repeat split; auto.
  exact (wait_loop_rounds_awaits _ _ _ _ _ H).
Qed.

Lemma X4_witness :
  exists t,
    Readiness.wait_loop
      [Readiness.Yes; Readiness.Yes; Readiness.Yes; Readiness.Yes;
       Readiness.No; Readiness.Yes;
       Readiness.Yes; Readiness.Yes; Readiness.Yes; Readiness.Yes;
       Readiness.Yes; Readiness.Crash]
    = (Readiness.Returned tt, t, [Readiness.Crash]) /\
    (In Readiness.Cancel
        [Readiness.Yes; Readiness.Yes; Readiness.Yes; Readiness.Yes;
         Readiness.No; Readiness.Yes;
         Readiness.Yes; Readiness.Yes; Readiness.Yes; Readiness.Yes;
         Readiness.Yes; Readiness.Crash] \/
     exists t0, t = (t0 ++ [Readiness.GetWsEthernet; Readiness.DeviceOpen None])%list).
Proof.
  eexists. split; [reflexivity|].
  eapply (X4_wait_loop_outcomes
            [Readiness.Yes; Readiness.Yes; Readiness.Yes; Readiness.Yes;
             Readiness.No; Readiness.Yes;
             Readiness.Yes; Readiness.Yes; Readiness.Yes; Readiness.Yes;
             Readiness.Yes; Readiness.Crash]);
    reflexivity.
Defined.

(** What [disconnect] leaves alone, and that no unfinished wait task
    is left behind. *)
Lemma disconnect_frame {K : Type} (d : Device.TrinnovDevice K) :
  let d' := Device.st_device (Device.disconnect d) in
  Device._connected d' = Device._connected d /\
  Device._attr_state d' = Device._attr_state d /\
  Device.device_id d' = Device.device_id d /\
  Device.mac d' = Device.mac d /\
  Device._was_intentional_disconnect d' = Device._was_intentional_disconnect d /\
  Device._wait_task d' <> Some false /\
  (Device._wait_task d <> Some false -> d' = d).
Proof.
  unfold Device.disconnect.
  destruct (Device._connected d) eqn:Ec, (Device._wait_task d) as [[|]|] eqn:Ew;
    cbn; rewrite ?Ew, ?Ec; repeat split; congruence.
Qed.

(** *** The teardown with its awaits, and [connect] *)

Section TeardownFacts.

Context {K : Type}.
Implicit Types (d : Device.TrinnovDevice K) (answers : list Readiness.Answer).

Lemma close_device_runs d (effs : list (Device.Effect K))
    (awaits : list Readiness.Await) answers :
  let c := Readiness.close_device d effs awaits answers in
  Readiness.co_device c = d /\
  Readiness.co_effects c = (effs ++ [Device.DeviceClose])%list /\
  Readiness.co_awaits c = (awaits ++ [Readiness.CloseDevice])%list /\
  (Readiness.co_outcome c = Readiness.Returned tt <->
   hd_error answers = Some Readiness.Yes).
Proof.
  unfold Readiness.close_device.
  destruct answers as [|[| | |] rest]; cbn; repeat split;
    intros; congruence.
Qed.

(** What the teardown leaves alone; its awaits; and that it does what
    [disconnect] does when its awaits return. *)
Lemma teardown_runs d answers :
  let t := Readiness.teardown d answers in
  Device._connected (Readiness.co_device t) = Device._connected d /\
  Device._attr_state (Readiness.co_device t) = Device._attr_state d /\
  Device.device_id (Readiness.co_device t) = Device.device_id d /\
  Device.mac (Readiness.co_device t) = Device.mac d /\
  Device._was_intentional_disconnect (Readiness.co_device t)
  = Device._was_intentional_disconnect d /\
  Forall (fun a => a = Readiness.WaitTaskEnd \/ a = Readiness.CloseDevice)
         (Readiness.co_awaits t) /\
  (Readiness.co_outcome t = Readiness.Returned tt ->
   Readiness.co_device t = Device.st_device (Device.disconnect d) /\
   Readiness.co_effects t = Device.st_effects (Device.disconnect d)).
Proof.
  unfold Readiness.teardown, Device.disconnect.
  destruct (Device._connected d || bool_decide (is_Some (Device._wait_task d)));
    [|cbn; repeat split; constructor].
  assert (Hclose : forall d1 effs awaits rest,
            Device._connected d1 = Device._connected d ->
            Device._attr_state d1 = Device._attr_state d ->
            Device.device_id d1 = Device.device_id d ->
            Device.mac d1 = Device.mac d ->
            Device._was_intentional_disconnect d1
            = Device._was_intentional_disconnect d ->
            Forall (fun a => a = Readiness.WaitTaskEnd \/ a = Readiness.CloseDevice)
                   awaits ->
            let t := Readiness.close_device d1 effs awaits rest in
            Device._connected (Readiness.co_device t) = Device._connected d /\
            Device._attr_state (Readiness.co_device t) = Device._attr_state d /\
            Device.device_id (Readiness.co_device t) = Device.device_id d /\
            Device.mac (Readiness.co_device t) = Device.mac d /\
            Device._was_intentional_disconnect (Readiness.co_device t)
            = Device._was_intentional_disconnect d /\
            Forall (fun a => a = Readiness.WaitTaskEnd \/ a = Readiness.CloseDevice)
                   (Readiness.co_awaits t) /\
            (Readiness.co_outcome t = Readiness.Returned tt ->
             Readiness.co_device t = d1 /\
             Readiness.co_effects t = (effs ++ [Device.DeviceClose])%list)).
  { intros d1 effs awaits rest H1 H2 H3 H4 H5 H6.
    destruct (close_device_runs d1 effs awaits rest) as (Hd & He & Ha & _).
    cbv zeta in *. rewrite Hd, He, Ha.
    repeat split; auto.
    apply Forall_app. split; [exact H6|]. constructor; [auto | constructor]. }
  destruct (Device._wait_task d) as [[|]|] eqn:Ew.
  - apply Hclose; auto.
  - assert (Hawait : Forall (fun a => a = Readiness.WaitTaskEnd \/
                                      a = Readiness.CloseDevice)
                       [Readiness.WaitTaskEnd])
      by (constructor; [auto | constructor]).
    destruct answers as [|[| | |] rest];
      [ cbn; repeat split; try discriminate; exact Hawait
      | exact (Hclose (Device.set_wait_task None d) [Device.CancelWaitTask]
                 [Readiness.WaitTaskEnd] rest eq_refl eq_refl eq_refl eq_refl
                 eq_refl Hawait)
      | exact (Hclose (Device.set_wait_task None d) [Device.CancelWaitTask]
                 [Readiness.WaitTaskEnd] rest eq_refl eq_refl eq_refl eq_refl
                 eq_refl Hawait)
      | exact (Hclose (Device.set_wait_task None d) [Device.CancelWaitTask]
                 [Readiness.WaitTaskEnd] rest eq_refl eq_refl eq_refl eq_refl
                 eq_refl Hawait)
      | cbn; repeat split; try discriminate; exact Hawait ].
  - apply Hclose; auto.
Qed.

End TeardownFacts.

Section ConnectFacts.

Context {K : Type}.
Implicit Types (d : Device.TrinnovDevice K) (answers : list Readiness.Answer).

(** [connect] after a teardown that returned. *)
Lemma connect_after_teardown (torn : Readiness.Connect K) :
  let d1 := Device.set_connected false (Readiness.co_device torn) in
  let c :=
    match Readiness.co_rest torn with
    | [] =>
        Readiness.mkConnect d1 (Readiness.co_effects torn)
          (Readiness.co_awaits torn ++ [Readiness.DeviceOpen (Some 3)])
          Readiness.Pending []
    | Readiness.Yes :: rest =>
        Readiness.mkConnect d1 (Readiness.co_effects torn)
          (Readiness.co_awaits torn ++ [Readiness.DeviceOpen (Some 3)])
          (Readiness.Returned tt) rest
    | Readiness.Cancel :: rest =>
        Readiness.mkConnect d1 (Readiness.co_effects torn)
          (Readiness.co_awaits torn ++ [Readiness.DeviceOpen (Some 3)])
          Readiness.Cancelled rest
    | Readiness.Crash :: rest =>
        Readiness.mkConnect d1 (Readiness.co_effects torn)
          (Readiness.co_awaits torn ++ [Readiness.DeviceOpen (Some 3)])
          Readiness.Crashed rest
    | Readiness.No :: rest =>
        let '(o, t, rest') := Readiness.wait_loop rest in
        let task_done :=
          match o with
          | Readiness.Pending => false
          | _ => true
          end in
        Readiness.mkConnect (Device.set_wait_task (Some task_done) d1)
          (Readiness.co_effects torn)
          ((Readiness.co_awaits torn ++ [Readiness.DeviceOpen (Some 3)]) ++ t)
          o rest'
    end in
  Device._connected (Readiness.co_device c) = false /\
  Device._attr_state (Readiness.co_device c)
  = Device._attr_state (Readiness.co_device torn) /\
  Device.device_id (Readiness.co_device c)
  = Device.device_id (Readiness.co_device torn) /\
  Device.mac (Readiness.co_device c) = Device.mac (Readiness.co_device torn) /\
  Device._was_intentional_disconnect (Readiness.co_device c)
  = Device._was_intentional_disconnect (Readiness.co_device torn) /\
  Readiness.co_effects c = Readiness.co_effects torn /\
  exists t,
    Readiness.co_awaits c
    = (Readiness.co_awaits torn ++ Readiness.DeviceOpen (Some 3) :: t)%list /\
    Forall (fun a => Readiness.port80_await a \/ Readiness.port44100_await a \/
                     a = Readiness.DeviceOpen None) t /\
    (hd_error (Readiness.co_rest torn) = Some Readiness.Yes ->
     t = [] /\ Readiness.co_outcome c = Readiness.Returned tt /\
     Device._wait_task (Readiness.co_device c)
     = Device._wait_task (Readiness.co_device torn)) /\
    (hd_error (Readiness.co_rest torn) = Some Readiness.No ->
     is_Some (Device._wait_task (Readiness.co_device c))).
Proof.
  destruct (Readiness.co_rest torn) as [|[| | |] rest].
  - cbn. repeat split.
    exists []. repeat split; try discriminate. constructor.
  - cbn. repeat split.
    exists []. repeat split; try discriminate. constructor.
  - destruct (Readiness.wait_loop rest) as [[o t] r] eqn:E.
    cbn. repeat split.
    exists t. rewrite <- List.app_assoc. repeat split; try discriminate.
    + exact (wait_loop_rounds_awaits _ _ _ _ _ E).
    + eexists. reflexivity.
  - cbn. repeat split.
    exists []. repeat split; try discriminate. constructor.
  - cbn. repeat split.
    exists []. repeat split; try discriminate. constructor.
Qed.

(** What [connect] leaves alone, and that it never sets [_connected]. *)
Lemma connect_frame (handler_present : bool) d answers :
  let c := Readiness.connect handler_present d answers in
  Device._attr_state (Readiness.co_device c) = Device._attr_state d /\
  Device.device_id (Readiness.co_device c) = Device.device_id d /\
  Device.mac (Readiness.co_device c) = Device.mac d /\
  Device._was_intentional_disconnect (Readiness.co_device c)
  = Device._was_intentional_disconnect d /\
  (Device._connected (Readiness.co_device c) = true ->
   Device._connected d = true).
Proof.
  unfold Readiness.connect.
  set (torn := if handler_present then Readiness.teardown d answers
               else Readiness.mkConnect d [] [] (Readiness.Returned tt) answers).
  assert (Htorn :
    Device._connected (Readiness.co_device torn) = Device._connected d /\
    Device._attr_state (Readiness.co_device torn) = Device._attr_state d /\
    Device.device_id (Readiness.co_device torn) = Device.device_id d /\
    Device.mac (Readiness.co_device torn) = Device.mac d /\
    Device._was_intentional_disconnect (Readiness.co_device torn)
    = Device._was_intentional_disconnect d).
  { unfold torn. destruct handler_present; [|repeat split].
    destruct (teardown_runs d answers) as (H1 & H2 & H3 & H4 & H5 & _).
    repeat split; assumption. }
  destruct Htorn as (H1 & H2 & H3 & H4 & H5).
  destruct (Readiness.co_outcome torn) as [[]| | |];
    try (cbv zeta; repeat split; congruence).
  destruct (connect_after_teardown torn) as (Hc & Hs & Hi & Hm & Hf & _).
  cbv zeta in *. repeat split; congruence.
Qed.

End ConnectFacts.

(** X5.  [connect] first tears the old connection down when the device
    library holds a connection handler: the awaits of [disconnect] (the
    cancelled wait task, the close) come before anything else, and when
    one of them raises, [connect] ends there with [_connected] as it
    was.  When the teardown returns, or none is made, [connect] clears
    [_connected] and its next await is the open with the three-second
    timeout; no later await is an open with a timeout; when that open
    succeeds no wait task is created, when it fails with a caught error
    the wait task is stored.  In every case the state, the id and the
    intentional-disconnect flag stay as they were. *)
Theorem X5_connect_fallback (K : Type) (handler_present : bool)
    (d : Device.TrinnovDevice K) (answers : list Readiness.Answer) :
  let torn :=
    if handler_present then Readiness.teardown d answers
    else Readiness.mkConnect d [] [] (Readiness.Returned tt) answers in
  let c := Readiness.connect handler_present d answers in
  Device._attr_state (Readiness.co_device c) = Device._attr_state d /\
  Device.device_id (Readiness.co_device c) = Device.device_id d /\
  Device._was_intentional_disconnect (Readiness.co_device c)
  = Device._was_intentional_disconnect d /\
  Forall (fun a => a = Readiness.WaitTaskEnd \/ a = Readiness.CloseDevice)
         (Readiness.co_awaits torn) /\
  (handler_present = false \/
   (Device._connected d = false /\ Device._wait_task d = None) ->
   Readiness.co_awaits torn = [] /\ Readiness.co_effects torn = [] /\
   Readiness.co_outcome torn = Readiness.Returned tt) /\
  (Readiness.co_outcome torn <> Readiness.Returned tt ->
   c = torn /\
   Device._connected (Readiness.co_device c) = Device._connected d) /\
  (Readiness.co_outcome torn = Readiness.Returned tt ->
   Device._connected (Readiness.co_device c) = false /\
   Readiness.co_effects c = Readiness.co_effects torn /\
   exists t,
     Readiness.co_awaits c
     = (Readiness.co_awaits torn ++ Readiness.DeviceOpen (Some 3) :: t)%list /\
     Forall (fun a => Readiness.port80_await a \/ Readiness.port44100_await a \/
                      a = Readiness.DeviceOpen None) t /\
     (hd_error (Readiness.co_rest torn) = Some Readiness.Yes ->
      t = [] /\ Readiness.co_outcome c = Readiness.Returned tt /\
      Device._wait_task (Readiness.co_device c)
      = Device._wait_task (Readiness.co_device torn)) /\
     (hd_error (Readiness.co_rest torn) = Some Readiness.No ->
      is_Some (Device._wait_task (Readiness.co_device c)))).
Proof.
  intros torn c.
  destruct (connect_frame handler_present d answers) as (Hs & Hi & _ & Hf & _).
  split; [exact Hs|]. split; [exact Hi|]. split; [exact Hf|].
  assert (Htorn :
    Device._connected (Readiness.co_device torn) = Device._connected d /\
    Forall (fun a => a = Readiness.WaitTaskEnd \/ a = Readiness.CloseDevice)
           (Readiness.co_awaits torn)).
  { unfold torn. destruct handler_present; [|split; [reflexivity | constructor]].
    destruct (teardown_runs d answers) as (H1 & _ & _ & _ & _ & H6 & _).
    split; assumption. }
  destruct Htorn as (Hconn & Hawaits).
  split; [exact Hawaits|]. split; [|split].
  - unfold torn. intros [-> | [Hc Hw]]; [repeat split|].
    destruct handler_present; [|repeat split].
    unfold Readiness.teardown. rewrite Hc, Hw. cbn. repeat split.
  - intros Hout. unfold c, Readiness.connect. fold torn.
    destruct (Readiness.co_outcome torn) as [[]| | |]; try congruence;
      (split; [reflexivity | exact Hconn]).
  - intros Hout. unfold c, Readiness.connect. fold torn. rewrite Hout.
    destruct (connect_after_teardown torn)
      as (Hc & _ & _ & _ & _ & He & t & Ht).
    cbv zeta in *. split; [exact Hc|]. split; [exact He|].
    exists t. exact Ht.
Qed.

(** *** What the handlers leave alone *)

Section DeviceFrames.

Context {K : Type}.
Variable parse_float : string -> option float.
Variable float_str : float -> string.
Implicit Types d : Device.TrinnovDevice K.

(** A cached float always has a percentage. *)
Lemma volume_percent_total d (x : float) :
  Device._attr_volume d = VFloat x ->
  exists p, Device.volume_percent d = Ok p /\ 0 <= p <= 100.
Proof.
  intros H. unfold Device.volume_percent. rewrite H. exact (clamp_range x).
Qed.

(** [volume_percent] raises only what the conversion of the cached
    value to a float operand raises. *)
Lemma volume_percent_raises d (e : Exn) :
  Device.volume_percent d = Raise e ->
  Device.float_operand (Device._attr_volume d) = Raise e.
Proof.
  unfold Device.volume_percent.
  destruct (Device.float_operand (Device._attr_volume d)) as [x|e'];
    [|now intros [= ->]].
  destruct (clamp_range x) as (p & Hp & _). cbv zeta. rewrite Hp. discriminate.
Qed.

(** A telemetry handler writes telemetry fields only. *)
Lemma telemetry_frame (sig : Device.Telemetry K) d :
  let d' := Device.st_device (Device._handle_state_change parse_float float_str sig d) in
  Device.device_id d' = Device.device_id d /\
  Device.mac d' = Device.mac d /\
  Device._connected d' = Device._connected d /\
  Device._was_intentional_disconnect d' = Device._was_intentional_disconnect d /\
  Device._wait_task d' = Device._wait_task d /\
  Device._attr_state d' = Device._attr_state d /\
  Device._attr_sound_modes d' = Device._attr_sound_modes d.
Proof.
  destruct sig as [v|v|[l|]|v|v|v|v|v]; cbn [Device._handle_state_change].
  - unfold Device._handle_audio_sync. destruct (py_neb _ _); repeat split.
  - repeat split.
  - repeat split.
  - repeat split.
  - repeat split.
  - unfold Device._handle_srate. destruct (Device.py_float _ _) as [f|e];
      [destruct (negb _)|]; repeat split.
  - repeat split.
  - unfold Device._handle_volume. destruct (py_neb _ _); [|repeat split].
    destruct (Device.volume_percent _); repeat split.
  - unfold Device._handle_mute. destruct (py_neb _ _); repeat split.
Qed.

(** A connection-state event writes [_connected], the state and the
    flag only. *)
Lemma connection_state_invariant (status : ConnectionStatus) d :
  let d' := Device.st_device (Device._handle_connection_state status d) in
  Device.device_id d' = Device.device_id d /\
  Device.mac d' = Device.mac d /\
  (Device._attr_state d = MediaStates.ON \/ Device._attr_state d = MediaStates.OFF ->
   Device._attr_state d' = MediaStates.ON \/ Device._attr_state d' = MediaStates.OFF) /\
  ((Device._connected d = true -> Device._attr_state d = MediaStates.ON) ->
   Device._connected d' = true -> Device._attr_state d' = MediaStates.ON).
Proof.
  destruct status; cbn; repeat split; auto; discriminate.
Qed.

End DeviceFrames.

(** X6.  Whatever connection events, telemetry signals, teardowns and
    connection attempts a freshly created device goes through, its
    state is ON or OFF, it is ON whenever [_connected] holds, its MAC
    address is the one it was created with, and its id is the one it
    was created with, or "unknown" when that was empty.  Hence on a
    connected device [power_on] sends no wake-up packet and
    [power_off] calls the executor's [power_off], and the driver's
    lookup of the remote state for the device's state always finds an
    entry. *)
Theorem X6_connected_device_is_on
    (K : Type) (parse_float : string -> option float)
    (float_str : float -> string)
    (power_control : string -> result unit)
    (executor : string -> option Device.Capability)
    (moves : list (Readiness.Move K))
    (mac_ device_id_ : string) (labels sound_modes : list (K * string)) :
  let d := Readiness.run parse_float float_str moves
             (Device.new_device mac_ device_id_ labels sound_modes) in
  (Device._attr_state d = MediaStates.ON \/ Device._attr_state d = MediaStates.OFF) /\
  (Device._connected d = true ->
   Device._attr_state d = MediaStates.ON /\
   Device.power_on power_control d = (Ok OK, []) /\
   Device.power_off executor d
   = Device.executor_request executor "power_off" [] Device.ExecPowerOff) /\
  is_Some (Driver.remote_state_of (Device._attr_state d)) /\
  Device.device_id d
  = (if String.eqb device_id_ "" then "unknown" else device_id_) /\
  Device.mac d = mac_.
Proof.
  intros d.
  set (id0 := if String.eqb device_id_ "" then "unknown" else device_id_).
  assert (Hinv : (Device._attr_state d = MediaStates.ON \/
                  Device._attr_state d = MediaStates.OFF) /\
                 (Device._connected d = true -> Device._attr_state d = MediaStates.ON) /\
                 Device.device_id d = id0 /\ Device.mac d = mac_).
  { unfold d, Readiness.run. clear d.
    set (d0 := Device.new_device mac_ device_id_ labels sound_modes).
    assert (H0 : (Device._attr_state d0 = MediaStates.ON \/
                  Device._attr_state d0 = MediaStates.OFF) /\
                 (Device._connected d0 = true -> Device._attr_state d0 = MediaStates.ON) /\
                 Device.device_id d0 = id0 /\ Device.mac d0 = mac_).
    { cbn. repeat split; auto. discriminate. }
    clearbody d0. revert d0 H0.
    induction moves as [|m moves IH]; intros d0 H0; [exact H0|].
    cbn [foldl]. apply IH. clear IH.
    destruct H0 as (Hs & Hc & Hi & Hm).
    destruct m as [status|sig| | |handler_present answers];
      cbn [Readiness.move].
    - destruct (connection_state_invariant status d0) as (Hi' & Hm' & Hs' & Hc').
      repeat split; auto; congruence.
    - destruct (telemetry_frame parse_float float_str sig d0)
        as (Hi' & Hm' & Hc' & _ & _ & Hs' & _).
      rewrite Hi', Hm', Hc', Hs'. repeat split; auto.
    - destruct (disconnect_frame d0) as (Hc' & Hs' & Hi' & Hm' & _).
      rewrite Hi', Hm', Hc', Hs'. repeat split; auto.
    - repeat split; auto.
    - destruct (connect_frame handler_present d0 answers)
        as (Hs' & Hi' & Hm' & _ & Hc').
      cbv zeta in *. rewrite Hs', Hi', Hm'. repeat split; auto. }
  destruct Hinv as (Hs & Hc & Hi & Hm).
  split; [exact Hs|]. split; [|split; [|split; assumption]].
  - intros Hconn. split; [exact (Hc Hconn)|]. split.
    + unfold Device.power_on. rewrite (Hc Hconn). reflexivity.
    + unfold Device.power_off. rewrite (Hc Hconn). reflexivity.
  - destruct Hs as [-> | ->]; eexists; reflexivity.
Qed.

(** X7.  How a telemetry handler can fail.  A sample rate that [float]
    rejects raises before anything is changed or emitted.  An
    input-label value without [values], such as [None], raises
    [AttributeError] before anything is changed or emitted.  A volume
    that is no number and differs from the cached one is cached and
    announced to the volume sensor, and then the evaluation of
    [volume_percent] raises.  No other delivery fails; in particular a
    float volume never does.  No handler touches the connection
    fields, and none emits more than two updates. *)
Theorem X7_telemetry_failures
    (K : Type) (parse_float : string -> option float)
    (float_str : float -> string) (sig : Device.Telemetry K)
    (d : Device.TrinnovDevice K) :
  let s := Device._handle_state_change parse_float float_str sig d in
  (forall e, Device.st_raised s = Some e ->
     (exists v, sig = Device.srate v /\
                Device.py_float parse_float v = Raise e /\
                Device.st_device s = d /\ Device.st_effects s = []) \/
     (sig = Device.input_labels None /\ e = AttributeError /\
      Device.st_device s = d /\ Device.st_effects s = []) \/
     (exists v, sig = Device.volume v /\
                Device.float_operand v = Raise e /\
                py_neb v (Device._attr_volume d) = true /\
                Device.st_device s = Device.set_attr_volume v d /\
                Device.st_effects s
                = [Device.EmitUpdate ("volume." ++ Device.device_id d)
                     "value" v])) /\
  (forall x, sig = Device.volume (VFloat x) -> Device.st_raised s = None) /\
  Device._connected (Device.st_device s) = Device._connected d /\
  Device._attr_state (Device.st_device s) = Device._attr_state d /\
  Device._was_intentional_disconnect (Device.st_device s)
  = Device._was_intentional_disconnect d /\
  Device._wait_task (Device.st_device s) = Device._wait_task d /\
  (length (Device.st_effects s) <= 2)%nat.
Proof.
  intros s.
  destruct (telemetry_frame parse_float float_str sig d)
    as (_ & _ & Hc & Hf & Hw & Hs & _).
  split; [|split; [|repeat split; try assumption]].
  - unfold s. clear s Hc Hf Hw Hs. intros e.
    destruct sig as [v|v|[l|]|v|v|v|v|v]; cbn [Device._handle_state_change].
    + unfold Device._handle_audio_sync. destruct (py_neb _ _); discriminate.
    + discriminate.
    + discriminate.
    + cbn. intros [= <-]. right. left. repeat split.
    + discriminate.
    + unfold Device._handle_srate.
      destruct (Device.py_float parse_float v) as [f|e'] eqn:E.
      * destruct (negb _); discriminate.
      * cbn. intros [= ->]. left. exists v. repeat split. exact E.
    + discriminate.
    + unfold Device._handle_volume.
      destruct (py_neb v (Device._attr_volume d)) eqn:Hne; [|discriminate].
      destruct (Device.volume_percent (Device.set_attr_volume v d))
        as [p|e'] eqn:E; [discriminate|].
      cbn. intros [= ->]. right. right. exists v.
      apply volume_percent_raises in E. cbn in E. repeat split; assumption.
    + unfold Device._handle_mute. destruct (py_neb _ _); discriminate.
  - unfold s. intros x ->. cbn [Device._handle_state_change].
    unfold Device._handle_volume. destruct (py_neb _ _); [|reflexivity].
    destruct (volume_percent_total (Device.set_attr_volume (VFloat x) d) x
                eq_refl) as (p & -> & _).
    reflexivity.
  - unfold s. clear.
    destruct sig as [v|v|[l|]|v|v|v|v|v]; cbn [Device._handle_state_change].
    + unfold Device._handle_audio_sync. destruct (py_neb _ _); cbn; lia.
    + cbn; lia.
    + cbn; lia.
    + cbn; lia.
    + cbn; lia.
    + unfold Device._handle_srate.
      destruct (Device.py_float parse_float v) as [f|e']; [destruct (negb _)|];
        cbn; lia.
    + cbn; lia.
    + unfold Device._handle_volume. destruct (py_neb _ _); [|cbn; lia].
      destruct (Device.volume_percent _); cbn; lia.
    + unfold Device._handle_mute. destruct (py_neb _ _); cbn; lia.
Qed.

Lemma X7_witness :
  let d : Device.TrinnovDevice Z := Device.new_device "00:11" "X" [] [] in
  let sig : Device.Telemetry Z := Device.volume VNone in
  let s := Device._handle_state_change (fun _ => None) (fun _ => "") sig d in
  Device.st_raised s = Some TypeError /\
  ((exists v, sig = Device.srate v /\
              Device.py_float (fun _ => None) v = Raise TypeError /\
              Device.st_device s = d /\ Device.st_effects s = []) \/
   (sig = Device.input_labels None /\
    TypeError = AttributeError /\
    Device.st_device s = d /\ Device.st_effects s = []) \/
   (exists v, sig = Device.volume v /\
              Device.float_operand v = Raise TypeError /\
              py_neb v (Device._attr_volume d) = true /\
              Device.st_device s = Device.set_attr_volume v d /\
              Device.st_effects s
              = [Device.EmitUpdate ("volume." ++ Device.device_id d)
                   "value" v])).
Proof.
  intros d sig s. split; [reflexivity|].
  apply (proj1 (X7_telemetry_failures Z (fun _ => None) (fun _ => "") sig d)
           TypeError).
  reflexivity.
Defined.



(** *** Routing of the update events *)

(** The entity id [_emit_update] builds from one of the six prefixes
    splits back into the prefix and the device id, dots in the id
    included. *)
Lemma emit_update_routes {K : Type} (d : Device.TrinnovDevice K)
    (prefix attr : string) (value : PyVal) :
  In prefix [EntityPrefix.MEDIA_PLAYER; EntityPrefix.REMOTE;
             EntityPrefix.SAMPLE_RATE; EntityPrefix.AUDIO_SYNC;
             EntityPrefix.VOLUME; EntityPrefix.MUTED] ->
  forall entity_id attr' value',
    Device._emit_update d prefix attr value
    = Device.EmitUpdate entity_id attr' value' ->
    Config.extract_device_id entity_id = Some (Device.device_id d).
Proof.
  intros Hin entity_id attr' value' [= <- _ _].
  cbn in Hin.
  repeat (destruct Hin as [<-|Hin]; [reflexivity|]). contradiction.
Qed.

(** X9.  Every update event a device emits, from a telemetry handler
    or from the connection-state handler, carries an entity id from
    which [extract_device_id] (the split the driver routes updates by)
    gives back the device's own id. *)
Theorem X9_update_events_route_to_their_device
    (K : Type) (parse_float : string -> option float)
    (float_str : float -> string) (d : Device.TrinnovDevice K)
    (effect : Device.Effect K) (entity_id attr : string) (value : PyVal) :
  (exists sig,
     In effect (Device.st_effects
                  (Device._handle_state_change parse_float float_str sig d))) \/
  (exists status,
     In effect (Device.st_effects (Device._handle_connection_state status d))) ->
  effect = Device.EmitUpdate entity_id attr value ->
  Config.extract_device_id entity_id = Some (Device.device_id d).
Proof.
  intros Hin ->.
  assert (Hone : forall (d' : Device.TrinnovDevice K) prefix a v,
            Device.device_id d' = Device.device_id d ->
            In prefix [EntityPrefix.MEDIA_PLAYER; EntityPrefix.REMOTE;
                       EntityPrefix.SAMPLE_RATE; EntityPrefix.AUDIO_SYNC;
                       EntityPrefix.VOLUME; EntityPrefix.MUTED] ->
            Device.EmitUpdate entity_id attr value
            = Device._emit_update d' prefix a v ->
            Config.extract_device_id entity_id = Some (Device.device_id d)).
  { intros d' prefix a v Hid Hp Heq. rewrite <- Hid.
    exact (emit_update_routes d' prefix a v Hp _ _ _ (eq_sym Heq)). }
  destruct Hin as [[sig Hin]|[status Hin]].
  - destruct sig as [v|v|[l|]|v|v|v|v|v]; cbn [Device._handle_state_change] in Hin.
    + unfold Device._handle_audio_sync in Hin.
      destruct (py_neb _ _); cbn in Hin; [|contradiction].
      destruct Hin as [Hin|[]].
      eapply Hone; [| |exact (eq_sym Hin)]; [reflexivity | cbn; tauto].
    + destruct Hin as [Hin|[]].
      eapply Hone; [| |exact (eq_sym Hin)]; [reflexivity | cbn; tauto].
    + destruct Hin as [Hin|[]].
      eapply Hone; [| |exact (eq_sym Hin)]; [reflexivity | cbn; tauto].
    + contradiction.
    + destruct Hin as [Hin|[]].
      eapply Hone; [| |exact (eq_sym Hin)]; [reflexivity | cbn; tauto].
    + unfold Device._handle_srate in Hin.
      destruct (Device.py_float _ _); [|contradiction].
      destruct (negb _); cbn in Hin; [|contradiction].
      destruct Hin as [Hin|[]].
      eapply Hone; [| |exact (eq_sym Hin)]; [reflexivity | cbn; tauto].
    + destruct Hin as [Hin|[]].
      eapply Hone; [| |exact (eq_sym Hin)]; [reflexivity | cbn; tauto].
    + unfold Device._handle_volume in Hin.
      destruct (py_neb _ _); [|contradiction].
      destruct (Device.volume_percent _); cbn in Hin.
      * destruct Hin as [Hin|[Hin|[]]];
          (eapply Hone; [| |exact (eq_sym Hin)]; [reflexivity | cbn; tauto]).
      * destruct Hin as [Hin|[]].
        eapply Hone; [| |exact (eq_sym Hin)]; [reflexivity | cbn; tauto].
    + unfold Device._handle_mute in Hin.
      destruct (py_neb _ _); cbn in Hin; [|contradiction].
      destruct Hin as [Hin|[Hin|[]]];
        (eapply Hone; [| |exact (eq_sym Hin)]; [reflexivity | cbn; tauto]).
  - destruct status; cbn in Hin.
    + destruct Hin as [Hin|Hin]; [discriminate|].
      repeat (destruct Hin as [Hin|Hin]; [injection Hin as <- _ _; reflexivity|]).
      contradiction.
    + destruct Hin as [Hin|Hin]; [discriminate|].
      repeat (destruct Hin as [Hin|Hin]; [injection Hin as <- _ _; reflexivity|]).
      destruct (Device._was_intentional_disconnect d); cbn in Hin.
      * contradiction.
      * destruct Hin as [Hin|[Hin|[]]]; discriminate.
    + contradiction.
Qed.

Lemma X9_witness :
  Config.extract_device_id "sample_rate.trinnov.altitude.7"
  = Some "trinnov.altitude.7".
Proof.
  apply (X9_update_events_route_to_their_device Z
           (fun _ => Some 48000%float) (fun _ => "48.0")
           (Device.new_device "00:11" "trinnov.altitude.7" [] [])
           (Device.EmitUpdate "sample_rate.trinnov.altitude.7" "value" (VStr "48.0"))
           "sample_rate.trinnov.altitude.7" "value" (VStr "48.0")).
  - left. exists (Device.srate (VStr "48000")). cbn. left. reflexivity.
  - reflexivity.
Defined.


(** X11.  [volume_percent] is defined for every cached float,
    infinities and NaN included, and lies between 0 and 100; it is 100
    for every value above 0.0 dB and 0 for every value below
    -100.0 dB. *)
Theorem X11_volume_percent_total_and_clamped
    (K : Type) (d : Device.TrinnovDevice K) (x : float) :
  Device._attr_volume d = VFloat x ->
  exists p : Z,
    Device.volume_percent d = Ok p /\
    0 <= p <= 100 /\
    (PrimFloat.ltb 0 x = true -> p = 100) /\
    (PrimFloat.ltb x (-100) = true -> p = 0).
Proof.
  intros Hx. destruct (clamp_range x) as (p & Hp & Hr).
  exists p. split; [unfold Device.volume_percent; rewrite Hx; exact Hp|].
  split; [exact Hr|]. split; intros H.
  - pose proof (clamp_above _ H) as Ha. congruence.
  - pose proof (clamp_below _ H) as Hb. congruence.
Qed.

Lemma X11_witness :
  exists p : Z,
    Device.volume_percent
      (Device.set_attr_volume (VFloat infinity)
         (Device.new_device (K := Z) "00:11" "X" [] [])) = Ok p /\
    0 <= p <= 100 /\
    (PrimFloat.ltb 0 infinity = true -> p = 100) /\
    (PrimFloat.ltb infinity (-100) = true -> p = 0).
Proof.
  apply (X11_volume_percent_total_and_clamped Z
           (Device.set_attr_volume (VFloat infinity)
              (Device.new_device (K := Z) "00:11" "X" [] [])) infinity).
  reflexivity.
Defined.

(** *** The dB value of a percentage *)

Lemma percent_to_db_clamped (p : Z) :
  Device.percent_to_db p = Device.percent_to_db (Z.max 0 (Z.min 100 p)).
Proof.
  unfold Device.percent_to_db. cbv zeta.
  replace (Z.max 0 (Z.min 100 (Z.max 0 (Z.min 100 p))))
    with (Z.max 0 (Z.min 100 p)) by lia.
  reflexivity.
Qed.

Lemma db_on_scale_table : forallb db_on_scale (seq 0 101) = true.
Proof. vm_compute. reflexivity. Qed.

Lemma db_not_above_later_table : forallb db_not_above_later (seq 0 101) = true.
Proof. vm_compute. reflexivity. Qed.

Lemma percent_to_db_on_scale (p : Z) :
  PrimFloat.leb (-100) (Device.percent_to_db p) = true /\
  PrimFloat.leb (Device.percent_to_db p) 0 = true.
Proof.
  rewrite percent_to_db_clamped.
  set (c := Z.max 0 (Z.min 100 p)).
  assert (Hc : 0 <= c <= 100) by (unfold c; lia).
  pose proof db_on_scale_table as Htab. rewrite forallb_forall in Htab.
  specialize (Htab (Z.to_nat c)).
  assert (Hin : In (Z.to_nat c) (seq 0 101)) by (apply in_seq; lia).
  specialize (Htab Hin). unfold db_on_scale in Htab. cbv zeta in Htab.
  rewrite Z2Nat.id in Htab by lia.
  apply andb_prop in Htab. exact Htab.
Qed.

Lemma percent_to_db_monotone (p q : Z) :
  p <= q ->
  PrimFloat.leb (Device.percent_to_db p) (Device.percent_to_db q) = true.
Proof.
  intros Hpq.
  rewrite (percent_to_db_clamped p), (percent_to_db_clamped q).
  set (a := Z.max 0 (Z.min 100 p)). set (b := Z.max 0 (Z.min 100 q)).
  assert (Hab : 0 <= a <= b /\ b <= 100) by (unfold a, b; lia).
  pose proof db_not_above_later_table as Htab. rewrite forallb_forall in Htab.
  specialize (Htab (Z.to_nat a)).
  assert (Hin : In (Z.to_nat a) (seq 0 101)) by (apply in_seq; lia).
  specialize (Htab Hin). unfold db_not_above_later in Htab.
  rewrite forallb_forall in Htab. specialize (Htab (Z.to_nat b)).
  assert (Hin' : In (Z.to_nat b) (seq (Z.to_nat a) (101 - Z.to_nat a)))
    by (apply in_seq; lia).
  specialize (Htab Hin'). rewrite !Z2Nat.id in Htab by lia. exact Htab.
Qed.

(** X12.  [percent_to_db] maps every integer into the range from
    -100.0 to 0.0 dB: percentages at or below 0 give -100.0, those at
    or above 100 give 0.0, and a larger percentage never gives a
    smaller dB value. *)
Theorem X12_percent_to_db_range_and_order (p q : Z) :
  PrimFloat.leb (-100) (Device.percent_to_db p) = true /\
  PrimFloat.leb (Device.percent_to_db p) 0 = true /\
  (p <= 0 -> Device.percent_to_db p = (-100)%float) /\
  (100 <= p -> Device.percent_to_db p = 0%float) /\
  (p <= q ->
   PrimFloat.leb (Device.percent_to_db p) (Device.percent_to_db q) = true).
Proof.
  destruct (percent_to_db_on_scale p) as [Hlo Hhi].
  split; [exact Hlo|]. split; [exact Hhi|]. split; [|split].
  - intros Hp. rewrite percent_to_db_clamped.
    replace (Z.max 0 (Z.min 100 p)) with 0 by lia. vm_compute. reflexivity.
  - intros Hp. rewrite percent_to_db_clamped.
    replace (Z.max 0 (Z.min 100 p)) with 100 by lia. vm_compute. reflexivity.
  - apply percent_to_db_monotone.
Qed.

(** *** The registry-wide teardown *)

Section FlagFacts.

Context {K : Type}.
Variable parse_float : string -> option float.
Variable float_str : float -> string.


End FlagFacts.



(** X14.  Registering makes the id known and touches no other id;
    registering a fresh id and unregistering it again gives the
    registry back; unregistering removes the id and touches no other;
    after [clear_devices] no id is known. *)
Theorem X14_registry_round_trip
    (D : Type) (reg : gmap string D) (id other : string) (device : D) :
  is_Some (Registry.get_device (Registry.register_device id device reg) id) /\
  (other <> id ->
   Registry.get_device (Registry.register_device id device reg) other
   = Registry.get_device reg other) /\
  (Registry.get_device reg id = None ->
   Registry.unregister_device id (Registry.register_device id device reg) = reg) /\
  Registry.get_device (Registry.unregister_device id reg) id = None /\
  (other <> id ->
   Registry.get_device (Registry.unregister_device id reg) other
   = Registry.get_device reg other) /\
  Registry.get_device (Registry.clear_devices reg) id = None /\
  Registry.all_devices (Registry.clear_devices reg) = ∅.
Proof.
  unfold Registry.get_device, Registry.register_device,
    Registry.unregister_device, Registry.clear_devices, Registry.all_devices.
  repeat split.
  - destruct (reg !! id) eqn:E; [rewrite E; eauto|].
    rewrite lookup_insert_eq. eauto.
  - intros Hne. destruct (reg !! id); [reflexivity|].
    apply lookup_insert_ne. congruence.
  - intros Hnone. rewrite Hnone. rewrite delete_insert_eq.
    now apply delete_id.
  - apply lookup_delete_eq.
  - intros Hne. apply lookup_delete_ne. congruence.
Qed.

(** *** The media-player commands *)

Lemma media_command_volume_only (cmd_id : string) :
  MediaPlayer.Commands_of_value cmd_id = Some MediaPlayer.Commands.VOLUME ->
  cmd_id = "volume".
Proof.
  unfold MediaPlayer.Commands_of_value.
  repeat match goal with
         | |- context [if String.eqb cmd_id ?s then _ else _] =>
             destruct (String.eqb cmd_id s) eqn:?; [try discriminate|]
         end; try discriminate.
  intros _. now apply String.eqb_eq.
Qed.

(** The two ways a direct call of the executor goes: no such method,
    nothing called, [AttributeError]; or the method called once, with
    its own outcome. *)
Lemma executor_request_cases {K : Type}
    (executor : string -> option Device.Capability) (name : string)
    (args : list PyVal) (label : Device.Effect K) :
  (executor name = None /\
   Device.executor_request executor name args label = (Raise AttributeError, [])) \/
  (exists method,
     executor name = Some method /\
     ((Device.invoke method (Device.bind_positional method args) = Ok tt /\
       Device.executor_request executor name args label = (Ok OK, [label])) \/
      (exists e,
         Device.invoke method (Device.bind_positional method args) = Raise e /\
         Device.executor_request executor name args label = (Raise e, [label])))).
Proof.
  unfold Device.executor_request.
  destruct (executor name) as [method|]; [right | left; auto].
  exists method. split; [reflexivity|].
  destruct (Device.invoke method _) as [[]|e]; [left; auto | right; eauto].
Qed.

(** What every answer of a direct call satisfies. *)
Lemma executor_request_shape {K : Type}
    (executor : string -> option Device.Capability) (name : string)
    (args : list PyVal) (label : Device.Effect K) :
  let r := Device.executor_request executor name args label in
  (forall s, fst r = Ok s -> s = OK) /\
  (length (snd r) <= 1)%nat /\
  (forall e, fst r = Raise e ->
     (snd r = [] /\ e = AttributeError /\ executor name = None) \/
     (snd r = [label] /\
      exists method,
        executor name = Some method /\
        Device.invoke method (Device.bind_positional method args) = Raise e)).
Proof.
  destruct (executor_request_cases executor name args label)
    as [[Hn ->]|(method & Hm & [[Hc ->]|(e' & Hc & ->)])]; cbn.
  - repeat split; try discriminate; try lia.
    intros e [= <-]. left. auto.
  - repeat split; try discriminate; try lia. now intros s [= <-].
  - repeat split; try discriminate; try lia.
    intros e [= <-]. right. eauto.
Qed.

Local Abbreviation command_answer_sound power_control d cmd_id executor r :=
  ((forall s, fst r = Ok s -> s <> OK -> s = BAD_REQUEST /\ snd r = []) /\
   le (length (snd r)) 1 /\
   (forall e, fst r = Raise e ->
      (cmd_id = "volume" /\ snd r = []) \/
      (cmd_id = "on" /\ snd r = [Device.WakeOnLan (Device.mac d)] /\
       power_control (Device.mac d) = Raise e) \/
      (snd r = [] /\ e = AttributeError /\ exists name, executor name = None) \/
      (exists label name method args,
         snd r = [label] /\ executor name = Some method /\
         Device.invoke method (Device.bind_positional method args) = Raise e))).

Lemma executor_request_sound {K : Type}
    (power_control : string -> result unit) (d : Device.TrinnovDevice K)
    (cmd_id : string)
    (executor : string -> option Device.Capability) (name : string)
    (args : list PyVal) (label : Device.Effect K) :
  command_answer_sound power_control d cmd_id executor
    (Device.executor_request executor name args label).
Proof.
  destruct (executor_request_shape executor name args label)
    as (Hok & Hlen & Hraise).
  cbv zeta in *. split; [|split; [exact Hlen|]].
  - intros s Hs Hne. destruct (Hne (Hok s Hs)).
  - intros e He. destruct (Hraise e He) as [(H1 & H2 & H3)|(H1 & m & H2 & H3)].
    + right. right. left. eauto.
    + right. right. right. exists label, name, m, args. auto.
Qed.

Lemma status_answer_sound {K : Type}
    (power_control : string -> result unit) (d : Device.TrinnovDevice K)
    (cmd_id : string)
    (executor : string -> option Device.Capability) (s : StatusCodes)
    (effs : list (Device.Effect K)) :
  (s = OK /\ (length effs <= 1)%nat) \/ (s = BAD_REQUEST /\ effs = []) ->
  command_answer_sound power_control d cmd_id executor (Ok s, effs).
Proof.
  intros Hs. cbn. split; [|split; [|discriminate]].
  - intros s' [= <-] Hne. destruct Hs as [[-> _]|Hs]; [congruence | exact Hs].
  - destruct Hs as [[_ Hlen]|[_ ->]]; [exact Hlen | cbn; lia].
Qed.

(** The id under which a request reaches the case of [Commands.ON]. *)
Lemma media_command_on_only (cmd_id : string) :
  MediaPlayer.Commands_of_value cmd_id = Some MediaPlayer.Commands.ON ->
  cmd_id = "on".
Proof.
  unfold MediaPlayer.Commands_of_value.
  repeat match goal with
         | |- context [if String.eqb cmd_id ?s then _ else _] =>
             destruct (String.eqb cmd_id s) eqn:?; [try discriminate|]
         end; try discriminate.
  intros _. now apply String.eqb_eq.
Qed.

(** X15.  The media-player [command] calls the executor or sends the
    wake-up packet at most once per request; when it returns a status
    other than OK it has called nothing; an id that is no media-player
    command is answered BAD_REQUEST.  An exception leaves it in four
    ways only: from its own handling of the parameters of ["volume"],
    before anything is called; out of the wake-up call of ["on"]; as
    [AttributeError] when the executor lacks the method, nothing being
    called; or out of the one executor method it called. *)
Theorem X15_media_command_acts_at_most_once
    (K : Type) (power_control : string -> result unit)
    (key_truthy : K -> bool) (parse_int : string -> option Z)
    (key_value : K -> PyVal) (executor : string -> option Device.Capability)
    (d : Device.TrinnovDevice K) (cmd_id : string)
    (params : option (gmap string PyVal)) :
  let r := MediaPlayer.command power_control key_truthy parse_int key_value
             executor d cmd_id params in
  (forall s, fst r = Ok s -> s <> OK -> s = BAD_REQUEST /\ snd r = []) /\
  (length (snd r) <= 1)%nat /\
  (forall e, fst r = Raise e ->
     (cmd_id = "volume" /\ snd r = []) \/
     (cmd_id = "on" /\ snd r = [Device.WakeOnLan (Device.mac d)] /\
      power_control (Device.mac d) = Raise e) \/
     (snd r = [] /\ e = AttributeError /\ exists name, executor name = None) \/
     (exists label name method args,
        snd r = [label] /\ executor name = Some method /\
        Device.invoke method (Device.bind_positional method args) = Raise e)) /\
  (MediaPlayer.Commands_of_value cmd_id = None -> r = (Ok BAD_REQUEST, [])).
Proof.
  intros r.
  assert (Hunknown :
    MediaPlayer.Commands_of_value cmd_id = None -> r = (Ok BAD_REQUEST, [])).
  { intros Hnone. unfold r, MediaPlayer.command. now rewrite Hnone. }
  assert (Hsound : command_answer_sound power_control d cmd_id executor r).
  { unfold r, MediaPlayer.command. clear r Hunknown.
    destruct (MediaPlayer.Commands_of_value cmd_id) as [cmd|] eqn:Ecmd;
      [|apply status_answer_sound; auto].
    destruct cmd.
    - pose proof (media_command_on_only cmd_id Ecmd) as Hon.
      unfold Device.power_on. destruct (String.eqb _ _);
        [|apply status_answer_sound; left; cbn; split; (reflexivity || lia)].
      destruct (power_control (Device.mac d)) as [[]|e0] eqn:Ew.
      + cbn. split; [intros s [= <-] Hne; congruence|].
        split; [lia | discriminate].
      + cbn. split; [discriminate|]. split; [lia|].
        intros e [= <-]. right. left. auto.
    - unfold Device.power_off. destruct (String.eqb _ _);
        [apply executor_request_sound|].
      apply status_answer_sound; left; cbn; split; (reflexivity || lia).
    - apply status_answer_sound; left; cbn; split; (reflexivity || lia).
    - apply status_answer_sound; left; cbn; split; (reflexivity || lia).
    - apply status_answer_sound; left; cbn; split; (reflexivity || lia).
    - apply executor_request_sound.
    - apply executor_request_sound.
    - apply executor_request_sound.
    - destruct (_ || _); [apply status_answer_sound; auto|].
      destruct (reverse_lookup _ _) as [k|]; [|apply status_answer_sound; auto].
      destruct (negb (key_truthy k));
        [apply status_answer_sound; auto | apply executor_request_sound].
    - destruct (_ || _); [apply status_answer_sound; auto|].
      destruct (reverse_lookup _ _) as [k|];
        [apply executor_request_sound | apply status_answer_sound; auto].
    - apply executor_request_sound.
    - apply executor_request_sound.
    - pose proof (media_command_volume_only cmd_id Ecmd) as Hvol.
      destruct (MediaPlayer.params_truthy params).
      + destruct (MediaPlayer.py_int _ _) as [volume|e0];
          [apply executor_request_sound|].
        cbn. split; [discriminate|]. split; [lia|]. intros e _. left. auto.
      + cbn. split; [discriminate|]. split; [lia|]. intros e _. left. auto. }
  destruct Hsound as (H1 & H2 & H3).
  split; [exact H1|]. split; [exact H2|]. split; [exact H3 | exact Hunknown].
Qed.

(** X16.  Selecting a sound mode by a non-empty label the cached table
    holds: the first key of that label is passed to the executor's
    upmixer when the key is truthy, and the answer is OK when that call
    returns; when that key is falsy (a key 0 or an empty key) the
    command is answered BAD_REQUEST and nothing is called, although
    the label is known. *)
Theorem X16_select_sound_mode_by_label
    (K : Type) (power_control : string -> result unit)
    (key_truthy : K -> bool) (parse_int : string -> option Z)
    (key_value : K -> PyVal) (executor : string -> option Device.Capability)
    (d : Device.TrinnovDevice K) (m : gmap string PyVal) (label : string)
    (pre post : list (K * string)) (mode_key : K) :
  m !! "mode" = Some (VStr label) ->
  label <> "" ->
  Device._attr_sound_modes d = (pre ++ (mode_key, label) :: post)%list ->
  (forall kv, In kv pre -> snd kv <> label) ->
  MediaPlayer.command power_control key_truthy parse_int key_value executor d
    "select_sound_mode" (Some m)
  = (if key_truthy mode_key
     then Device.executor_request executor "upmixer" [key_value mode_key]
            (Device.ExecUpmixer mode_key)
     else (Ok BAD_REQUEST, [])) /\
  forall method,
    executor "upmixer" = Some method ->
    Device.invoke method (Device.bind_positional method [key_value mode_key])
    = Ok tt ->
    MediaPlayer.command power_control key_truthy parse_int key_value executor d
      "select_sound_mode" (Some m)
    = if key_truthy mode_key then (Ok OK, [Device.ExecUpmixer mode_key])
      else (Ok BAD_REQUEST, []).
Proof.
  intros Hm Hne Htable Hpre.
  assert (Hcmd :
    MediaPlayer.command power_control key_truthy parse_int key_value executor d
      "select_sound_mode" (Some m)
    = if key_truthy mode_key
      then Device.executor_request executor "upmixer" [key_value mode_key]
             (Device.ExecUpmixer mode_key)
      else (Ok BAD_REQUEST, [])).
  { unfold MediaPlayer.command.
    cbn [MediaPlayer.Commands_of_value String.eqb Ascii.eqb Bool.eqb].
    rewrite (params_get_present m "mode" (VStr label) Hm).
    rewrite Htable, reverse_lookup_first by exact Hpre.
    assert (Hl : py_truthy (VStr label) = true).
    { cbn. destruct (String.eqb label "") eqn:E; [|reflexivity].
      apply String.eqb_eq in E. contradiction. }
    rewrite Hl.
    replace (MediaPlayer.table_truthy (pre ++ (mode_key, label) :: post)%list)
      with true by (now destruct pre).
    cbn [negb orb]. now destruct (key_truthy mode_key). }
  split; [exact Hcmd|].
  intros method Hmethod Hcall. rewrite Hcmd.
  destruct (key_truthy mode_key); [|reflexivity].
  now apply (executor_request_returns executor _ _ _ method).
Qed.

Lemma X16_witness :
  let d : Device.TrinnovDevice Z :=
    Device.new_device "00:11" "X" [] [(0, "Native"); (1, "Auro-3D")] in
  let key_truthy (k : Z) := negb (k =? 0) in
  let upmixer := Device.mkCapability ["mode"] (fun _ => Ok tt) in
  let executor (name : string) : option Device.Capability :=
    if String.eqb name "upmixer" then Some upmixer else None in
  MediaPlayer.command (fun _ => Ok tt) key_truthy (fun _ => None) VInt executor d
    "select_sound_mode" (Some (<["mode" := VStr "Auro-3D"]> ∅))
  = (Ok OK, [Device.ExecUpmixer 1]) /\
  MediaPlayer.command (fun _ => Ok tt) key_truthy (fun _ => None) VInt executor d
    "select_sound_mode" (Some (<["mode" := VStr "Native"]> ∅))
  = (Ok BAD_REQUEST, []).
Proof.
  intros d key_truthy upmixer executor. split.
  - apply (proj2 (X16_select_sound_mode_by_label Z (fun _ => Ok tt) key_truthy (fun _ => None)
                    VInt executor d
                    (<["mode" := VStr "Auro-3D"]> ∅) "Auro-3D" [(0, "Native")]
                    [] 1 (lookup_insert_eq _ _ _) ltac:(discriminate) eq_refl
                    ltac:(intros kv [<-|[]]; discriminate))
             upmixer eq_refl eq_refl).
  - apply (proj2 (X16_select_sound_mode_by_label Z (fun _ => Ok tt) key_truthy (fun _ => None)
                    VInt executor d
                    (<["mode" := VStr "Native"]> ∅) "Native" []
                    [(1, "Auro-3D")] 0 (lookup_insert_eq _ _ _)
                    ltac:(discriminate) eq_refl ltac:(intros kv []))
             upmixer eq_refl eq_refl).
Defined.

(** X17.  The volume command.  With an integer under ["volume"] it
    passes the executor's [volume] the dB value of that percentage,
    which lies between -100.0 and 0.0 whatever the integer, and
    answers OK when that call returns.  Without parameters, or with an
    empty dictionary, it raises [UnboundLocalError] and calls
    nothing. *)
Theorem X17_volume_command
    (K : Type) (power_control : string -> result unit)
    (key_truthy : K -> bool) (parse_int : string -> option Z)
    (key_value : K -> PyVal) (executor : string -> option Device.Capability)
    (d : Device.TrinnovDevice K) (params : option (gmap string PyVal)) :
  (forall m v, params = Some m -> m !! "volume" = Some (VInt v) ->
     let db := Device.percent_to_db v in
     MediaPlayer.command power_control key_truthy parse_int key_value executor d "volume" params
     = Device.executor_request executor "volume" [VFloat db]
         (Device.ExecVolume db) /\
     (forall method,
        executor "volume" = Some method ->
        Device.invoke method (Device.bind_positional method [VFloat db]) = Ok tt ->
        MediaPlayer.command power_control key_truthy parse_int key_value executor d "volume"
          params
        = (Ok OK, [Device.ExecVolume db])) /\
     PrimFloat.leb (-100) db = true /\
     PrimFloat.leb db 0 = true) /\
  (params = None \/ params = Some ∅ ->
   MediaPlayer.command power_control key_truthy parse_int key_value executor d "volume" params
   = (Raise UnboundLocalError, [])).
Proof.
  split.
  - intros m v -> Hm db.
    assert (Hcmd :
      MediaPlayer.command power_control key_truthy parse_int key_value executor d "volume"
        (Some m)
      = Device.executor_request executor "volume" [VFloat db]
          (Device.ExecVolume db)).
    { unfold MediaPlayer.command.
      cbn [MediaPlayer.Commands_of_value String.eqb Ascii.eqb Bool.eqb].
      rewrite (params_get_present m "volume" (VInt v) Hm).
      unfold MediaPlayer.params_truthy.
      rewrite bool_decide_eq_false_2; [reflexivity|].
      intros ->. rewrite lookup_empty in Hm. discriminate. }
    split; [exact Hcmd|]. split; [|apply percent_to_db_on_scale].
    intros method Hmethod Hcall. rewrite Hcmd.
    now apply (executor_request_returns executor _ _ _ method).
  - intros [->| ->]; reflexivity.
Qed.

Lemma X17_witness :
  let volume := Device.mkCapability ["db"] (fun _ => Ok tt) in
  let executor (name : string) : option Device.Capability :=
    if String.eqb name "volume" then Some volume else None in
  MediaPlayer.command (K := Z) (fun _ => Ok tt) (fun _ => true) (fun _ => None) VInt executor
    (Device.new_device "00:11" "X" [] []) "volume"
    (Some (<["volume" := VInt 250]> ∅))
  = (Ok OK, [Device.ExecVolume (Device.percent_to_db 250)]) /\
  PrimFloat.leb (-100) (Device.percent_to_db 250) = true /\
  PrimFloat.leb (Device.percent_to_db 250) 0 = true.
Proof.
  intros volume executor.
  destruct (proj1 (X17_volume_command Z (fun _ => Ok tt) (fun _ => true) (fun _ => None) VInt
                     executor (Device.new_device "00:11" "X" [] [])
                     (Some (<["volume" := VInt 250]> ∅)))
              (<["volume" := VInt 250]> ∅) 250 eq_refl
              (lookup_insert_eq _ _ _))
    as (_ & Hok & Hlo & Hhi).
  split; [|split; assumption].
  apply (Hok volume); reflexivity.
Defined.

(** *** What the adapters report *)

Lemma changed_value_inv (self_attributes update : gmap string PyVal)
    (key : string) (v : PyVal) :
  changed_value self_attributes update key = Some v ->
  update !! key = Some v /\
  exists a, self_attributes !! key = Some a /\ py_neb v a = true.
Proof.
  unfold changed_value.
  destruct (update !! key) as [u|]; [|discriminate].
  destruct (self_attributes !! key) as [a|]; [|discriminate].
  destruct (py_neb u a) eqn:E; [|discriminate].
  intros [= <-]. split; [reflexivity|]. exists a. auto.
Qed.

(** X18.  What the media-player adapter reports.  Every reported key
    is one of the seven attributes it watches.  A reported value
    differs from the attribute the entity holds and is the update's
    value (for the sound-mode list: the device's cached list, whatever
    the update carried), unless it is the empty source or source list
    that accompanies a reported state OFF. *)
Theorem X18_media_filter_reports_changes_only
    (K : Type) (d : Device.TrinnovDevice K)
    (self_attributes update : gmap string PyVal) (key : string) (v : PyVal) :
  MediaPlayer.filter_changed_attributes d self_attributes update !! key = Some v ->
  In key [MediaAttr.MUTED; MediaAttr.SOUND_MODE; MediaAttr.SOUND_MODE_LIST;
          MediaAttr.SOURCE; MediaAttr.SOURCE_LIST; MediaAttr.STATE;
          MediaAttr.VOLUME] /\
  ((exists a, self_attributes !! key = Some a /\ py_neb v a = true /\
              (key = MediaAttr.SOUND_MODE_LIST ->
               v = table_values (Device._attr_sound_modes d)) /\
              (key <> MediaAttr.SOUND_MODE_LIST -> update !! key = Some v)) \/
   ((key = MediaAttr.SOURCE /\ v = VStr "" \/
     key = MediaAttr.SOURCE_LIST /\ v = VList []) /\
    exists s,
      MediaPlayer.filter_changed_attributes d self_attributes update
        !! MediaAttr.STATE = Some s /\
      py_eqb s (VStr MediaStates.OFF) = true)).
Proof.
  set (keys := [MediaAttr.MUTED; MediaAttr.SOUND_MODE; MediaAttr.SOUND_MODE_LIST;
                MediaAttr.SOURCE; MediaAttr.SOURCE_LIST; MediaAttr.STATE;
                MediaAttr.VOLUME]).
  set (update' := <[MediaAttr.SOUND_MODE_LIST :=
                      table_values (Device._attr_sound_modes d)]> update).
  assert (Hloop : forall k w,
            changed_among keys self_attributes update' !! k = Some w ->
            In k keys /\
            exists a, self_attributes !! k = Some a /\ py_neb w a = true /\
                      (k = MediaAttr.SOUND_MODE_LIST ->
                       w = table_values (Device._attr_sound_modes d)) /\
                      (k <> MediaAttr.SOUND_MODE_LIST -> update !! k = Some w)).
  { intros k w. rewrite changed_among_lookup.
    destruct (bool_decide (k ∈ keys)) eqn:Ein; [|discriminate].
    apply bool_decide_eq_true_1 in Ein.
    intros Hch. apply changed_value_inv in Hch.
    destruct Hch as (Hu & a & Ha & Hne).
    split; [now apply list_elem_of_In|].
    exists a. split; [exact Ha|]. split; [exact Hne|]. split.
    - intros ->. unfold update' in Hu. rewrite lookup_insert_eq in Hu. congruence.
    - intros Hk. unfold update' in Hu.
      rewrite lookup_insert_ne in Hu by congruence. exact Hu. }
  unfold MediaPlayer.filter_changed_attributes.
  fold update'. fold keys. cbv zeta.
  destruct (py_eqb (dict_get (changed_among keys self_attributes update')
                      MediaAttr.STATE) (VStr MediaStates.OFF)) eqn:Eoff.
  - intros Hlook.
    assert (Hstate : exists s,
              <[MediaAttr.SOURCE_LIST := VList []]>
                (<[MediaAttr.SOURCE := VStr ""]>
                   (changed_among keys self_attributes update'))
                !! MediaAttr.STATE = Some s /\
              py_eqb s (VStr MediaStates.OFF) = true).
    { rewrite !lookup_insert_ne by discriminate.
      unfold dict_get in Eoff.
      destruct (changed_among keys self_attributes update' !! MediaAttr.STATE)
        as [s|]; [|discriminate].
      exists s. auto. }
    destruct (decide (key = MediaAttr.SOURCE_LIST)) as [->|Hk1].
    + rewrite lookup_insert_eq in Hlook. injection Hlook as <-.
      split; [cbn; tauto|]. right. split; [right; auto | exact Hstate].
    + rewrite lookup_insert_ne in Hlook by congruence.
      destruct (decide (key = MediaAttr.SOURCE)) as [->|Hk2].
      * rewrite lookup_insert_eq in Hlook. injection Hlook as <-.
        split; [cbn; tauto|]. right. split; [left; auto | exact Hstate].
      * rewrite lookup_insert_ne in Hlook by congruence.
        destruct (Hloop key v Hlook) as (Hin & Hrest). split; [exact Hin|].
        left. exact Hrest.
  - intros Hlook. destruct (Hloop key v Hlook) as (Hin & Hrest).
    split; [exact Hin|]. left. exact Hrest.
Qed.

Lemma X18_witness :
  In MediaAttr.VOLUME
     [MediaAttr.MUTED; MediaAttr.SOUND_MODE; MediaAttr.SOUND_MODE_LIST;
      MediaAttr.SOURCE; MediaAttr.SOURCE_LIST; MediaAttr.STATE;
      MediaAttr.VOLUME] /\
  ((exists a, MediaPlayer.initial_attributes !! MediaAttr.VOLUME = Some a /\
              py_neb (VInt 40) a = true /\
              (MediaAttr.VOLUME = MediaAttr.SOUND_MODE_LIST ->
               VInt 40 = table_values
                           (Device._attr_sound_modes
                              (Device.new_device (K := Z) "00:11" "X" [] []))) /\
              (MediaAttr.VOLUME <> MediaAttr.SOUND_MODE_LIST ->
               (<[MediaAttr.VOLUME := VInt 40]> ∅ : gmap string PyVal)
                 !! MediaAttr.VOLUME = Some (VInt 40))) \/
   ((MediaAttr.VOLUME = MediaAttr.SOURCE /\ VInt 40 = VStr "" \/
     MediaAttr.VOLUME = MediaAttr.SOURCE_LIST /\ VInt 40 = VList []) /\
    exists s,
      MediaPlayer.filter_changed_attributes
        (Device.new_device (K := Z) "00:11" "X" [] [])
        MediaPlayer.initial_attributes (<[MediaAttr.VOLUME := VInt 40]> ∅)
        !! MediaAttr.STATE = Some s /\
      py_eqb s (VStr MediaStates.OFF) = true)).
Proof.
  apply (X18_media_filter_reports_changes_only Z
           (Device.new_device "00:11" "X" [] [])
           MediaPlayer.initial_attributes (<[MediaAttr.VOLUME := VInt 40]> ∅)
           MediaAttr.VOLUME (VInt 40)).
  vm_compute. reflexivity.
Defined.

(** X19.  What the sensor adapter reports: only the state and the
    value, never the unit, even when the update carries a new one.  A
    reported value differs from the attribute the entity holds and is
    the update's value, unless it is the text "unknown" that
    accompanies a reported state UNKNOWN. *)
Theorem X19_sensor_filter_reports_changes_only
    (self_attributes update : gmap string PyVal) (key : string) (v : PyVal) :
  Sensor.filter_changed_attributes self_attributes update !! SensorAttr.UNIT = None /\
  (Sensor.filter_changed_attributes self_attributes update !! key = Some v ->
   (key = SensorAttr.STATE \/ key = SensorAttr.VALUE) /\
   ((update !! key = Some v /\
     exists a, self_attributes !! key = Some a /\ py_neb v a = true) \/
    (key = SensorAttr.VALUE /\ v = VStr "unknown" /\
     exists s,
       Sensor.filter_changed_attributes self_attributes update
         !! SensorAttr.STATE = Some s /\
       py_eqb s (VStr SensorStates.UNKNOWN) = true))).
Proof.
  set (keys := [SensorAttr.STATE; SensorAttr.VALUE]).
  assert (Hloop : forall k w,
            changed_among keys self_attributes update !! k = Some w ->
            (k = SensorAttr.STATE \/ k = SensorAttr.VALUE) /\
            update !! k = Some w /\
            exists a, self_attributes !! k = Some a /\ py_neb w a = true).
  { intros k w. rewrite changed_among_lookup.
    destruct (bool_decide (k ∈ keys)) eqn:Ein; [|discriminate].
    apply bool_decide_eq_true_1, list_elem_of_In in Ein.
    intros Hch. apply changed_value_inv in Hch. split; [|exact Hch].
    cbn in Ein. destruct Ein as [<-|[<-|[]]]; auto. }
  unfold Sensor.filter_changed_attributes. fold keys. cbv zeta.
  destruct (changed_among keys self_attributes update !! SensorAttr.STATE)
    as [st|] eqn:Est.
  - destruct (py_eqb st (VStr SensorStates.UNKNOWN)) eqn:Eunk.
    + split.
      * rewrite lookup_insert_ne by discriminate.
        rewrite changed_among_lookup. reflexivity.
      * intros Hlook.
        destruct (decide (key = SensorAttr.VALUE)) as [->|Hk].
        -- rewrite lookup_insert_eq in Hlook. injection Hlook as <-.
           split; [auto|]. right. split; [reflexivity|]. split; [reflexivity|].
           exists st. rewrite lookup_insert_ne by discriminate. auto.
        -- rewrite lookup_insert_ne in Hlook by congruence.
           destruct (Hloop key v Hlook) as (Hk' & Hrest). auto.
    + split; [rewrite changed_among_lookup; reflexivity|].
      intros Hlook. destruct (Hloop key v Hlook) as (Hk' & Hrest). auto.
  - split; [rewrite changed_among_lookup; reflexivity|].
    intros Hlook. destruct (Hloop key v Hlook) as (Hk' & Hrest). auto.
Qed.

Lemma X19_witness :
  let self_attributes : gmap string PyVal :=
    <[SensorAttr.STATE := VStr SensorStates.ON]>
      (<[SensorAttr.VALUE := VStr "48.0"]>
         (<[SensorAttr.UNIT := VStr "kHz"]> ∅)) in
  let update : gmap string PyVal :=
    <[SensorAttr.VALUE := VStr "96.0"]> (<[SensorAttr.UNIT := VStr "Hz"]> ∅) in
  (SensorAttr.VALUE = SensorAttr.STATE \/ SensorAttr.VALUE = SensorAttr.VALUE) /\
  ((update !! SensorAttr.VALUE = Some (VStr "96.0") /\
    exists a, self_attributes !! SensorAttr.VALUE = Some a /\
              py_neb (VStr "96.0") a = true) \/
   (SensorAttr.VALUE = SensorAttr.VALUE /\ VStr "96.0" = VStr "unknown" /\
    exists s,
      Sensor.filter_changed_attributes self_attributes update
        !! SensorAttr.STATE = Some s /\
      py_eqb s (VStr SensorStates.UNKNOWN) = true)).
Proof.
  intros self_attributes update.
  apply (proj2 (X19_sensor_filter_reports_changes_only self_attributes update
                  SensorAttr.VALUE (VStr "96.0"))).
  vm_compute. reflexivity.
Defined.

(** *** Simple commands *)

Lemma append_inj_l (p a b : string) : (p ++ a)%string = (p ++ b)%string -> a = b.
Proof.
  induction p as [|c p IH]; cbn; intros H; [exact H|].
  injection H as H. auto.
Qed.

Lemma append_eqb_l (p a b : string) :
  String.eqb (p ++ a) (p ++ b) = String.eqb a b.
Proof.
  destruct (String.eqb a b) eqn:E.
  - apply String.eqb_eq in E. subst. apply String.eqb_refl.
  - apply String.eqb_neq. intros H. apply append_inj_l in H.
    apply String.eqb_neq in E. contradiction.
Qed.

(** X20.  [parse_toggle_command] recognises exactly the three commands
    made of the prefix and one of [_off], [_on], [_toggle], whatever
    the prefix, and gives the prefix back with the code 0, 1 or 2 as
    text; on every other command it gives [None]. *)
Theorem X20_parse_toggle_command_table (prefix simple_cmd : string) :
  Utils.parse_toggle_command prefix (prefix ++ "_off") = Some (prefix, "0") /\
  Utils.parse_toggle_command prefix (prefix ++ "_on") = Some (prefix, "1") /\
  Utils.parse_toggle_command prefix (prefix ++ "_toggle") = Some (prefix, "2") /\
  (simple_cmd <> prefix ++ "_off" -> simple_cmd <> prefix ++ "_on" ->
   simple_cmd <> prefix ++ "_toggle" ->
   Utils.parse_toggle_command prefix simple_cmd = None) /\
  (forall r, Utils.parse_toggle_command prefix simple_cmd = Some r ->
     fst r = prefix /\
     (simple_cmd = prefix ++ "_off" /\ snd r = "0" \/
      simple_cmd = prefix ++ "_on" /\ snd r = "1" \/
      simple_cmd = prefix ++ "_toggle" /\ snd r = "2")).
Proof.
  unfold Utils.parse_toggle_command. cbn [find fst snd].
  rewrite !append_eqb_l, !String.eqb_refl. cbn.
  split; [reflexivity|]. split; [reflexivity|]. split; [reflexivity|].
  split.
  - intros H1 H2 H3.
    destruct (String.eqb_spec (prefix ++ "_off") simple_cmd); [congruence|].
    destruct (String.eqb_spec (prefix ++ "_on") simple_cmd); [congruence|].
    destruct (String.eqb_spec (prefix ++ "_toggle") simple_cmd); [congruence|].
    reflexivity.
  - intros r.
    destruct (String.eqb_spec (prefix ++ "_off") simple_cmd);
      [intros [= <-]; cbn; auto|].
    destruct (String.eqb_spec (prefix ++ "_on") simple_cmd);
      [intros [= <-]; cbn; auto|].
    destruct (String.eqb_spec (prefix ++ "_toggle") simple_cmd);
      [intros [= <-]; cbn; auto 6|discriminate].
Qed.

(** X21.  The startup check and the dispatcher agree: a command name
    is reported missing by
    [validate_simple_commands_exist_on_executor] exactly when it is
    the lower-cased value of a member and [_execute_command] answers
    NOT_IMPLEMENTED for it, whatever the parameters. *)
Theorem X21_missing_commands_are_not_implemented
    (py_lower : string -> string) (enum_values : list string)
    (executor : string -> option Device.Capability) (name : string) :
  In name (Utils.validate_simple_commands_exist_on_executor py_lower enum_values
             executor)
  <-> In name (map py_lower enum_values) /\
      forall parms, Device._execute_command executor name parms = Ok NOT_IMPLEMENTED.
Proof.
  unfold Utils.validate_simple_commands_exist_on_executor, Device._execute_command.
  rewrite List.filter_In. split.
  - intros [Hin Hnone]. split; [exact Hin|]. intros parms.
    destruct (executor name); [discriminate | reflexivity].
  - intros [Hin Hall]. split; [exact Hin|].
    specialize (Hall VNone).
    destruct (executor name) as [method|]; [|reflexivity].
    destruct (Device.call_method method VNone) as [u|[]]; discriminate.
Qed.

(** X22.  The name a simple command is shown under leads back to the
    command: for each of the sixteen members, replacing the spaces of
    its [display_name] by underscores and lower-casing the text, as
    the remote's [command] does, gives the member's value. *)
Theorem X22_display_name_leads_back_to_value (name value : string) :
  In (name, value) SimpleCommands.members ->
  exists shown,
    SimpleCommands.display_name name = Some shown /\
    Str.lower_ascii (Str.replace_char " " "_" shown) = value /\
    In value SimpleCommands.values.
Proof.
  intros Hin. cbn in Hin.
  repeat (destruct Hin as [[= <- <-]|Hin];
          [eexists; split; [vm_compute; reflexivity|];
           split; [vm_compute; reflexivity | cbn; tauto]|]).
  contradiction.
Qed.

Lemma X22_witness :
  exists shown,
    SimpleCommands.display_name "SELECT_SOUND_MODE" = Some shown /\
    Str.lower_ascii (Str.replace_char " " "_" shown) = "select_sound_mode" /\
    In "select_sound_mode" SimpleCommands.values.
Proof.
  apply (X22_display_name_leads_back_to_value "SELECT_SOUND_MODE"
           "select_sound_mode").
  cbn. tauto.
Defined.

(** *** The remote entity's commands *)

Section RemoteCommandFacts.

Context {K : Type}.
Variable power_control : string -> result unit.
Variable parse_int : string -> option Z.
Variable py_lower : string -> string.
Implicit Types (executor : string -> option Device.Capability)
  (d : Device.TrinnovDevice K) (m : gmap string PyVal).

(** SEND_CMD with a non-empty command text that does not start with
    "remote" is handled by [send_cmd]. *)
Lemma send_cmd_reached executor d m (s : string) :
  m !! "command" = Some (VStr s) ->
  s <> "" ->
  Str.startswith "remote" s = false ->
  RemoteEntity.command power_control parse_int py_lower executor d "send_cmd" (Some m)
  = (RemoteEntity.send_cmd py_lower executor d s, []).
Proof.
  intros Hm Hne Hpre. unfold RemoteEntity.command, dict_get.
  rewrite Hm. unfold RemoteEntity.effective_cmd_id.
  assert (Ht : py_truthy (VStr s) = true).
  { cbn. destruct (String.eqb_spec s ""); [contradiction | reflexivity]. }
  rewrite Ht, Hpre. reflexivity.
Qed.

Lemma simple_command_cases (c : string) :
  existsb (String.eqb c) SimpleCommands.values = true ->
  In c SimpleCommands.values.
Proof.
  intros H. apply existsb_exists in H. destruct H as (x & Hin & Heq).
  apply String.eqb_eq in Heq. now subst.
Qed.

(** The executor methods [send_cmd] can call. *)
Lemma send_cmd_reach executor1 executor2 d (s : string) :
  (forall name,
     In name ["mute"; "dim"; "bypass"; "back"; "fav_light";
              "select_sound_mode"; "select_source"; "volume";
              "volume_down"; "volume_up"] ->
     executor1 name = executor2 name) ->
  RemoteEntity.send_cmd py_lower executor1 d s
  = RemoteEntity.send_cmd py_lower executor2 d s.
Proof.
  intros Hagree. unfold RemoteEntity.send_cmd.
  set (c := py_lower (Str.replace_char " " "_" s)). clearbody c.
  destruct (existsb (String.eqb c) SimpleCommands.values) eqn:E; [|reflexivity].
  apply simple_command_cases in E. cbn in E.
  repeat (destruct E as [<-|E];
          [unfold Utils.parse_toggle_command; simpl;
           unfold Device.send_command, Device._execute_command;
           rewrite Hagree by (simpl; tauto); reflexivity|]).
  contradiction.
Qed.

End RemoteCommandFacts.

(** X23.  How the remote's SEND_CMD dispatches a command text that is
    not empty and does not start with "remote".  The text is
    normalised (spaces to underscores, lower case).  A normalised text
    that is no value of [SimpleCommands] is answered NOT_IMPLEMENTED
    without reaching the device.  The nine toggle commands call the
    executor method named by their prefix ([mute], [dim], [bypass])
    with the code "0", "1" or "2"; every other simple command calls
    the method of its own name with [None]. *)
Theorem X23_send_cmd_dispatch
    (K : Type) (power_control : string -> result unit)
    (parse_int : string -> option Z) (py_lower : string -> string)
    (executor : string -> option Device.Capability)
    (d : Device.TrinnovDevice K) (m : gmap string PyVal) (s : string) :
  m !! "command" = Some (VStr s) ->
  s <> "" ->
  Str.startswith "remote" s = false ->
  let c := py_lower (Str.replace_char " " "_" s) in
  let answer := RemoteEntity.command power_control parse_int py_lower executor d "send_cmd" (Some m) in
  (~ In c SimpleCommands.values -> answer = (RemoteEntity.Status NOT_IMPLEMENTED, [])) /\
  (forall prefix suffix code,
     In prefix ["mute"; "dim"; "bypass"] ->
     In (suffix, code) [("_off", "0"); ("_on", "1"); ("_toggle", "2")] ->
     c = prefix ++ suffix ->
     answer
     = (RemoteEntity.of_result (Device.send_command executor d prefix (VStr code)), [])) /\
  (In c ["back"; "fav_light"; "select_sound_mode"; "select_source"; "volume";
         "volume_down"; "volume_up"] ->
   answer = (RemoteEntity.of_result (Device.send_command executor d c VNone), [])).
Proof.
  intros Hm Hne Hpre c answer. unfold answer. clear answer.
  rewrite (send_cmd_reached power_control parse_int py_lower executor d m s Hm Hne Hpre).
  unfold RemoteEntity.send_cmd. fold c. clearbody c.
  split; [|split].
  - intros Hnot.
    destruct (existsb (String.eqb c) SimpleCommands.values) eqn:E; [|reflexivity].
    apply simple_command_cases in E. contradiction.
  - intros prefix suffix code Hp Hs ->. cbn in Hp, Hs.
    destruct Hp as [<-|[<-|[<-|[]]]];
      destruct Hs as [[= <- <-]|[[= <- <-]|[[= <- <-]|[]]]]; reflexivity.
  - intros Hin. cbn in Hin.
    repeat (destruct Hin as [<-|Hin]; [reflexivity|]). contradiction.
Qed.

Lemma X23_witness :
  let executor (name : string) : option Device.Capability :=
    if String.eqb name "dim"
    then Some (Device.mkCapability ["mode"] (fun _ => Ok tt)) else None in
  let d : Device.TrinnovDevice Z :=
    Device.set_connected true (Device.new_device "00:11" "X" [] []) in
  RemoteEntity.command (fun _ => Ok tt) (fun _ => None) Str.lower_ascii executor d "send_cmd"
    (Some (<["command" := VStr "Dim toggle"]> ∅))
  = (RemoteEntity.of_result (Device.send_command executor d "dim" (VStr "2")), []).
Proof.
  intros executor d.
  apply (proj1 (proj2 (X23_send_cmd_dispatch Z (fun _ => Ok tt) (fun _ => None) Str.lower_ascii
                         executor d (<["command" := VStr "Dim toggle"]> ∅)
                         "Dim toggle" (lookup_insert_eq _ _ _)
                         ltac:(discriminate) eq_refl))
           "dim" "_toggle" "2").
  - cbn. tauto.
  - cbn. tauto.
  - reflexivity.
Defined.

(** X24.  The remote entity reaches the executor through eleven
    method names only: [power_off], and [mute], [dim], [bypass],
    [back], [fav_light], [select_sound_mode], [select_source],
    [volume], [volume_down] and [volume_up].  Two executors that agree
    on these get the same answer and the same effects for every
    request; and [power_off] is among them because the command OFF on
    a device that is ON calls it. *)
Theorem X24_remote_reaches_eleven_methods
    (K : Type) (power_control : string -> result unit)
    (parse_int : string -> option Z) (py_lower : string -> string)
    (executor1 executor2 : string -> option Device.Capability)
    (d : Device.TrinnovDevice K) (cmd_id : string)
    (params : option (gmap string PyVal)) :
  (forall name,
     In name ["power_off"; "mute"; "dim"; "bypass"; "back"; "fav_light";
              "select_sound_mode"; "select_source"; "volume";
              "volume_down"; "volume_up"] ->
     executor1 name = executor2 name) ->
  RemoteEntity.command power_control parse_int py_lower executor1 d cmd_id params
  = RemoteEntity.command power_control parse_int py_lower executor2 d cmd_id params /\
  (Device._attr_state d = MediaStates.ON ->
   RemoteEntity.command power_control parse_int py_lower executor1 d "off" None
   = (RemoteEntity.of_result
        (fst (Device.executor_request executor1 "power_off" []
                (Device.ExecPowerOff (K := K)))),
      snd (Device.executor_request executor1 "power_off" []
             (Device.ExecPowerOff (K := K))))).
Proof.
  intros Hagree. split.
  - unfold RemoteEntity.command.
    destruct (RemoteEntity.effective_cmd_id _ _) as [e|id]; [reflexivity|].
    destruct (RemoteEntity.Commands_of_value id) as [[| | |]|]; try reflexivity.
    + unfold Device.power_off, Device.executor_request.
      rewrite (Hagree "power_off") by (cbn; tauto). reflexivity.
    + destruct (dict_get _ "command") as [|b|z|f|s|l|l]; try reflexivity.
      destruct (py_truthy (VStr s)); [|reflexivity].
      f_equal. apply (send_cmd_reach power_control parse_int).
      intros name Hin. apply Hagree. cbn in Hin |- *. tauto.
    + unfold RemoteEntity.send_cmd_sequence, Device.executor_request.
      rewrite (Hagree "volume") by (cbn; tauto). reflexivity.
  - intros Hon. unfold RemoteEntity.command, dict_get.
    rewrite lookup_empty.
    cbn [RemoteEntity.effective_cmd_id py_truthy
         RemoteEntity.Commands_of_value String.eqb Ascii.eqb Bool.eqb].
    unfold Device.power_off. rewrite Hon. cbn [String.eqb Ascii.eqb Bool.eqb].
    now destruct (Device.executor_request executor1 "power_off" [] _).
Qed.

Lemma X24_witness :
  let capability := Device.mkCapability [] (fun _ => Ok tt) in
  let executor1 (name : string) : option Device.Capability :=
    if String.eqb name "power_off" then Some capability else None in
  let executor2 (name : string) : option Device.Capability :=
    if String.eqb name "power_off" then Some capability
    else if String.eqb name "reboot" then Some capability else None in
  let d : Device.TrinnovDevice Z :=
    Device.set_connected true (Device.new_device "00:11" "X" [] []) in
  RemoteEntity.command (fun _ => Ok tt) (fun _ => None) Str.lower_ascii executor1 d "send_cmd"
    (Some (<["command" := VStr "reboot"]> ∅))
  = RemoteEntity.command (fun _ => Ok tt) (fun _ => None) Str.lower_ascii executor2 d "send_cmd"
      (Some (<["command" := VStr "reboot"]> ∅)).
Proof.
  intros capability executor1 executor2 d.
  apply (X24_remote_reaches_eleven_methods Z (fun _ => Ok tt) (fun _ => None) Str.lower_ascii
           executor1 executor2 d "send_cmd"
           (Some (<["command" := VStr "reboot"]> ∅))).
  intros name Hin. cbn in Hin.
  repeat (destruct Hin as [<-|Hin]; [reflexivity|]). contradiction.
Defined.

(** *** The command parameter that names another command *)

Lemma split_char_no_sep (sep : ascii) (s : string) :
  (forall n, String.get n s <> Some sep) ->
  Str.split_char sep s = [s].
Proof.
  induction s as [|c s IH]; intros Hno; [reflexivity|].
  cbn [Str.split_char].
  destruct (Ascii.eqb_spec c sep) as [->|Hne].
  - destruct (Hno 0%nat). reflexivity.
  - rewrite IH; [reflexivity|]. intros n. exact (Hno (S n)).
Qed.

(** X25.  A truthy ["command"] parameter that starts with "remote"
    takes the place of the command id: the given [cmd_id] no longer
    matters.  For "remote." followed by a text without dots the
    request is handled under that text; for a text that starts with
    "remote" and holds no dot at all, [command] raises
    [IndexError]. *)
Theorem X25_remote_prefixed_command_replaces_cmd_id
    (K : Type) (power_control : string -> result unit)
    (parse_int : string -> option Z) (py_lower : string -> string)
    (executor : string -> option Device.Capability)
    (d : Device.TrinnovDevice K) (m : gmap string PyVal)
    (s cmd_id cmd_id' : string) :
  m !! "command" = Some (VStr s) ->
  Str.startswith "remote" s = true ->
  RemoteEntity.command power_control parse_int py_lower executor d cmd_id (Some m)
  = RemoteEntity.command power_control parse_int py_lower executor d cmd_id' (Some m) /\
  (forall t, s = "remote." ++ t ->
     (forall n, String.get n t <> Some "."%char) ->
     RemoteEntity.effective_cmd_id cmd_id (VStr s) = inr t) /\
  ((forall n, String.get n s <> Some "."%char) ->
   RemoteEntity.command power_control parse_int py_lower executor d cmd_id (Some m)
   = (RemoteEntity.Raises IndexError, [])).
Proof.
  intros Hm Hpre.
  assert (Ht : py_truthy (VStr s) = true).
  { destruct s; [discriminate | reflexivity]. }
  assert (Heff : forall id, RemoteEntity.effective_cmd_id id (VStr s)
                            = match Str.split_char "." s with
                              | _ :: second :: _ => inr second
                              | _ => inl IndexError
                              end).
  { intros id. unfold RemoteEntity.effective_cmd_id. now rewrite Ht, Hpre. }
  split; [|split].
  - unfold RemoteEntity.command, dict_get. rewrite Hm, !Heff. reflexivity.
  - intros t -> Hno. rewrite Heff.
    change (Str.split_char "." ("remote." ++ t))
      with ("remote" :: Str.split_char "." t).
    rewrite (split_char_no_sep "." t Hno). reflexivity.
  - intros Hno. unfold RemoteEntity.command, dict_get.
    rewrite Hm, Heff, (split_char_no_sep "." s Hno). reflexivity.
Qed.

Lemma X25_witness :
  let d : Device.TrinnovDevice Z :=
    Device.set_attr_state MediaStates.ON (Device.new_device "00:11" "X" [] []) in
  let m : gmap string PyVal := <["command" := VStr "remote.off"]> ∅ in
  RemoteEntity.command (fun _ => Ok tt) (fun _ => None) Str.lower_ascii (fun _ => None) d
    "send_cmd" (Some m)
  = RemoteEntity.command (fun _ => Ok tt) (fun _ => None) Str.lower_ascii (fun _ => None) d
      "off" (Some m) /\
  RemoteEntity.effective_cmd_id "send_cmd" (VStr "remote.off") = inr "off".
Proof.
  intros d m.
  pose proof (X25_remote_prefixed_command_replaces_cmd_id Z (fun _ => Ok tt) (fun _ => None)
                Str.lower_ascii (fun _ => None) d m "remote.off"
                "send_cmd" "off" (lookup_insert_eq _ _ _) eq_refl)
    as (Hsame & Hid & _).
  split; [exact Hsame|].
  apply (Hid "off" eq_refl).
  intros [|[|[|n]]]; discriminate.
Defined.

(** X26.  The command sequence of the remote.  Without a ["command"]
    parameter, a sequence that starts with "volume" and whose second
    item converts to an integer calls the executor's [volume] with the
    dB value of that percentage, between -100.0 and 0.0, connected or
    not: the answer is OK when the call returns and BAD_REQUEST when
    it raises [ValueError] or [IndexError]; any other exception of the
    call leaves [command], as does the [AttributeError] of an executor
    without that method.  When the second item is missing or is text that is
    no integer, the answer is BAD_REQUEST and nothing is called; a
    missing sequence is answered NOT_IMPLEMENTED. *)
Theorem X26_volume_sequence
    (K : Type) (power_control : string -> result unit)
    (parse_int : string -> option Z) (py_lower : string -> string)
    (executor : string -> option Device.Capability)
    (d : Device.TrinnovDevice K) (m : gmap string PyVal) :
  m !! "command" = None ->
  let answer :=
    RemoteEntity.command power_control parse_int py_lower executor d "send_cmd_sequence" (Some m) in
  (forall v more p,
     m !! "sequence" = Some (VList (VStr "volume" :: v :: more)) ->
     MediaPlayer.py_int parse_int v = Ok p ->
     let db := Device.percent_to_db p in
     PrimFloat.leb (-100) db = true /\
     PrimFloat.leb db 0 = true /\
     (executor "volume" = None ->
      answer = (RemoteEntity.Raises AttributeError, [])) /\
     (forall method,
        executor "volume" = Some method ->
        answer
        = (match Device.invoke method
                   (Device.bind_positional method [VFloat db]) with
           | Ok _ => RemoteEntity.Status OK
           | Raise IndexError | Raise ValueError =>
               RemoteEntity.Status BAD_REQUEST
           | Raise e => RemoteEntity.Raises e
           end, [Device.ExecVolume db]))) /\
  (forall v more,
     m !! "sequence" = Some (VList (VStr "volume" :: v :: more)) ->
     MediaPlayer.py_int parse_int v = Raise ValueError ->
     answer = (RemoteEntity.Status BAD_REQUEST, [])) /\
  (m !! "sequence" = Some (VList [VStr "volume"]) ->
   answer = (RemoteEntity.Status BAD_REQUEST, [])) /\
  (m !! "sequence" = None ->
   answer = (RemoteEntity.Status NOT_IMPLEMENTED, [])).
Proof.
  intros Hm answer. unfold answer, RemoteEntity.command, dict_get. clear answer.
  rewrite Hm. cbn [RemoteEntity.effective_cmd_id py_truthy
                   RemoteEntity.Commands_of_value String.eqb Ascii.eqb Bool.eqb].
  split; [|split; [|split]].
  - intros v more p Hs Hp. rewrite Hs.
    destruct (percent_to_db_on_scale p) as [Hlo Hhi].
    split; [exact Hlo|]. split; [exact Hhi|].
    unfold RemoteEntity.send_cmd_sequence.
    cbn [py_truthy RemoteEntity.subscript nth_error py_eqb String.eqb
         Ascii.eqb Bool.eqb].
    rewrite Hp. unfold Device.executor_request. split.
    + intros ->. reflexivity.
    + intros method ->.
      now destruct (Device.invoke method _) as [[]|[]].
  - intros v more Hs Hp. rewrite Hs.
    unfold RemoteEntity.send_cmd_sequence. cbn. rewrite Hp. reflexivity.
  - intros Hs. rewrite Hs. reflexivity.
  - intros Hs. rewrite Hs. reflexivity.
Qed.

Lemma X26_witness :
  let parse_int (s : string) : option Z :=
    if String.eqb s "60" then Some 60 else None in
  let m : gmap string PyVal :=
    <["sequence" := VList [VStr "volume"; VStr "60"]]> ∅ in
  let volume := Device.mkCapability ["db"] (fun _ => Ok tt) in
  let refusing := Device.mkCapability ["db"] (fun _ => Raise ValueError) in
  let d : Device.TrinnovDevice Z := Device.new_device "00:11" "X" [] [] in
  RemoteEntity.command (fun _ => Ok tt) parse_int Str.lower_ascii
    (fun name => if String.eqb name "volume" then Some volume else None)
    d "send_cmd_sequence" (Some m)
  = (RemoteEntity.Status OK, [Device.ExecVolume (Device.percent_to_db 60)]) /\
  RemoteEntity.command (fun _ => Ok tt) parse_int Str.lower_ascii
    (fun name => if String.eqb name "volume" then Some refusing else None)
    d "send_cmd_sequence" (Some m)
  = (RemoteEntity.Status BAD_REQUEST,
     [Device.ExecVolume (Device.percent_to_db 60)]) /\
  RemoteEntity.command (fun _ => Ok tt) parse_int Str.lower_ascii (fun _ => None)
    d "send_cmd_sequence" (Some m)
  = (RemoteEntity.Raises AttributeError, []).
Proof.
  intros parse_int m volume refusing d.
  assert (Hm : m !! "command" = None) by (vm_compute; reflexivity).
  assert (Hs : m !! "sequence" = Some (VList [VStr "volume"; VStr "60"]))
    by apply lookup_insert_eq.
  split; [|split].
  - destruct (proj1 (X26_volume_sequence Z (fun _ => Ok tt) parse_int Str.lower_ascii
                       (fun name => if String.eqb name "volume"
                                    then Some volume else None) d m Hm)
                (VStr "60") [] 60 Hs eq_refl) as (_ & _ & _ & Hcall).
    exact (Hcall volume eq_refl).
  - destruct (proj1 (X26_volume_sequence Z (fun _ => Ok tt) parse_int Str.lower_ascii
                       (fun name => if String.eqb name "volume"
                                    then Some refusing else None) d m Hm)
                (VStr "60") [] 60 Hs eq_refl) as (_ & _ & _ & Hcall).
    exact (Hcall refusing eq_refl).
  - destruct (proj1 (X26_volume_sequence Z (fun _ => Ok tt) parse_int Str.lower_ascii
                       (fun _ => None) d m Hm)
                (VStr "60") [] 60 Hs eq_refl) as (_ & _ & Hnone & _).
    exact (Hnone eq_refl).
Defined.

(** *** The stored configuration *)

Section ConfigFacts.

Import Config.
Implicit Types (config : list TrinnovInfo) (device_id : option string).

Lemma same_id_true (a b : option string) : same_id a b = true <-> a = b.
Proof. unfold same_id. apply bool_decide_eq_true. Qed.

Lemma same_id_false (a b : option string) : same_id a b = false <-> a <> b.
Proof. unfold same_id. apply bool_decide_eq_false. Qed.

Lemma contains_In device_id config :
  contains device_id config = true <-> In device_id (map id config).
Proof.
  unfold contains. rewrite existsb_exists, in_map_iff. split.
  - intros (x & Hin & Heq). apply same_id_true in Heq. eauto.
  - intros (x & Heq & Hin). exists x. split; [exact Hin|].
    now apply same_id_true.
Qed.

Lemma contains_get device_id config :
  contains device_id config = true <-> is_Some (get device_id config).
Proof.
  unfold contains, get. induction config as [|x config IH]; cbn.
  - split; [discriminate | intros [x H]; discriminate].
  - destruct (same_id (id x) device_id); cbn; [|exact IH].
    split; eauto.
Qed.

Lemma get_id device_id config (found : TrinnovInfo) :
  get device_id config = Some found -> id found = device_id /\ In found config.
Proof.
  unfold get. intros H. apply find_some in H. destruct H as [Hin Heq].
  apply same_id_true in Heq. auto.
Qed.

(** [pop_first] cuts out the first entry of the id. *)
Lemma pop_first_spec device_id config :
  match pop_first device_id config with
  | Some (removed, config') =>
      exists pre post,
        config = (pre ++ removed :: post)%list /\ config' = (pre ++ post)%list /\
        id removed = device_id /\
        forall x, In x pre -> id x <> device_id
  | None => forall x, In x config -> id x <> device_id
  end.
Proof.
  induction config as [|x config IH]; cbn [pop_first].
  - intros x [].
  - destruct (same_id (id x) device_id) eqn:E.
    + apply same_id_true in E. exists [], config.
      repeat split; auto; try (intros y []).
    + apply same_id_false in E.
      destruct (pop_first device_id config) as [[removed config']|].
      * destruct IH as (pre & post & -> & -> & Hid & Hpre).
        exists (x :: pre), post.
        split; [reflexivity|]. split; [reflexivity|]. split; [exact Hid|].
        intros y [<-|Hy]; auto.
      * intros y [<-|Hy]; auto.
Qed.

(** [replace_first] swaps the first entry of the id for the new one. *)
Lemma replace_first_spec (updated : TrinnovInfo) config :
  match replace_first updated config with
  | Some config' =>
      exists pre old post,
        config = (pre ++ old :: post)%list /\
        config' = (pre ++ updated :: post)%list /\
        id old = id updated /\
        forall x, In x pre -> id x <> id updated
  | None => forall x, In x config -> id x <> id updated
  end.
Proof.
  induction config as [|x config IH]; cbn [replace_first].
  - intros x [].
  - destruct (same_id (id x) (id updated)) eqn:E.
    + apply same_id_true in E. exists [], x, config.
      repeat split; auto; try (intros y []).
    + apply same_id_false in E.
      destruct (replace_first updated config) as [config'|].
      * destruct IH as (pre & old & post & -> & -> & Hid & Hpre).
        exists (x :: pre), old, post.
        split; [reflexivity|]. split; [reflexivity|]. split; [exact Hid|].
        intros y [<-|Hy]; auto.
      * intros y [<-|Hy]; auto.
Qed.

Lemma get_skip device_id (pre : list TrinnovInfo) config :
  (forall x, In x pre -> id x <> device_id) ->
  get device_id (pre ++ config) = get device_id config.
Proof.
  intros Hpre. unfold get. induction pre as [|x pre IH]; [reflexivity|].
  cbn. rewrite (proj2 (same_id_false (id x) device_id)) by (apply Hpre; now left).
  apply IH. intros y Hy. apply Hpre. now right.
Qed.

Lemma get_app device_id (l1 l2 : list TrinnovInfo) :
  get device_id (l1 ++ l2)
  = match get device_id l1 with
    | Some found => Some found
    | None => get device_id l2
    end.
Proof.
  unfold get. induction l1 as [|x l1 IH]; [reflexivity|].
  cbn. destruct (same_id (id x) device_id); [reflexivity | exact IH].
Qed.

Lemma get_absent device_id config :
  (forall x, In x config -> id x <> device_id) -> get device_id config = None.
Proof.
  intros Habs. unfold get. induction config as [|x config IH]; [reflexivity|].
  cbn. rewrite (proj2 (same_id_false (id x) device_id)) by (apply Habs; now left).
  apply IH. intros y Hy. apply Habs. now right.
Qed.

End ConfigFacts.

(** X27.  No method of the stored configuration creates a second
    entry of an id: when the ids of the list are pairwise distinct
    they still are after [add], [remove], [update] and [clear]. *)
Theorem X27_config_ids_stay_unique
    (add_handler remove_handler file_exists : bool)
    (config : list Config.TrinnovInfo) (trinnov : Config.TrinnovInfo)
    (device_id : option string) :
  Config.unique_ids config ->
  Config.unique_ids (fst (Config.add add_handler trinnov config)) /\
  Config.unique_ids (fst (fst (Config.remove remove_handler device_id config))) /\
  Config.unique_ids (fst (fst (Config.update trinnov config))) /\
  Config.unique_ids (fst (Config.clear remove_handler file_exists config)).
Proof.
  unfold Config.unique_ids. intros Huniq. split; [|split; [|split]].
  - unfold Config.add.
    destruct (existsb _ config) eqn:E; [exact Huniq|]. cbn [fst].
    rewrite List.map_app. cbn [map].
    apply NoDup_app. split; [exact Huniq|]. split; [|apply NoDup_singleton].
    intros x Hx Hx'. apply list_elem_of_singleton in Hx'. subst x.
    apply list_elem_of_In in Hx.
    apply (contains_In (Config.id trinnov) config) in Hx.
    unfold Config.contains in Hx. congruence.
  - unfold Config.remove.
    pose proof (pop_first_spec device_id config) as Hpop.
    destruct (Config.pop_first device_id config) as [[removed config']|];
      [|exact Huniq].
    destruct Hpop as (pre & post & -> & -> & _ & _). cbn [fst].
    rewrite List.map_app in *. cbn [map] in Huniq.
    apply NoDup_app in Huniq. destruct Huniq as (Hpre & Hdisj & Hpost).
    apply NoDup_cons in Hpost. destruct Hpost as [_ Hpost].
    apply NoDup_app. split; [exact Hpre|]. split; [|exact Hpost].
    intros x Hx Hx'. apply (Hdisj x Hx). now right.
  - unfold Config.update.
    pose proof (replace_first_spec trinnov config) as Hrep.
    destruct (Config.replace_first trinnov config) as [config'|];
      [|exact Huniq].
    destruct Hrep as (pre & old & post & -> & -> & Hid & _). cbn [fst].
    rewrite List.map_app in *. cbn [map] in *. now rewrite <- Hid.
  - cbn. apply NoDup_nil. exact I.
Qed.

Lemma X27_witness :
  let a := Config.mkInfo (Some "A") (Some "Trinnov A") (Some "10.0.0.2")
             (Some "00:11") None None in
  let b := Config.mkInfo (Some "B") (Some "Trinnov B") (Some "10.0.0.3")
             (Some "00:12") None None in
  Config.unique_ids (fst (Config.add true b [a])) /\
  Config.unique_ids (fst (fst (Config.remove true (Some "A") [a]))) /\
  Config.unique_ids (fst (fst (Config.update b [a]))) /\
  Config.unique_ids (fst (Config.clear true true [a])).
Proof.
  intros a b.
  apply (X27_config_ids_stay_unique true true true [a] b (Some "A")).
  unfold Config.unique_ids. cbn. apply NoDup_singleton.
Defined.

(** X28.  Adding to the stored configuration.  A device whose id the
    list holds already is ignored: the list stays as it is, no handler
    is called and nothing is stored.  A device of a new id is appended
    and found under its id afterwards, every other id is found as
    before, the add handler (if there is one) is called once with the
    device, and the last thing done is to store the new list. *)
Theorem X28_config_add
    (add_handler : bool) (config : list Config.TrinnovInfo)
    (trinnov : Config.TrinnovInfo) (other : option string) :
  (Config.contains (Config.id trinnov) config = true ->
   Config.add add_handler trinnov config = (config, [])) /\
  (Config.contains (Config.id trinnov) config = false ->
   let config' := fst (Config.add add_handler trinnov config) in
   Config.get (Config.id trinnov) config' = Some trinnov /\
   Config.contains (Config.id trinnov) config' = true /\
   (other <> Config.id trinnov ->
    Config.get other config' = Config.get other config) /\
   snd (Config.add add_handler trinnov config)
   = ((if add_handler then [Config.AddHandler trinnov] else [])
      ++ [Config.Store config'])%list).
Proof.
  unfold Config.add, Config.contains. split.
  - intros ->. reflexivity.
  - intros Hnew. rewrite Hnew. cbn [fst snd].
    assert (Habs : forall x, In x config -> Config.id x <> Config.id trinnov).
    { intros x Hx Heq.
      assert (Hc : Config.contains (Config.id trinnov) config = true).
      { apply contains_In, in_map_iff. eauto. }
      unfold Config.contains in Hc. congruence. }
    assert (Hget : Config.get (Config.id trinnov) (config ++ [trinnov])
                   = Some trinnov).
    { rewrite get_skip by exact Habs. unfold Config.get. cbn.
      now rewrite (proj2 (same_id_true _ _) eq_refl). }
    split; [exact Hget|]. split; [|split; [|reflexivity]].
    + change (Config.contains (Config.id trinnov) (config ++ [trinnov]) = true).
      apply contains_get. rewrite Hget. eauto.
    + intros Hne. rewrite get_app.
      destruct (Config.get other config); [reflexivity|].
      unfold Config.get. cbn.
      rewrite (proj2 (same_id_false _ _)); [reflexivity | congruence].
Qed.

Lemma X28_witness :
  let a := Config.mkInfo (Some "A") (Some "Trinnov A") (Some "10.0.0.2")
             (Some "00:11") None None in
  let a' := Config.mkInfo (Some "A") (Some "Other") (Some "10.0.0.9")
              (Some "00:19") None None in
  let b := Config.mkInfo (Some "B") (Some "Trinnov B") (Some "10.0.0.3")
             (Some "00:12") None None in
  Config.add true a' [a] = ([a], []) /\
  Config.get (Some "B") (fst (Config.add true b [a])) = Some b.
Proof.
  intros a a' b. split.
  - apply (proj1 (X28_config_add true [a] a' None)). reflexivity.
  - apply (proj2 (X28_config_add true [a] b None)). reflexivity.
Defined.

(** X29.  Removing from the stored configuration.  [remove] returns
    whether the id was held; an id that is not held leaves the list
    alone, calls no handler and stores nothing.  It takes out the
    first entry of the id and leaves every other id as it was; when
    the ids of the list are pairwise distinct the id is no longer held
    afterwards. *)
Theorem X29_config_remove
    (remove_handler : bool) (config : list Config.TrinnovInfo)
    (device_id other : option string) :
  let r := Config.remove remove_handler device_id config in
  snd r = Config.contains device_id config /\
  (snd r = false -> r = (config, [], false)) /\
  (other <> device_id ->
   Config.get other (fst (fst r)) = Config.get other config) /\
  (Config.unique_ids config -> Config.contains device_id (fst (fst r)) = false) /\
  (snd r = true ->
   exists removed,
     Config.get device_id config = Some removed /\
     snd (fst r)
     = ((if remove_handler then [Config.RemoveHandler (Some removed)] else [])
        ++ [Config.Store (fst (fst r))])%list).
Proof.
  intros r. unfold r, Config.remove. clear r.
  pose proof (pop_first_spec device_id config) as Hpop.
  destruct (Config.pop_first device_id config) as [[removed config']|].
  - destruct Hpop as (pre & post & -> & -> & Hid & Hpre). cbn [fst snd].
    split; [|split; [discriminate|split; [|split]]].
    + symmetry. apply contains_In. rewrite List.map_app. apply in_or_app.
      right. left. exact Hid.
    + intros Hne. rewrite !get_app.
      destruct (Config.get other pre); [reflexivity|].
      unfold Config.get. cbn.
      rewrite (proj2 (same_id_false _ _)); [reflexivity | congruence].
    + unfold Config.unique_ids. intros Huniq.
      rewrite List.map_app in Huniq. cbn [map] in Huniq.
      apply NoDup_app in Huniq. destruct Huniq as (_ & Hdisj & Hpost).
      apply NoDup_cons in Hpost. destruct Hpost as [Hnot _].
      destruct (Config.contains device_id (pre ++ post)) eqn:E; [|reflexivity].
      apply contains_In in E. rewrite List.map_app in E.
      apply in_app_or in E. destruct E as [E|E].
      * apply in_map_iff in E. destruct E as (x & Hx & Hin).
        destruct (Hpre x Hin Hx).
      * rewrite Hid in Hnot. apply list_elem_of_In in E. contradiction.
    + intros _. exists removed. split; [|reflexivity].
      rewrite get_skip by exact Hpre. unfold Config.get. cbn.
      now rewrite (proj2 (same_id_true _ _) Hid).
  - cbn [fst snd]. split; [|split; [reflexivity|split; [reflexivity|split]]].
    + symmetry. destruct (Config.contains device_id config) eqn:E; [|reflexivity].
      apply contains_In, in_map_iff in E. destruct E as (x & Hx & Hin).
      destruct (Hpop x Hin Hx).
    + intros _. destruct (Config.contains device_id config) eqn:E; [|reflexivity].
      apply contains_In, in_map_iff in E. destruct E as (x & Hx & Hin).
      destruct (Hpop x Hin Hx).
    + discriminate.
Qed.

(** X30.  The second step of the setup flow.  When the submitted form
    carries a MAC address, setup completes and the stored
    configuration holds exactly one device afterwards, built from the
    form, whatever was configured before: the old entries are cleared
    first and the new device is always added and stored.  When the
    form carries no MAC address, the stored configuration is left
    alone; the device is asked for its data, and setup fails when it
    gives none. *)
Theorem X30_setup_replaces_the_configuration
    (add_handler remove_handler file_exists : bool)
    (txt_records input_values : gmap string (option string))
    (config : list Config.TrinnovInfo) :
  let r := SetupFlow.handle_user_data_response add_handler remove_handler
             file_exists txt_records input_values config in
  (SetupFlow.truthy (SetupFlow.values_get input_values "mac") = true ->
   SetupFlow.action r = SetupFlow.SetupComplete /\
   exists info,
     SetupFlow.config_after r = [info] /\
     Config.id info = SetupFlow.values_get_default input_values "srpid" "Unknown" /\
     Config.mac info = SetupFlow.values_get input_values "mac" /\
     Config.ip info = SetupFlow.values_get_default input_values "ip" "Unknown" /\
     (exists before,
        SetupFlow.effects r = (before ++ [Config.Store [info]])%list) /\
     (add_handler = true -> In (Config.AddHandler info) (SetupFlow.effects r)) /\
     (remove_handler = true ->
      In (Config.RemoveHandler None) (SetupFlow.effects r))) /\
  (SetupFlow.truthy (SetupFlow.values_get input_values "mac") = false ->
   SetupFlow.config_after r = config /\ SetupFlow.effects r = [] /\
   (txt_records = ∅ -> SetupFlow.action r = SetupFlow.SetupError) /\
   (txt_records <> ∅ ->
    SetupFlow.action r
    = SetupFlow._detailed_input_form (SetupFlow.input_values_after r) /\
    SetupFlow.values_get (SetupFlow.input_values_after r) "mac"
    = SetupFlow.values_get_default txt_records "mac" "Unknown")).
Proof.
  intros r. unfold r, SetupFlow.handle_user_data_response. clear r.
  destruct (SetupFlow.truthy (SetupFlow.values_get input_values "mac")) eqn:Emac;
    cbn [negb]; (split; [|]); try discriminate.
  - intros _. unfold Config.clear, Config.add. cbn [existsb SetupFlow.action
      SetupFlow.config_after SetupFlow.effects app].
    split; [reflexivity|]. eexists. split; [reflexivity|]. cbn [Config.id Config.mac Config.ip].
    split; [reflexivity|]. split.
    + unfold SetupFlow.values_get_default, SetupFlow.values_get in *.
      destruct (input_values !! "mac") as [v|]; [reflexivity | discriminate].
    + split; [reflexivity|]. split.
      * eexists. rewrite List.app_assoc. reflexivity.
      * split.
        -- intros ->. apply in_or_app. right. now left.
        -- intros ->. apply in_or_app. left. apply in_or_app. right. now left.
  - intros _.
    destruct (bool_decide (txt_records = ∅)) eqn:Etxt.
    + apply bool_decide_eq_true in Etxt. cbn. repeat split; congruence.
    + apply bool_decide_eq_false in Etxt. cbn [SetupFlow.action
        SetupFlow.config_after SetupFlow.effects SetupFlow.input_values_after].
      split; [reflexivity|]. split; [reflexivity|]. split; [congruence|].
      intros _. split; [reflexivity|].
      unfold SetupFlow.values_get at 1. cbn [foldr].
      rewrite lookup_insert_ne by discriminate.
      rewrite lookup_insert_eq. reflexivity.
Qed.

Lemma X30_witness :
  let old := Config.mkInfo (Some "OLD") (Some "Trinnov Old") (Some "10.0.0.2")
               (Some "00:11") None None in
  let input_values : gmap string (option string) :=
    <["mac" := Some "00:22"]> (<["srpid" := Some "NEW"]> ∅) in
  let r := SetupFlow.handle_user_data_response true true true ∅ input_values
             [old; old] in
  SetupFlow.action r = SetupFlow.SetupComplete /\
  exists info,
    SetupFlow.config_after r = [info] /\
    Config.id info = SetupFlow.values_get_default input_values "srpid" "Unknown" /\
    Config.mac info = SetupFlow.values_get input_values "mac" /\
    Config.ip info = SetupFlow.values_get_default input_values "ip" "Unknown" /\
    (exists before,
       SetupFlow.effects r = (before ++ [Config.Store [info]])%list) /\
    (true = true -> In (Config.AddHandler info) (SetupFlow.effects r)) /\
    (true = true -> In (Config.RemoveHandler None) (SetupFlow.effects r)).
Proof.
  intros old input_values r.
  apply (proj1 (X30_setup_replaces_the_configuration true true true ∅
                  input_values [old; old])).
  vm_compute. reflexivity.
Defined.
